(** * TG-GAT agent: view transform, oracle action and rollout

    Shallow embedding of [agent.py]: [get_direction], [compute_iou],
    [NavCMTAgent.move_view_corners], [NavCMTAgent.teacher_action] and the
    step loop of [NavCMTAgent.rollout]; then the decoding of an action in
    [rollout], [NavCMTAgent.gps_to_img_coords], [NavCMTAgent.NSS],
    [NavCMTAgent.save], [NavCMTAgent.load] and the two bbox conversions.

    Numbers.  A finite float64 is read as the real number it denotes
    (rounding and overflow are left out); the values that numpy produces
    when a division has a zero divisor are kept, because the bounds checks
    of [move_view_corners] and the NaN tests of [rollout] depend on them.
    Where the rounding decides a statement, the three stages of
    [move_view_corners] are embedded a second time on binary64 numbers
    (module [Binary64]). *)

From Stdlib Require Import Reals Lra Lia ZArith List Bool.
From Stdlib Require String.
From Stdlib Require Floats.PrimFloat.
Import ListNotations.
Open Scope R_scope.

Set Implicit Arguments.

(** * The embedding *)

(** ** Python exceptions and results *)

Inductive exn : Type :=
| ZeroDivisionError
| TypeError
| IndexError
| UnboundLocalError
| LinAlgError
| TopologicalError
| NotImplementedError
| ValueError.

Inductive result (A : Type) : Type :=
| Ok (a : A)
| Raise (e : exn).

Arguments Ok {A} a.
Arguments Raise {A} e.

Definition bind {A B : Type} (m : result A) (k : A -> result B) : result B :=
  match m with
  | Ok a => k a
  | Raise e => Raise e
  end.

Notation "x <- m ;; k" := (bind m (fun x => k))
  (at level 61, m at next level, right associativity).

(** ** Decisions on reals as booleans *)

Definition Rltb (x y : R) : bool := if Rlt_dec x y then true else false.
Definition Reqb (x y : R) : bool := if Req_dec_T x y then true else false.

(** ** Python's [%] and [round] on finite numbers *)

(** [x % m] for a positive [m]: the result has the sign of the divisor. *)
Definition pymod (x m : R) : R := x - m * IZR (Int_part (x / m)).

(** [round(x)]: to the nearest integer, a tie goes to the even one. *)
Definition pyround (x : R) : Z :=
  let f := Int_part x in
  let d := x - IZR f in
  if Rltb d (1 / 2) then f
  else if Rltb (1 / 2) d then (f + 1)%Z
  else if Z.even f then f else (f + 1)%Z.

(** ** Float values *)

Module Float.

(** A float64 value: a finite number, an infinity, or NaN. *)
Inductive fl : Type :=
| Fin (r : R)
| PInf
| NInf
| NaN.

Definition fneg (a : fl) : fl :=
  match a with
  | Fin x => Fin (- x)
  | PInf => NInf
  | NInf => PInf
  | NaN => NaN
  end.

Definition fadd (a b : fl) : fl :=
  match a, b with
  | NaN, _ | _, NaN => NaN
  | Fin x, Fin y => Fin (x + y)
  | PInf, NInf | NInf, PInf => NaN
  | PInf, _ | _, PInf => PInf
  | NInf, _ | _, NInf => NInf
  end.

Definition fsub (a b : fl) : fl := fadd a (fneg b).

(** The infinity of the sign of [x], NaN when [x] is zero. *)
Definition inf_of_sign (x : R) : fl :=
  if Rltb 0 x then PInf else if Rltb x 0 then NInf else NaN.

Definition fmul (a b : fl) : fl :=
  match a, b with
  | NaN, _ | _, NaN => NaN
  | Fin x, Fin y => Fin (x * y)
  | Fin x, PInf | PInf, Fin x => inf_of_sign x
  | Fin x, NInf | NInf, Fin x => inf_of_sign (- x)
  | PInf, PInf | NInf, NInf => PInf
  | PInf, NInf | NInf, PInf => NaN
  end.

(** numpy division; it never raises.  A zero divisor is taken as [+0.0],
    which is what a norm returns. *)
Definition fdiv (a b : fl) : fl :=
  match a, b with
  | NaN, _ | _, NaN => NaN
  | Fin x, Fin y => if Reqb y 0 then inf_of_sign x else Fin (x / y)
  | Fin _, PInf | Fin _, NInf => Fin 0
  | PInf, Fin y => if Rltb y 0 then NInf else PInf
  | NInf, Fin y => if Rltb y 0 then PInf else NInf
  | _, _ => NaN
  end.

Definition fsqrt (a : fl) : fl :=
  match a with
  | Fin x => if Rltb x 0 then NaN else Fin (sqrt x)
  | PInf => PInf
  | NInf | NaN => NaN
  end.

Definition flt (a b : fl) : bool :=
  match a, b with
  | NaN, _ | _, NaN => false
  | Fin x, Fin y => Rltb x y
  | NInf, NInf | PInf, _ | _, NInf => false
  | NInf, _ | _, PInf => true
  end.

Definition fgt (a b : fl) : bool := flt b a.

(** [v != v] holds for NaN only. *)
Definition fne_self (a : fl) : bool :=
  match a with
  | NaN => true
  | _ => false
  end.

End Float.

(** ** get_direction and move_view_corners *)

Module Geometry.
Import Float.

(** A gps point as the code receives it: two finite numbers. *)
Definition rpt : Type := (R * R)%type.

(** A row of a numpy array inside [move_view_corners]. *)
Definition pt : Type := (fl * fl)%type.

(** A (4, 2) array. *)
Record quad (P : Type) : Type := Quad { c0 : P; c1 : P; c2 : P; c3 : P }.

Arguments Quad {P} c0 c1 c2 c3.

Definition rows {P : Type} (q : quad P) : list P := [c0 q; c1 q; c2 q; c3 q].

Definition inj_pt (p : rpt) : pt := (Fin (fst p), Fin (snd p)).

Definition inj (q : quad rpt) : quad pt :=
  Quad (inj_pt (c0 q)) (inj_pt (c1 q)) (inj_pt (c2 q)) (inj_pt (c3 q)).

(** *** get_direction, on finite points *)

Definition rsub (p q : rpt) : rpt := (fst p - fst q, snd p - snd q).

(** [np.mean(corners, axis=0)] *)
Definition rmean (q : quad rpt) : rpt :=
  ((fst (c0 q) + fst (c1 q) + fst (c2 q) + fst (c3 q)) / 4,
   (snd (c0 q) + snd (c1 q) + snd (c2 q) + snd (c3 q)) / 4).

(** [(corners[0] + corners[1]) / 2] *)
Definition rmid (p q : rpt) : rpt := ((fst p + fst q) / 2, (snd p + snd q) / 2).

Definition get_direction (start end_ : rpt) : R :=
  let vec := rsub end_ start in
  let _angle :=
    if Rltb 0 (snd vec) then atan (fst vec / snd vec) / 1.57 * 90
    else if Rltb (snd vec) 0 then atan (fst vec / snd vec) / 1.57 * 90 + 180
    else if Rltb 0 (fst vec) then 90
    else 270 in
  pymod (360 - _angle + 90) 360.

(** Line 301: the direction recomputed from the corners. *)
Definition current_direction (corners : quad rpt) : R :=
  pymod (IZR (pyround (get_direction (rmean corners) (rmid (c0 corners) (c1 corners))))) 360.

(** Lines 302-304: whether the asserted direction is taken as drifted. *)
Definition drifted (corners : quad rpt) (input_current_direction : option R) : bool :=
  match input_current_direction with
  | None => false
  | Some d => Rltb 2 (Rabs (d - current_direction corners))
  end.

(** Lines 302-304: the value of [angle] after the drift test. *)
Definition corrected_angle (corners : quad rpt) (angle : R)
  (input_current_direction : option R) : R :=
  match input_current_direction with
  | None => angle
  | Some d => if drifted corners input_current_direction then angle + d else angle
  end.

(** *** Array arithmetic *)

Definition padd (p q : pt) : pt := (fadd (fst p) (fst q), fadd (snd p) (snd q)).
Definition psub (p q : pt) : pt := (fsub (fst p) (fst q), fsub (snd p) (snd q)).
Definition pscale (p : pt) (k : fl) : pt := (fmul (fst p) k, fmul (snd p) k).
Definition pdiv (p : pt) (k : fl) : pt := (fdiv (fst p) k, fdiv (snd p) k).

(** [np.linalg.norm] of a 2-vector. *)
Definition norm (p : pt) : fl :=
  fsqrt (fadd (fmul (fst p) (fst p)) (fmul (snd p) (snd p))).

(** [(a - b) / np.linalg.norm(c - d) * change] *)
Definition along (a b c d : pt) (change : fl) : pt :=
  pscale (pdiv (psub a b) (norm (psub c d))) change.

Definition move_view_corner_forward (cs : quad pt) (change : fl) : quad pt :=
  Quad (padd (c0 cs) (along (c0 cs) (c3 cs) (c3 cs) (c0 cs) change))
       (padd (c1 cs) (along (c1 cs) (c2 cs) (c2 cs) (c1 cs) change))
       (padd (c2 cs) (along (c1 cs) (c2 cs) (c2 cs) (c1 cs) change))
       (padd (c3 cs) (along (c0 cs) (c3 cs) (c3 cs) (c0 cs) change)).

Definition rotation_anticlock (theta : R) (p : pt) : pt :=
  let c := Fin (cos (theta / 180 * 3.14159)) in
  let s := Fin (sin (theta / 180 * 3.14159)) in
  (fadd (fmul c (fst p)) (fmul s (snd p)),
   fadd (fmul (fneg s) (fst p)) (fmul c (snd p))).

Definition change_corner (cs : quad pt) (change : fl) : quad pt :=
  Quad (padd (padd (c0 cs) (along (c0 cs) (c1 cs) (c1 cs) (c0 cs) change))
             (along (c0 cs) (c3 cs) (c3 cs) (c0 cs) change))
       (padd (padd (c1 cs) (along (c1 cs) (c0 cs) (c1 cs) (c0 cs) change))
             (along (c1 cs) (c2 cs) (c2 cs) (c1 cs) change))
       (padd (padd (c2 cs) (along (c2 cs) (c3 cs) (c2 cs) (c3 cs) change))
             (along (c2 cs) (c1 cs) (c2 cs) (c1 cs) change))
       (padd (padd (c3 cs) (along (c3 cs) (c2 cs) (c2 cs) (c3 cs) change))
             (along (c3 cs) (c0 cs) (c3 cs) (c0 cs) change)).

(** [np.mean(corners, axis=0)] on the zoomed corners. *)
Definition pmean (q : quad pt) : pt :=
  pdiv (padd (padd (padd (c0 q) (c1 q)) (c2 q)) (c3 q)) (Fin 4).

(** The test of lines 316, 337 and 350. *)
Definition in_bounds (gps_botm_left gps_top_right : rpt) (i : pt) : bool :=
  fgt (fst i) (Fin (fst gps_botm_left)) && flt (fst i) (Fin (fst gps_top_right))
  && fgt (snd i) (Fin (snd gps_botm_left)) && flt (snd i) (Fin (snd gps_top_right)).

(** The three loops [for i in ...: if <in bounds>: append(i) else: break]. *)
Fixpoint collect (gps_botm_left gps_top_right : rpt) (l : list pt) : list pt :=
  match l with
  | [] => []
  | i :: rest =>
      if in_bounds gps_botm_left gps_top_right i
      then i :: collect gps_botm_left gps_top_right rest
      else []
  end.

(** Lines 307-310. *)
Definition step_change_of_view_zoom (corners : quad pt) (altitude : R) : fl :=
  let current_view_area_edge_length :=
    fmul (fmul (norm (psub (c1 corners) (c0 corners))) (Fin 11.13)) (Fin 1e4) in
  fdiv (fdiv (fmul (Fin 0.5) (fsub (Fin altitude) current_view_area_edge_length))
             (Fin 11.13)) (Fin 1e4).

(** Line 311: the corners the zoom stage produces. *)
Definition zoom_stage (corners : quad rpt) (altitude : R) : quad pt :=
  change_corner (inj corners) (step_change_of_view_zoom (inj corners) altitude).

(** Lines 326-336: the corners the rotate stage produces. *)
Definition rotate_stage (corners : quad pt) (angle : R) : quad pt :=
  let mean_im_coords := pmean corners in
  let rot (c : pt) := padd mean_im_coords (rotation_anticlock (- angle) (psub c mean_im_coords)) in
  Quad (rot (c0 corners)) (rot (c1 corners)) (rot (c2 corners)) (rot (c3 corners)).

(** Line 346: the corners the move stage produces. *)
Definition move_stage (rotated_corners : quad pt) (distance : fl) : quad pt :=
  move_view_corner_forward rotated_corners distance.

(** [corners], [angle], [altitude], the bounds and the asserted direction
    are finite numbers; [distance] is any float. *)
Definition move_view_corners (corners : quad rpt) (angle : R) (distance : fl)
  (altitude : R) (gps_botm_left gps_top_right : rpt) (input_current_direction : option R)
  : quad pt * R :=
  let current_direction := current_direction corners in
  let angle := corrected_angle corners angle input_current_direction in
  match collect gps_botm_left gps_top_right (rows (zoom_stage corners altitude)) with
  | [z0; z1; z2; z3] =>
      let corners := Quad z0 z1 z2 z3 in
      match collect gps_botm_left gps_top_right (rows (rotate_stage corners angle)) with
      | [r0; r1; r2; r3] =>
          let rotated_corners := Quad r0 r1 r2 r3 in
          match collect gps_botm_left gps_top_right
                  (rows (move_stage rotated_corners distance)) with
          | [m0; m1; m2; m3] =>
              (Quad m0 m1 m2 m3, pymod (current_direction + angle) 360)
          | _ => (rotated_corners, pymod (current_direction + angle) 360)
          end
      | _ => (corners, current_direction)
      end
  | _ => (inj corners, current_direction)
  end.

(** Every corner of the array passes the bounds test. *)
Definition inside (gps_botm_left gps_top_right : rpt) (q : quad pt) : bool :=
  forallb (in_bounds gps_botm_left gps_top_right) (rows q).

(** The length of the reference edge in the unit of the altitude. *)
Definition edge_length (corners : quad rpt) : R :=
  sqrt ((fst (c1 corners) - fst (c0 corners)) * (fst (c1 corners) - fst (c0 corners))
        + (snd (c1 corners) - snd (c0 corners)) * (snd (c1 corners) - snd (c0 corners)))
  * 11.13 * 1e4.

(** Two adjacent corners coincide. *)
Definition degenerate (corners : quad rpt) : Prop :=
  c0 corners = c1 corners \/ c1 corners = c2 corners
  \/ c2 corners = c3 corners \/ c3 corners = c0 corners.

(** Some corner of the array fails the bounds test. *)
Definition some_corner_outside (gps_botm_left gps_top_right : rpt) (q : quad pt) : Prop :=
  exists i, In i (rows q) /\ in_bounds gps_botm_left gps_top_right i = false.

(** *** Concrete windows *)

Definition map_botm_left : rpt := (-10, -10).
Definition map_top_right : rpt := (10, 10).

(** A square of side 2 whose first edge is its north edge. *)
Definition north_window : quad rpt := Quad (2, 0) (2, 2) (0, 2) (0, 0).

(** The same square with the first edge to the south. *)
Definition south_window : quad rpt := Quad (0, 0) (0, 2) (2, 2) (2, 0).

(** A window whose first edge has length zero. *)
Definition flat_window : quad rpt := Quad (2, 1) (2, 1) (0, 2) (0, 0).

End Geometry.

(** ** compute_iou and teacher_action *)

Module Oracle.
Import Stdlib.Strings.String.
Import Geometry.

(** The part of shapely that [agent.py] calls.  The library is not part of
    the repository: its operations are parameters of the model, and every
    statement below holds whatever they answer. *)
Record Shapely : Type := {
  geom : Type;
  Polygon : list rpt -> geom;
  MultiPoint : list rpt -> geom;
  LineString : list rpt -> result geom;
  convex_hull : geom -> geom;
  intersects : geom -> geom -> bool;
  intersection : geom -> geom -> result geom;
  area : geom -> R;
  (** [type(g) == shapely.geometry.linestring.LineString] *)
  is_linestring : geom -> bool;
  (** [g.coords] *)
  coords : geom -> result (list rpt);
  (** the parts that [for line_string in g] goes through *)
  parts : geom -> result (list geom)
}.

(** The values that [teacher_action] stores in [teacher_a], and [-100]. *)
Inductive pyval : Type :=
| PyStr (s : String.string)
| PyInt (z : Z)
| PyFloat (x : R)
| PyNdarray (v : rpt).

Inductive pytype : Type := TStr | TInt | TFloat | TNdarray.

Definition type_of (v : pyval) : pytype :=
  match v with
  | PyStr _ => TStr
  | PyInt _ => TInt
  | PyFloat _ => TFloat
  | PyNdarray _ => TNdarray
  end.

Definition pytype_eqb (a b : pytype) : bool :=
  match a, b with
  | TStr, TStr | TInt, TInt | TFloat, TFloat | TNdarray, TNdarray => true
  | _, _ => false
  end.

Inductive feedback : Type := student | teacher.

(** Python's [x / y] on floats. *)
Definition pydiv (x y : R) : result R :=
  if Reqb y 0 then Raise ZeroDivisionError else Ok (x / y).

(** Python's [max(x, y, z)]: a later argument wins only if it is greater. *)
Definition pymax3 (x y z : R) : R :=
  let m := if Rltb x y then y else x in
  if Rltb m z then z else m.

Definition rscale (k : R) (p : rpt) : rpt := (k * fst p, k * snd p).

(** [np.linalg.norm] of a finite 2-vector. *)
Definition rnorm (p : rpt) : R := sqrt (fst p * fst p + snd p * snd p).

(** [np.linalg.norm(x - goal_corner_center)] *)
Definition dist_to (goal x : rpt) : R := rnorm (rsub x goal).

(** [l[-1]] *)
Definition last_item {A : Type} (l : list A) : result A :=
  match rev l with
  | [] => Raise IndexError
  | x :: _ => Ok x
  end.

(** [l[j]] for a [j] that is not negative. *)
Definition item {A : Type} (l : list A) (j : nat) : result A :=
  match nth_error l j with
  | Some x => Ok x
  | None => Raise IndexError
  end.

(** [np.linalg.solve] for a 2x2 system [[a11, a12], [a21, a22]] r = [b1, b2]. *)
Definition solve2 (a11 a12 a21 a22 : Z) (b1 b2 : R) : result (R * R) :=
  let det := IZR (a11 * a22 - a12 * a21) in
  if Reqb det 0 then Raise LinAlgError
  else Ok ((b1 * IZR a22 - IZR a12 * b2) / det, (IZR a11 * b2 - b1 * IZR a21) / det).

Section WithShapely.

Variable S : Shapely.

Definition compute_iou (a b : quad rpt) : result R :=
  let poly1 := convex_hull S (Polygon S (rows a)) in
  let poly2 := convex_hull S (Polygon S (rows b)) in
  let union_poly := rows a ++ rows b in
  if negb (intersects S poly1 poly2) then Ok 0
  else
    match intersection S poly1 poly2 with
    | Ok g =>
        let inter_area := area S g in
        let union_area := area S (convex_hull S (MultiPoint S union_poly)) in
        (* line 60 sets iou to 0 when union_area == 0; line 63 then divides *)
        pydiv inter_area union_area
    | Raise TopologicalError => Ok 0
    | Raise e => Raise e
    end.

(** Lines 377-383: the scan from the last reference window backward; the
    list holds the indices with their windows in the order of the scan. *)
Fixpoint closest_scan (current_pos : rpt) (l : list (nat * quad rpt))
  (min_dis : R) (closest_step_index : option nat) : R * option nat :=
  match l with
  | [] => (min_dis, closest_step_index)
  | (j, w) :: rest =>
      let gt_pos := rmean w in
      let dis_to_current := rnorm (rsub gt_pos current_pos) in
      if Rltb (dis_to_current + 0.00001) min_dis
      then closest_scan current_pos rest dis_to_current (Some j)
      else closest_scan current_pos rest min_dis closest_step_index
  end.

Definition indexed_backward (gt_path_corners : list (quad rpt)) : list (nat * quad rpt) :=
  rev (combine (seq 0 (List.length gt_path_corners)) gt_path_corners).

(** Line 384. *)
Definition teacher_altitude (w : quad rpt) : R :=
  (rnorm (rsub (c0 w) (c1 w)) * 11.13 * 1e4 - 40) / (400 - 40).

(** Lines 420-426: the scan of the intersection points. *)
Fixpoint closest_to_goal (goal_corner_center : rpt) (intersection_line : list rpt)
  (min_distance : R) (target : pyval) : pyval :=
  match intersection_line with
  | [] => target
  | x :: rest =>
      let _distance := rnorm (rsub x goal_corner_center) in
      if Rltb _distance min_distance
      then closest_to_goal goal_corner_center rest _distance (PyNdarray x)
      else closest_to_goal goal_corner_center rest min_distance target
  end.

(** Lines 397-399 and 413-415: the segment from the window to the goal. *)
Definition direct_intersection (shapely_poly : geom S) (current_pos goal : rpt)
  : result (list rpt) :=
  shapely_line <- LineString S [current_pos; goal] ;;
  g <- intersection S shapely_poly shapely_line ;;
  coords S g.

Fixpoint all_coords (gs : list (geom S)) : result (list rpt) :=
  match gs with
  | [] => Ok []
  | g :: rest =>
      c <- coords S g ;;
      cs <- all_coords rest ;;
      Ok (c ++ cs)
  end.

(** Lines 395-415. *)
Definition intersection_line (fb : feedback) (corners : quad rpt)
  (gt_path_corners : list (quad rpt)) (goal : rpt) : result (list rpt) :=
  let current_pos := rmean corners in
  let shapely_poly := Polygon S (rows corners) in
  match fb with
  | student => direct_intersection shapely_poly current_pos goal
  | teacher =>
      shapely_line <- LineString S (map rmean gt_path_corners) ;;
      g <- intersection S shapely_poly shapely_line ;;
      il <- (if is_linestring S g then coords S g
             else gs <- parts S g ;; all_coords gs) ;;
      match il with
      | [] => direct_intersection shapely_poly current_pos goal
      | _ => Ok il
      end
  end.

(** Lines 447-453: the coefficients of the target in the basis of the window. *)
Definition basis_solve (target : pyval) (corners : quad rpt) : result (R * R) :=
  let current_pos := rmean corners in
  match target with
  | PyNdarray x =>
      let _net_next_pos := rscale 1e5 (rsub x current_pos) in
      let _net_y := rscale 1e5 (rsub (rmid (c0 corners) (c1 corners)) current_pos) in
      let _net_x := rscale 1e5 (rsub (rmid (c1 corners) (c2 corners)) current_pos) in
      solve2 (pyround (fst _net_x)) (pyround (fst _net_y))
             (pyround (snd _net_x)) (pyround (snd _net_y))
             (fst _net_next_pos) (snd _net_next_pos)
  | _ => Raise TypeError
  end.

(** Lines 460-462. *)
Definition clamp (r : R * R) : R * R :=
  let max_of_gt_next_pos_ratio := pymax3 (Rabs (fst r)) (Rabs (snd r)) 1 in
  (fst r / max_of_gt_next_pos_ratio, snd r / max_of_gt_next_pos_ratio).

(** What one pass of the loop of [teacher_action] leaves for sample [i]. *)
Record teacher_out : Type := TeacherOut {
  action_slot : pyval;        (* teacher_a[i][0] *)
  altitude_slot : pyval;      (* teacher_a[i][1] *)
  gt_progress : R;            (* progress[i] *)
  closest_after : option nat  (* closest_step_index, which outlives the pass *)
}.

Record sample : Type := Sample {
  gt_path_corners : list (quad rpt);
  ended : bool;
  corners : quad rpt
}.

(** The sample is judged terminal at line 385. *)
Definition terminal (ended_i : bool) (progress_i : R) : bool :=
  ended_i || Rltb 0.5 progress_i.

(** Lines 370-464, the body of the loop for one sample. *)
Definition teacher_action_i (fb : feedback) (closest_before : option nat) (s : sample)
  : result teacher_out :=
  let current_pos := rmean (corners s) in
  final <- last_item (gt_path_corners s) ;;
  iou <- compute_iou (corners s) final ;;
  let closest_step_index :=
    snd (closest_scan current_pos (indexed_backward (gt_path_corners s)) 1000 closest_before) in
  match closest_step_index with
  | None => Raise UnboundLocalError
  | Some j =>
      w <- item (gt_path_corners s) j ;;
      let alt := PyFloat (teacher_altitude w) in
      if terminal (ended s) iou
      then Ok (TeacherOut (PyNdarray (0, 0)) alt iou closest_step_index)
      else
        let goal_corner_center := rmean final in
        il <- intersection_line fb (corners s) (gt_path_corners s) goal_corner_center ;;
        let target := closest_to_goal goal_corner_center il 1 (PyStr "0"%string) in
        r <- basis_solve target (corners s) ;;
        Ok (TeacherOut (PyNdarray (clamp r)) alt iou closest_step_index)
  end.

(** The loop over the batch. *)
Fixpoint teacher_action_from (fb : feedback) (closest : option nat) (obs : list sample)
  : result (list teacher_out) :=
  match obs with
  | [] => Ok []
  | s :: rest =>
      o <- teacher_action_i fb closest s ;;
      os <- teacher_action_from fb (closest_after o) rest ;;
      Ok (o :: os)
  end.

Definition teacher_action (fb : feedback) (obs : list sample) : result (list teacher_out) :=
  teacher_action_from fb None obs.

End WithShapely.

(** *** Shapely's answers in a scenario

    For the concrete runs below, the answers that shapely gives to the calls
    of one pass of [teacher_action] on one sample: whether the two hulls
    intersect, the area of their intersection, the area of the hull of the
    eight vertices, and the coordinates of the intersection of the window
    with the target line.  The windows of the scenarios have their vertices
    in convex position, so that the hull of a window is the window and its
    area is given by the shoelace formula. *)

Inductive answer_geom : Type :=
| WindowPolygon (vertices : list rpt)
| WindowHull (vertices : list rpt)
| Vertices
| VerticesHull
| TargetLine
| HullsIntersection
| LineIntersection.

Definition cross (p q : rpt) : R := fst p * snd q - fst q * snd p.

Fixpoint shoelace_from (first : rpt) (l : list rpt) : R :=
  match l with
  | [] => 0
  | p :: rest =>
      match rest with
      | [] => cross p first
      | q :: _ => cross p q + shoelace_from first rest
      end
  end.

Definition polygon_area (l : list rpt) : R :=
  match l with
  | [] => 0
  | p :: _ => Rabs (shoelace_from p l) / 2
  end.

Definition answers (hulls_intersect : bool) (inter_area union_area : R)
  (line_coords : list rpt) : Shapely :=
  {| geom := answer_geom;
     Polygon := fun l => WindowPolygon l;
     MultiPoint := fun _ => Vertices;
     LineString := fun _ => Ok TargetLine;
     convex_hull := fun g =>
       match g with
       | WindowPolygon l => WindowHull l
       | Vertices => VerticesHull
       | _ => g
       end;
     intersects := fun _ _ => hulls_intersect;
     intersection := fun _ h =>
       match h with TargetLine => Ok LineIntersection | _ => Ok HullsIntersection end;
     area := fun g =>
       match g with
       | HullsIntersection => inter_area
       | VerticesHull => union_area
       | WindowPolygon l | WindowHull l => polygon_area l
       | _ => 0
       end;
     is_linestring := fun g =>
       match g with LineIntersection | TargetLine => true | _ => false end;
     coords := fun g =>
       match g with LineIntersection => Ok line_coords | _ => Raise NotImplementedError end;
     parts := fun _ => Raise TypeError |}.

(** The square [0,2] x [0,2], first edge to the north, centre (1, 1). *)
Definition here : quad rpt := Quad (2, 0) (2, 2) (0, 2) (0, 0).

(** A small goal window east of [here], centre (1, 2.5). *)
Definition goal_near : quad rpt := Quad (1.1, 2.4) (1.1, 2.6) (0.9, 2.6) (0.9, 2.4).

(** A goal window far to the east, centre (1, 11). *)
Definition goal_far : quad rpt := Quad (2, 10) (2, 12) (0, 12) (0, 10).

(** Four corners on one line. *)
Definition collinear : quad rpt := Quad (0, 0) (1, 0) (2, 0) (3, 0).

(** [here] and a goal to its east do not overlap; the hull of [here] and
    [goal_near] has area 4.66, that of [here] and [goal_far] has area 24; the
    segment from (1, 1) to the centre of the goal leaves [here] at (1, 2). *)
Definition near_answers : Shapely := answers false 0 4.66 [(1, 1); (1, 2)].
Definition far_answers : Shapely := answers false 0 24 [(1, 1); (1, 2)].

(** Two copies of [here]: the hulls intersect in the square itself. *)
Definition same_answers : Shapely := answers true 4 4 [].

(** Two copies of [collinear]: every hull is the segment from (0, 0) to (3, 0). *)
Definition collinear_answers : Shapely := answers true 0 0 [].

(** *** A run of the oracle *)

(** The window is on the first of two reference windows; the goal is the
    second one, to the east. *)
Definition near_sample : sample := Sample [here; goal_near] false here.

(** The only reference window is far to the east of the window. *)
Definition far_sample : sample := Sample [goal_far] false here.

(** The window is on the only reference window, which is the goal. *)
Definition same_sample : sample := Sample [here] false here.

End Oracle.

(** ** The step loop of rollout *)

Module Rollout.
Import Float.

(** What the forward pass returns for one row of the batch (lines 579-581). *)
Record prediction : Type := Prediction {
  pred_next_pos_ratio : fl * fl;
  pred_altitude : fl;
  pred_progress : fl
}.

(** The lines that the NaN tests of lines 619, 649 and 658 print. *)
Inductive printed_line : Type := Print0 | PrintBox | Print1.

(** [max(a, b)] and [min(a, b)] of Python: the first argument stays unless
    the second one is strictly greater, respectively smaller. *)
Definition pymax2 (a b : fl) : fl := if flt a b then b else a.
Definition pymin2 (a b : fl) : fl := if flt b a then b else a.

Definition fabs (a : fl) : fl :=
  match a with
  | Fin x => Fin (Rabs x)
  | PInf | NInf => PInf
  | NaN => NaN
  end.

(** Lines 588-591. *)
Definition clamp_prediction (p : fl * fl) : fl * fl :=
  let max_of_a_t_next_pos_i := pymax2 (pymax2 (fabs (fst p)) (fabs (snd p))) (Fin 1) in
  (fdiv (fst p) max_of_a_t_next_pos_i, fdiv (snd p) max_of_a_t_next_pos_i).

(** Lines 598 and 600: [min(1., max(0., x))]. *)
Definition clip01 (x : fl) : fl := pymin2 (Fin 1) (pymax2 (Fin 0) x).

(** Line 611: [type(target[i][0]) != type(-100)]. *)
Definition loss_guard (target_0 : Oracle.pyval) : bool :=
  negb (Oracle.pytype_eqb (Oracle.type_of target_0) (Oracle.type_of (Oracle.PyInt (-100)))).

(** The action that drives the simulator: [a_t[i]] of line 697 or line 700. *)
Inductive effective_action : Type :=
| OracleAction (target_0 target_1 : Oracle.pyval)
| ModelAction (a_t_next_pos_ratio : fl * fl) (a_t_altitude : fl).

Section Loop.

(** The array of four corners. *)
Variable Window : Type.

(** [self.args.max_action_len], ['test' in self.env_name], [self.feedback]
    and the [nss_w] argument. *)
Variable max_action_len : nat.
Variable is_test : bool.
Variable fb : Oracle.feedback.
Variable nss_w : fl.

(** The collaborators, as tables over the step [t] and the row [i]: the
    forward pass of the model, the oracle (line 605) on the flags and the
    windows of the step, the four [progress_regression] values of lines
    613-617, the bbox and label term of line 647, the NSS loss of line 656
    (absent when the ground-truth saliency is empty), and lines 719-730,
    which decode the action and call [move_view_corners] (the decoding
    raises a ValueError when it rounds a NaN). *)
Variable model : nat -> nat -> prediction.
Variable oracle : nat -> list bool -> list Window -> result (list Oracle.teacher_out).
Variable progress_regression : nat -> nat -> fl * fl * fl * fl.
Variable box_loss : nat -> fl.
Variable nss_loss : nat -> nat -> option fl.
Variable advance : nat -> nat -> Window -> R -> effective_action -> result (Window * R).

(** The state of one sample: its flag, window and direction, and its
    trajectory record. *)
Record episode : Type := Episode {
  ended : bool;
  current_view_corners : Window;
  current_direction : R;
  lenth : nat;
  actions : list ((fl * fl) * fl);
  gt_actions : list (Oracle.pyval * Oracle.pyval);
  gt_progress : list R;
  progress : list fl;
  path_corners : list (Window * R)
}.

Record state : Type := State {
  batch : list episode;
  ml_loss : fl;
  printed : list printed_line
}.

(** What a step knows about row [i]. *)
Record row : Type := Row {
  index : nat;
  pred : prediction;
  target : option Oracle.teacher_out
}.

(** [target[i]] for every [i] in [range(len(obs))], first read at line 611. *)
Definition align (outs : list Oracle.teacher_out) (n : nat)
  : result (list Oracle.teacher_out) :=
  if (n <=? List.length outs)%nat then Ok (firstn n outs) else Raise IndexError.

Definition rows_of (t n : nat) (targets : option (list Oracle.teacher_out)) : list row :=
  map (fun i => Row i (model t i)
                  (match targets with
                   | Some outs => nth_error outs i
                   | None => None
                   end))
      (seq 0 n).

(** Lines 566-568. *)
Definition count_step (e : episode) : episode :=
  if ended e then e
  else Episode (ended e) (current_view_corners e) (current_direction e) (S (lenth e))
         (actions e) (gt_actions e) (gt_progress e) (progress e) (path_corners e).

(** *** The objective *)

Definition note (test : bool) (line : printed_line) (log : list printed_line)
  : list printed_line :=
  if test then log ++ [line] else log.

(** Lines 612-619: the four regression terms of row [i] and the NaN test. *)
Definition add_terms (t : nat) (acc : fl * list printed_line) (i : nat)
  : fl * list printed_line :=
  let '(t1, t2, t3, t4) := progress_regression t i in
  let ml := fadd (fadd (fadd (fadd (fst acc) t1) t2) t3) t4 in
  (ml, note (fne_self ml) Print0 (snd acc)).

(** Lines 611-619 for one row. *)
Definition add_regression (t : nat) (acc : fl * list printed_line) (r : row)
  : fl * list printed_line :=
  match target r with
  | Some o =>
      if loss_guard (Oracle.action_slot o) then add_terms t acc (index r)
      else acc
  | None => acc
  end.

(** Lines 647-649. *)
Definition add_box (t : nat) (acc : fl * list printed_line) : fl * list printed_line :=
  let ml := fadd (fst acc) (box_loss t) in
  (ml, note (fne_self ml) PrintBox (snd acc)).

(** Lines 655-660 for one row. *)
Definition add_nss (t : nat) (acc : fl * list printed_line) (r : row)
  : fl * list printed_line :=
  match nss_loss t (index r) with
  | Some nss =>
      if fne_self nss then (fst acc, snd acc ++ [Print1])
      else (fadd (fst acc) (fmul nss_w nss), snd acc)
  | None => acc
  end.

(** Lines 609-660. *)
Definition loss_step (t : nat) (rows : list row) (acc : fl * list printed_line)
  : fl * list printed_line :=
  let acc := fold_left (add_regression t) rows acc in
  let acc := add_box t acc in
  fold_left (add_nss t) rows acc.

(** *** The trajectory *)

(** Lines 685-691 for one row. *)
Definition log_step (e : episode) (r : row) : episode :=
  if ended e then e
  else
    let a := (clamp_prediction (pred_next_pos_ratio (pred r)), clip01 (pred_altitude (pred r))) in
    Episode (ended e) (current_view_corners e) (current_direction e) (lenth e)
      (actions e ++ [a])
      (match target r with
       | Some o => gt_actions e ++ [(Oracle.action_slot o, Oracle.altitude_slot o)]
       | None => gt_actions e
       end)
      (match target r with
       | Some o => gt_progress e ++ [Oracle.gt_progress o]
       | None => gt_progress e
       end)
      (progress e ++ [pred_progress (pred r)])
      (path_corners e).

(** Lines 696-702: the action and the progress that count for row [i]. *)
Definition effective (r : row) : result (effective_action * fl) :=
  match fb with
  | Oracle.teacher =>
      match target r with
      | Some o =>
          Ok (OracleAction (Oracle.action_slot o) (Oracle.altitude_slot o),
              Fin (Oracle.gt_progress o))
      | None => Raise UnboundLocalError
      end
  | Oracle.student =>
      Ok (ModelAction (clamp_prediction (pred_next_pos_ratio (pred r)))
            (clip01 (pred_altitude (pred r))),
          clip01 (pred_progress (pred r)))
  end.

(** Lines 705-732 for one row. *)
Definition interact_step (t : nat) (e : episode) (r : row) (a : effective_action * fl)
  : result episode :=
  if fgt (snd a) (Fin 0.5) || (t =? max_action_len - 1)%nat then
    Ok (Episode true (current_view_corners e) (current_direction e) (lenth e)
          (actions e) (gt_actions e) (gt_progress e) (progress e) (path_corners e))
  else
    new <- advance t (index r) (current_view_corners e) (current_direction e) (fst a) ;;
    let '(new_current_view_corners, new_direction) := new in
    Ok (Episode (ended e) new_current_view_corners new_direction (lenth e)
          (actions e) (gt_actions e) (gt_progress e) (progress e) (path_corners e)).

(** Lines 735-737. *)
Definition save_step (e : episode) : episode :=
  if ended e then e
  else Episode (ended e) (current_view_corners e) (current_direction e) (lenth e)
         (actions e) (gt_actions e) (gt_progress e) (progress e)
         (path_corners e ++ [(current_view_corners e, current_direction e)]).

Fixpoint map2 {A B C : Type} (f : A -> B -> C) (la : list A) (lb : list B) : list C :=
  match la, lb with
  | a :: la', b :: lb' => f a b :: map2 f la' lb'
  | _, _ => []
  end.

Fixpoint mapM {A B : Type} (f : A -> result B) (l : list A) : result (list B) :=
  match l with
  | [] => Ok []
  | a :: rest =>
      b <- f a ;;
      bs <- mapM f rest ;;
      Ok (b :: bs)
  end.

(** One pass of the loop of line 534, up to the test of line 746. *)
Definition step (t : nat) (st : state) : result state :=
  let n := List.length (batch st) in
  let counted := map count_step (batch st) in
  targets <-
    (if is_test then Ok None
     else
       outs <- oracle t (map ended counted) (map current_view_corners counted) ;;
       aligned <- align outs n ;;
       Ok (Some aligned)) ;;
  let rows := rows_of t n targets in
  let acc :=
    if is_test then (ml_loss st, printed st)
    else loss_step t rows (ml_loss st, printed st) in
  let logged := map2 log_step counted rows in
  effs <-
    (match fb, targets with
     | Oracle.teacher, None => Raise UnboundLocalError   (* line 697: no [target] *)
     | _, _ => mapM effective rows
     end) ;;
  moved <-
    mapM (fun x => interact_step t (fst (fst x)) (snd (fst x)) (snd x))
      (combine (combine logged rows) effs) ;;
  Ok (State (map save_step moved) (fst acc) (snd acc)).

(** Line 746: [ended.all()]. *)
Definition all_ended (st : state) : bool := forallb ended (batch st).

(** The loop of line 534 from step [t] with [remaining] steps to go: the
    states after each pass that was made, and the exception that stopped
    the loop, if any. *)
Fixpoint loop (remaining t : nat) (st : state) : list state * option exn :=
  match remaining with
  | O => ([], None)
  | S k =>
      match step t st with
      | Raise e => ([], Some e)
      | Ok st' =>
          if all_ended st' then ([st'], None)
          else let '(trace, e) := loop k (S t) st' in (st' :: trace, e)
      end
  end.

(** Lines 501-520: the state at the start. *)
Definition start (first_window : Window) (starting_angle : R) : episode :=
  Episode false first_window starting_angle 0 [] [] [] []
    [(first_window, starting_angle)].

Definition start_state (obs : list (Window * R)) : state :=
  State (map (fun o => start (fst o) (snd o)) obs) (Fin 0) [].

Definition rollout_loop (obs : list (Window * R)) : list state * option exn :=
  loop max_action_len 0 (start_state obs).

(** *** What a pass keeps *)

(** The flag of an ended sample stays set and nothing is appended to its
    record. *)
Definition keeps (e e' : episode) : Prop :=
  ended e = true ->
  ended e' = true
  /\ actions e' = actions e
  /\ gt_actions e' = gt_actions e
  /\ gt_progress e' = gt_progress e
  /\ progress e' = progress e
  /\ path_corners e' = path_corners e.

(** [P] holds between each state and the next one. *)
Fixpoint chain {A : Type} (P : A -> A -> Prop) (a : A) (l : list A) : Prop :=
  match l with
  | [] => True
  | b :: rest => P a b /\ chain P b rest
  end.

End Loop.

(** One sample, a budget of three steps, student feedback on a test split:
    the model reports progress 0 at the first step and 0.9 at the second.
    The loop makes two passes and the flag is set by the second. *)
Definition model_run (t i : nat) : prediction :=
  Prediction (Fin 0, Fin 0) (Fin 0) (if (t =? 1)%nat then Fin 0.9 else Fin 0).

End Rollout.

(** ** The call of teacher_action in rollout *)

Module Supervision.
Import Geometry.

(** Line 605: what [teacher_action] reads for the samples of the batch.
    [gts] holds [ob['gt_path_corners']] of every observation, [ended] the
    flags and [corners] the current windows; the three lists have the length
    of the batch (lines 472 and 501-517). *)
Definition samples (gts : list (list (quad rpt))) (ended : list bool)
  (corners : list (quad rpt)) : list Oracle.sample :=
  Rollout.map2 (fun gt ec => Oracle.Sample gt (fst ec) (snd ec)) gts (combine ended corners).

(** The oracle of [rollout]: [self.teacher_action] on the observations, with
    the feedback of the agent. *)
Definition teacher_oracle (S : Oracle.Shapely) (fb : Oracle.feedback)
  (gts : list (list (quad rpt)))
  : nat -> list bool -> list (quad rpt) -> result (list Oracle.teacher_out) :=
  fun _ ended corners => Oracle.teacher_action S fb (samples gts ended corners).

End Supervision.

(** ** The stages of move_view_corners on binary64 numbers

    The arithmetic of a float64 array is that of IEEE 754 binary64 with
    rounding to nearest, ties to even, which is the arithmetic of the
    primitive floats. *)

Module Binary64.
Import PrimFloat.
#[local] Set Warnings "-inexact-float".
Local Open Scope float_scope.

(** A row of a float64 array. *)
Definition pt : Type := (float * float)%type.

Local Abbreviation quad := (Geometry.quad pt).
Local Abbreviation c0 := (@Geometry.c0 pt).
Local Abbreviation c1 := (@Geometry.c1 pt).
Local Abbreviation c2 := (@Geometry.c2 pt).
Local Abbreviation c3 := (@Geometry.c3 pt).
Local Abbreviation Quad := (@Geometry.Quad pt).
Local Abbreviation rows := (@Geometry.rows pt).

(** [np.cos] and [np.sin] come from the C library: they are parameters. *)
Record Libm : Type := {
  cos : float -> float;
  sin : float -> float
}.

Definition padd (p q : pt) : pt := (fst p + fst q, snd p + snd q).
Definition psub (p q : pt) : pt := (fst p - fst q, snd p - snd q).
Definition pscale (p : pt) (k : float) : pt := (fst p * k, snd p * k).
Definition pdiv (p : pt) (k : float) : pt := (fst p / k, snd p / k).

(** [np.linalg.norm] of a 2-vector. *)
Definition norm (p : pt) : float := sqrt (fst p * fst p + snd p * snd p).

(** [(a - b) / np.linalg.norm(c - d) * change] *)
Definition along (a b c d : pt) (change : float) : pt :=
  pscale (pdiv (psub a b) (norm (psub c d))) change.

Definition move_view_corner_forward (cs : quad) (change : float) : quad :=
  Quad (padd (c0 cs) (along (c0 cs) (c3 cs) (c3 cs) (c0 cs) change))
       (padd (c1 cs) (along (c1 cs) (c2 cs) (c2 cs) (c1 cs) change))
       (padd (c2 cs) (along (c1 cs) (c2 cs) (c2 cs) (c1 cs) change))
       (padd (c3 cs) (along (c0 cs) (c3 cs) (c3 cs) (c0 cs) change)).

Definition rotation_anticlock (L : Libm) (theta : float) (p : pt) : pt :=
  let c := cos L (theta / 180 * 3.14159) in
  let s := sin L (theta / 180 * 3.14159) in
  (c * fst p + s * snd p, (- s) * fst p + c * snd p).

Definition change_corner (cs : quad) (change : float) : quad :=
  Quad (padd (padd (c0 cs) (along (c0 cs) (c1 cs) (c1 cs) (c0 cs) change))
             (along (c0 cs) (c3 cs) (c3 cs) (c0 cs) change))
       (padd (padd (c1 cs) (along (c1 cs) (c0 cs) (c1 cs) (c0 cs) change))
             (along (c1 cs) (c2 cs) (c2 cs) (c1 cs) change))
       (padd (padd (c2 cs) (along (c2 cs) (c3 cs) (c2 cs) (c3 cs) change))
             (along (c2 cs) (c1 cs) (c2 cs) (c1 cs) change))
       (padd (padd (c3 cs) (along (c3 cs) (c2 cs) (c2 cs) (c3 cs) change))
             (along (c3 cs) (c0 cs) (c3 cs) (c0 cs) change)).

(** [np.mean(corners, axis=0)]: the rows are added one after the other. *)
Definition pmean (q : quad) : pt :=
  pdiv (padd (padd (padd (c0 q) (c1 q)) (c2 q)) (c3 q)) 4.

(** The test of lines 316, 337 and 350. *)
Definition in_bounds (gps_botm_left gps_top_right i : pt) : bool :=
  (fst gps_botm_left <? fst i) && (fst i <? fst gps_top_right)
  && (snd gps_botm_left <? snd i) && (snd i <? snd gps_top_right).

(** The three loops [for i in ...: if <in bounds>: append(i) else: break]. *)
Fixpoint collect (gps_botm_left gps_top_right : pt) (l : list pt) : list pt :=
  match l with
  | [] => []
  | i :: rest =>
      if in_bounds gps_botm_left gps_top_right i
      then i :: collect gps_botm_left gps_top_right rest
      else []
  end.

(** Line 307. *)
Definition current_view_area_edge_length (corners : quad) : float :=
  norm (psub (c1 corners) (c0 corners)) * 11.13 * 1e4.

(** Line 310. *)
Definition step_change_of_view_zoom (corners : quad) (altitude : float) : float :=
  0.5 * (altitude - current_view_area_edge_length corners) / 11.13 / 1e4.

(** Line 311. *)
Definition zoom_stage (corners : quad) (altitude : float) : quad :=
  change_corner corners (step_change_of_view_zoom corners altitude).

(** Lines 326-336. *)
Definition rotate_stage (L : Libm) (corners : quad) (angle : float) : quad :=
  let mean_im_coords := pmean corners in
  let rot (c : pt) :=
    padd mean_im_coords (rotation_anticlock L (- angle) (psub c mean_im_coords)) in
  Quad (rot (c0 corners)) (rot (c1 corners)) (rot (c2 corners)) (rot (c3 corners)).

(** Line 346. *)
Definition move_stage (rotated_corners : quad) (distance : float) : quad :=
  move_view_corner_forward rotated_corners distance.

(** Lines 306-357: the window that [move_view_corners] returns, where
    [angle] is the value that line 304 leaves. *)
Definition returned_window (L : Libm) (corners : quad) (angle distance altitude : float)
  (gps_botm_left gps_top_right : pt) : quad :=
  match collect gps_botm_left gps_top_right (rows (zoom_stage corners altitude)) with
  | [z0; z1; z2; z3] =>
      let corners := Quad z0 z1 z2 z3 in
      match collect gps_botm_left gps_top_right (rows (rotate_stage L corners angle)) with
      | [r0; r1; r2; r3] =>
          let rotated_corners := Quad r0 r1 r2 r3 in
          match collect gps_botm_left gps_top_right
                  (rows (move_stage rotated_corners distance)) with
          | [m0; m1; m2; m3] => Quad m0 m1 m2 m3
          | _ => rotated_corners
          end
      | _ => corners
      end
  | _ => corners
  end.

(** The cosine and the sine at zero, where the C library is exact. *)
Definition libm_at_zero : Libm :=
  {| cos := fun x => if x =? 0 then 1 else nan;
     sin := fun x => if x =? 0 then x else nan |}.

(** A square of side 1 whose first edge is its north edge, inside the map
    from (-10, -10) to (10, 10). *)
Definition unit_window : quad := Quad (1.1, 0.1) (1.1, 1.1) (0.1, 1.1) (0.1, 0.1).

Definition map_botm_left : pt := (-10, -10).
Definition map_top_right : pt := (10, 10).

End Binary64.

(** ** Further exceptions *)

(** The exceptions that the code below can raise besides those of [exn]. *)
Inductive error : Type :=
| Builtin (e : exn)
| OverflowError
| AttributeError
| AssertionError
| RuntimeError
| FileNotFoundError
| KeyError (key : String.string).

Inductive outcome (A : Type) : Type :=
| Returns (a : A)
| Raises (e : error).

Arguments Returns {A} a.
Arguments Raises {A} e.

Definition and_then {A B : Type} (m : outcome A) (k : A -> outcome B) : outcome B :=
  match m with
  | Returns a => k a
  | Raises e => Raises e
  end.

Notation "x <~ m ;; k" := (and_then m (fun x => k))
  (at level 61, m at next level, right associativity).

Definition lift {A : Type} (m : result A) : outcome A :=
  match m with
  | Ok a => Returns a
  | Raise e => Raises (Builtin e)
  end.

(** [round(x)] on a float: Python cannot convert NaN or an infinity to an
    integer. *)
Definition round_float (x : Float.fl) : outcome Z :=
  match x with
  | Float.Fin r => Returns (pyround r)
  | Float.NaN => Raises (Builtin ValueError)
  | Float.PInf | Float.NInf => Raises OverflowError
  end.

(** ** The action that moves the window *)

Module Action.
Import Float.
Import Geometry.

(** Opposite edges of the window are equal as vectors: the corners 0, 1, 2, 3
    go round a parallelogram.  The windows of the data set are squares. *)
Definition parallelogram (w : quad rpt) : Prop :=
  rsub (c1 w) (c2 w) = rsub (c0 w) (c3 w).

(** Neither NaN nor an infinity. *)
Definition finite (a : fl) : bool :=
  match a with
  | Fin _ => true
  | _ => false
  end.

(** [math.atan2(y, x)] on finite numbers (the sign of a zero is left out). *)
Definition atan2 (y x : R) : R :=
  if Rltb 0 x then atan (y / x)
  else if Rltb x 0 then (if Rltb y 0 then atan (y / x) - PI else atan (y / x) + PI)
  else if Rltb 0 y then PI / 2
  else if Rltb y 0 then - PI / 2
  else 0.

(** [math.atan2] on floats: NaN for a NaN argument, the limits for an
    infinite one. *)
Definition fatan2 (y x : fl) : fl :=
  match y, x with
  | NaN, _ | _, NaN => NaN
  | Fin y, Fin x => Fin (atan2 y x)
  | Fin y, PInf => Fin 0
  | Fin y, NInf => Fin (if Rltb y 0 then - PI else PI)
  | PInf, Fin _ => Fin (PI / 2)
  | NInf, Fin _ => Fin (- PI / 2)
  | PInf, PInf => Fin (PI / 4)
  | PInf, NInf => Fin (3 * PI / 4)
  | NInf, PInf => Fin (- PI / 4)
  | NInf, NInf => Fin (- 3 * PI / 4)
  end.

(** Line 719. *)
Definition a_direction (a : pt) : fl :=
  match fatan2 (fst a) (snd a) with
  | Fin t => Fin (pymod ((t / 3.14159 + 2) / 2) 1)
  | _ => NaN
  end.

(** Line 720. *)
Definition a_distance (a : pt) (current_view_corners : quad rpt) : fl :=
  fmul (norm a)
       (Fin (Oracle.rnorm (rsub (c0 current_view_corners) (c1 current_view_corners)) / 2)).

(** [a_t[i][0]] as an array of two floats and [a_t[i][1]] as a float. *)
Definition action_parts (a_t : Rollout.effective_action) : result (pt * fl) :=
  match a_t with
  | Rollout.ModelAction a alt => Ok (a, alt)
  | Rollout.OracleAction (Oracle.PyNdarray v) (Oracle.PyFloat alt) => Ok (inj_pt v, Fin alt)
  | Rollout.OracleAction _ _ => Raise TypeError
  end.

(** Lines 719-727: the angle, the distance and the altitude that are handed
    to [move_view_corners]. *)
Definition decode (a_t : Rollout.effective_action) (current_view_corners : quad rpt)
  : outcome (Z * fl * Z) :=
  parts <~ lift (action_parts a_t) ;;
  let a := fst parts in
  let a_altitude := snd parts in
  angle <~ round_float (fmul (a_direction a) (Fin 360)) ;;
  altitude <~ round_float (fmul a_altitude (Fin 360)) ;;
  Returns (angle, a_distance a current_view_corners, (altitude + 40)%Z).

(** Lines 719-732 for one sample: the new window and the new direction. *)
Definition advance (current_view_corners : quad rpt) (current_direction : R)
  (a_t : Rollout.effective_action) (gps_botm_left gps_top_right : rpt)
  : outcome (quad pt * R) :=
  args <~ decode a_t current_view_corners ;;
  Returns (move_view_corners current_view_corners (IZR (fst (fst args))) (snd (fst args))
             (IZR (snd args)) gps_botm_left gps_top_right (Some current_direction)).

End Action.

(** ** gps_to_img_coords *)

Module Pixels.
Import Float.
Import Geometry.

(** Line 469.  The coordinates are numpy floats, so a zero [lat_ratio] gives
    an infinity or NaN, which [round] refuses. *)
Definition gps_to_img_coords (gps gps_botm_left gps_top_right : rpt) (lat_ratio : R)
  : outcome (Z * Z) :=
  x <~ round_float (fdiv (Fin (snd gps - snd gps_botm_left)) (Fin lat_ratio)) ;;
  y <~ round_float (fdiv (Fin (fst gps_top_right - fst gps)) (Fin lat_ratio)) ;;
  Returns (x, y).

End Pixels.

(** ** The bbox utilities *)

Module Boxes.

(** A row of a tensor whose last dimension is 4; the tensor of shape (n, 4)
    is the list of its rows.  A float32 is read as the real number it
    denotes. *)
Definition box : Type := (R * R * R * R)%type.

Definition bbox_xyxy_to_cxcywh (bbox : list box) : list box :=
  map (fun b : box =>
         let '(x1, y1, x2, y2) := b in
         ((x1 + x2) / 2, (y1 + y2) / 2, x2 - x1, y2 - y1))
      bbox.

Definition bbox_cxcywh_to_xyxy (bbox : list box) : list box :=
  map (fun b : box =>
         let '(cx, cy, w, h) := b in
         (cx - 0.5 * w, cy - 0.5 * h, cx + 0.5 * w, cy + 0.5 * h))
      bbox.


Definition times (k : R) (bbox : list box) : list box :=
  map (fun b : box => let '(a, b, c, d) := b in (a * k, b * k, c * k, d * k)) bbox.

Definition sigmoid (x : R) : R := 1 / (1 + exp (- x)).

(** Line 622: [bbox_logits[:, :4].sigmoid()]. *)
Definition bbox_pre (bbox_logits : list box) : list box :=
  map (fun b : box =>
         let '(a, b, c, d) := b in (sigmoid a, sigmoid b, sigmoid c, sigmoid d))
      bbox_logits.


(** Line 644: the prediction that the IoU loss compares with the target. *)
Definition bbox_pre_xyxy (bbox_pre : list box) : list box :=
  times 224 (bbox_cxcywh_to_xyxy bbox_pre).

End Boxes.

(** ** NSS *)

Module Saliency.
Import Float.

(** The number of entries of a row of [t.view(-1, 224 * 224)]. *)
Definition pixels : nat := 224 * 224.

(** The rows of [t.view(-1, 224 * 224)] for a tensor [t] of shape
    (k, 224, 224): there is at least one row and every row has [pixels]
    entries. *)
Definition viewed (t : list (list R)) : Prop :=
  t <> [] /\ Forall (fun row => List.length row = pixels) t.

(** [torch.sum], [torch.mean] and [torch.std] along a row; [torch.std]
    divides by the number of entries less one. *)
Definition total (row : list R) : R := fold_right Rplus 0 row.

Definition mean (row : list R) : R := total row / INR (List.length row).

Definition std (row : list R) : R :=
  sqrt (total (map (fun x => (x - mean row) * (x - mean row)) row)
        / (INR (List.length row) - 1)).

(** Lines 258-263: what is done with [(sal - m) / std]; for another
    [nss_r], [n_sal] is not bound when line 266 reads it. *)
Definition rescaled (nss_r : Z) : result (R -> R) :=
  if (nss_r =? 0)%Z then Ok (fun z => z)
  else if (nss_r =? 1)%Z then Ok (fun z => z / 2 + 1)
  else if (nss_r =? -1)%Z then Ok (fun z => z / 2 - 1)
  else Raise UnboundLocalError.

(** Lines 256-263 for one row. *)
Definition n_sal (f : R -> R) (row : list R) : list R :=
  let m := mean row in
  let std := std row + 0.0000001 in
  map (fun x => f ((x - m) / std)) row.

(** Lines 265-267 for one row, and the quotient of line 268. *)
Definition row_score (n_sal fix_ : list R) : fl :=
  let s_fix := total fix_ + 0.0000001 in
  let s_ns := total (Rollout.map2 Rmult n_sal fix_) in
  fdiv (Fin s_ns) (Fin s_fix).

(** [torch.mean] of a vector of floats. *)
Definition fmean (l : list fl) : fl :=
  fdiv (fold_left fadd l (Fin 0)) (Fin (INR (List.length l))).

(** [sal] and [fix_] are the rows of the tensors [sal] and [fix], which have
    the same shape. *)
Definition NSS (nss_r : Z) (sal fix_ : list (list R)) : result fl :=
  f <- rescaled nss_r ;;
  Ok (fneg (fmean (Rollout.map2 row_score (map (n_sal f) sal) fix_))).

(** The row of a map with one bright pixel, which is also the row of the
    fixation map with one fixation, on that pixel. *)
Definition peak (x : R) : list R := x :: repeat 0 (pixels - 1).

End Saliency.

(** ** The records of a trajectory *)

Module Trajectory.
Import Rollout.

(** The lists of the record of one sample go together: one action and one
    predicted progress for each pass that counted, the ground truth beside
    them unless the split is a test split, and one window for the start and
    for each pass after which the sample had not ended. *)
Definition consistent {Window : Type} (is_test : bool) (e : episode Window) : Prop :=
  lenth e = List.length (actions e)
  /\ List.length (progress e) = List.length (actions e)
  /\ List.length (gt_actions e) = (if is_test then O else List.length (actions e))
  /\ List.length (gt_progress e) = List.length (gt_actions e)
  /\ List.length (path_corners e)
     = (if ended e then List.length (actions e) else S (List.length (actions e))).

(** The row of a pass carries a target exactly when the split is not a test
    split. *)
Definition row_fits (is_test : bool) (r : row) : Prop :=
  (is_test = true -> target r = None)
  /\ (is_test = false -> exists o, target r = Some o).

(** Every window that the sample holds or has recorded satisfies [P]. *)
Definition windows_satisfy {Window : Type} (P : Window -> Prop) (e : episode Window) : Prop :=
  P (current_view_corners e) /\ Forall (fun wd => P (fst wd)) (path_corners e).

End Trajectory.

(** ** save and load *)

Module Checkpoint.
Import Stdlib.Strings.String.
Import Stdlib.Strings.Ascii.

(** *** Python dicts with string keys *)

(** The items of the dict in the order of insertion; a key occurs once. *)
Definition dict (V : Type) : Type := list (string * V).

Definition keys {V : Type} (d : dict V) : list string := map fst d.

(** [d.get(k)] *)
Fixpoint get {V : Type} (d : dict V) (k : string) : option V :=
  match d with
  | [] => None
  | (k', v) :: rest => if String.eqb k' k then Some v else get rest k
  end.

(** [k in d] *)
Definition has_key {V : Type} (d : dict V) (k : string) : bool :=
  existsb (String.eqb k) (keys d).

(** [d[k] = v]: the value of a key that is there is replaced where it is, a
    new key goes to the end. *)
Fixpoint set_item {V : Type} (d : dict V) (k : string) (v : V) : dict V :=
  match d with
  | [] => [(k, v)]
  | (k', v') :: rest =>
      if String.eqb k' k then (k', v) :: rest else (k', v') :: set_item rest k v
  end.

(** [d.update(other)] *)
Definition update {V : Type} (d other : dict V) : dict V :=
  fold_left (fun acc kv => set_item acc (fst kv) (snd kv)) other d.

(** [set(a.keys()) == set(b.keys())] *)
Definition same_keys {V W : Type} (a : dict V) (b : dict W) : bool :=
  forallb (has_key b) (keys a) && forallb (has_key a) (keys b).

(** [d[k]] *)
Definition getitem {V : Type} (d : dict V) (k : string) : outcome V :=
  match get d k with
  | Some v => Returns v
  | None => Raises (KeyError k)
  end.

(** *** os.path.split *)

Definition is_slash (c : ascii) : bool := Ascii.eqb c "/"%char.

Fixpoint drop_while {A : Type} (p : A -> bool) (l : list A) : list A :=
  match l with
  | [] => []
  | x :: rest => if p x then drop_while p rest else l
  end.

(** [os.path.split(p)[0]] on a POSIX system: what precedes the last slash,
    without its trailing slashes unless it consists of slashes only. *)
Definition os_path_split_head (p : string) : string :=
  let head := drop_while (fun c => negb (is_slash c)) (rev (list_ascii_of_string p)) in
  match drop_while is_slash head with
  | [] => string_of_list_ascii (rev head)
  | stripped => string_of_list_ascii (rev stripped)
  end.

Section WithTorch.

(** The tensors of a state dict and the state of an optimizer. *)
Variable tensor : Type.
Variable optim : Type.

(** Whether a parameter of the model takes the tensor loaded for it: the
    shapes are the same. *)
Variable fits : tensor -> tensor -> bool.

(** [optimizer.load_state_dict], on the state of the optimizer and the state
    loaded. *)
Variable load_optimizer : optim -> optim -> outcome optim.

(** What [save] stores under one name. *)
Record entry : Type := Entry {
  epoch : Z;
  state_dict : dict tensor;
  optimizer : optim
}.

(** The file system: [os.makedirs(d, exist_ok=True)], [torch.save] and
    [torch.load]. *)
Variable files : Type.
Variable makedirs : files -> string -> outcome files.
Variable torch_save : files -> string -> dict entry -> outcome files.
Variable torch_load : files -> string -> outcome (dict entry).

(** A model with its optimizer. *)
Record part : Type := Part {
  weights : dict tensor;
  optimizer_state : optim
}.

Record agent : Type := Agent {
  lang_model : part;
  vision_model : part;
  vln_model : part
}.

(** Lines 874-879. *)
Definition create_state (epoch : Z) (states : dict entry) (name : string) (p : part)
  : dict entry :=
  set_item states name (Entry (epoch + 1) (weights p) (optimizer_state p)).

(** Lines 872-886: the dict that [save] writes. *)
Definition saved_states (a : agent) (epoch : Z) : dict entry :=
  let states := [] in
  let states := create_state epoch states "lang_model" (lang_model a) in
  let states := create_state epoch states "vision_model" (vision_model a) in
  create_state epoch states "vln_model" (vln_model a).

(** Lines 868-887. *)
Definition save (a : agent) (epoch : Z) (path : string) (f : files) : outcome files :=
  let the_dir := os_path_split_head path in
  f <~ makedirs f the_dir ;;
  torch_save f path (saved_states a epoch).

(** [model.load_state_dict(state)]: the keys have to be those of the model
    and every tensor has to fit; the parameters take the tensors of
    [state]. *)
Definition load_state_dict (model state : dict tensor) : outcome (dict tensor) :=
  if same_keys model state
     && forallb (fun kv : string * tensor =>
                   match get state (fst kv) with
                   | Some v => fits (snd kv) v
                   | None => true
                   end)
                model
  then Returns (map (fun kv : string * tensor =>
                       (fst kv, match get state (fst kv) with
                                | Some v => v
                                | None => snd kv
                                end))
                    model)
  else Raises RuntimeError.

(** Lines 893-908. *)
Definition recover_state (resume_optimizer : bool) (states : dict entry)
  (name : string) (p : part) : outcome part :=
  let state := weights p in
  e <~ getitem states name ;;
  let state_dict :=
    if same_keys state (state_dict e) then state_dict e
    else filter (fun kv : string * tensor => has_key state (fst kv)) (state_dict e) in
  let state := update state state_dict in
  w <~ load_state_dict (weights p) state ;;
  o <~ (if resume_optimizer then load_optimizer (optimizer_state p) (optimizer e)
        else Returns (optimizer_state p)) ;;
  Returns (Part w o).

(** Lines 889-920. *)
Definition load (resume_optimizer : bool) (a : agent) (path : string) (f : files)
  : outcome (agent * Z) :=
  states <~ torch_load f path ;;
  lang <~ recover_state resume_optimizer states "lang_model" (lang_model a) ;;
  vision <~ recover_state resume_optimizer states "vision_model" (vision_model a) ;;
  vln <~ recover_state resume_optimizer states "vln_model" (vln_model a) ;;
  e <~ getitem states "vln_model" ;;
  Returns (Agent lang vision vln, (epoch e - 1)%Z).

(** The model [b] has the parameters of the model [a], by name and in the
    same order, and each of them takes the tensor that [a] has for it. *)
Definition same_architecture (b a : part) : Prop :=
  NoDup (keys (weights a))
  /\ Forall2 (fun kb ka => fst kb = fst ka /\ fits (snd kb) (snd ka) = true)
       (weights b) (weights a).

End WithTorch.

(** The path has no directory part. *)
Definition no_slash (path : string) : bool :=
  forallb (fun c => negb (is_slash c)) (list_ascii_of_string path).

(** *** A file system in memory

    For the concrete runs below: the files are a dict from paths to what was
    saved, every directory can be made except the one with the empty name,
    tensors and optimizer states are numbers, every tensor fits and an
    optimizer takes any state. *)

Local Open Scope string_scope.

Definition disk : Type := dict (dict (entry nat nat)).

Definition disk_makedirs (f : disk) (d : string) : outcome disk :=
  if String.eqb d String.EmptyString then Raises FileNotFoundError else Returns f.

Definition disk_save (f : disk) (path : string) (states : dict (entry nat nat))
  : outcome disk :=
  Returns (set_item f path states).

Definition disk_load (f : disk) (path : string) : outcome (dict (entry nat nat)) :=
  match get f path with
  | Some states => Returns states
  | None => Raises FileNotFoundError
  end.

Definition any_fits (old new : nat) : bool := true.

Definition takes_any (old new : nat) : outcome nat := Returns new.

(** An agent whose three models have one or two parameters each. *)
Definition trained : agent nat nat :=
  Agent (Part [("embed.weight", 11%nat)] 1%nat)
        (Part [("0.conv.weight", 21%nat); ("0.conv.bias", 22%nat)] 2%nat)
        (Part [("fc.weight", 31%nat)] 3%nat).

(** The same models before training. *)
Definition fresh : agent nat nat :=
  Agent (Part [("embed.weight", 0%nat)] 0%nat)
        (Part [("0.conv.weight", 0%nat); ("0.conv.bias", 0%nat)] 0%nat)
        (Part [("fc.weight", 0%nat)] 0%nat).

(** A model with a parameter that the checkpoint lacks, and a checkpoint
    with a parameter that the model lacks. *)
Definition wider : part nat nat :=
  Part [("fc.weight", 0%nat); ("head.weight", 5%nat)] 0%nat.

Definition other_states : dict (entry nat nat) :=
  [("vln_model", Entry 7 [("fc.weight", 31%nat); ("old.weight", 32%nat)] 3%nat)].

End Checkpoint.

(** * Properties *)

Lemma Rltb_true (x y : R) : x < y -> Rltb x y = true.
Proof. intros H; unfold Rltb; destruct (Rlt_dec x y); [reflexivity | contradiction]. Qed.

Lemma Rltb_false (x y : R) : ~ x < y -> Rltb x y = false.
Proof. intros H; unfold Rltb; destruct (Rlt_dec x y); [contradiction | reflexivity]. Qed.

Lemma Rltb_spec (x y : R) : Rltb x y = true <-> x < y.
Proof.
  unfold Rltb; destruct (Rlt_dec x y); split; intros H; try assumption;
    try reflexivity; try discriminate; contradiction.
Qed.

Lemma Reqb_true (x y : R) : x = y -> Reqb x y = true.
Proof. intros H; unfold Reqb; destruct (Req_dec_T x y); [reflexivity | contradiction]. Qed.

Lemma Reqb_false (x y : R) : x <> y -> Reqb x y = false.
Proof. intros H; unfold Reqb; destruct (Req_dec_T x y); [contradiction | reflexivity]. Qed.

Lemma Int_part_IZR (z : Z) : Int_part (IZR z) = z.
Proof. symmetry; apply Int_part_spec; lra. Qed.

Lemma pyround_IZR (z : Z) : pyround (IZR z) = z.
Proof.
  unfold pyround; rewrite Int_part_IZR.
  rewrite Rltb_true by lra; reflexivity.
Qed.

Lemma pymod_small (x m : R) : 0 <= x < m -> pymod x m = x.
Proof.
  intros [H0 H1]; unfold pymod.
  replace (Int_part (x / m)) with 0%Z; [lra |].
  apply Int_part_spec; simpl.
  assert (Hm : 0 < m) by lra.
  assert (Hq : 0 <= x / m < 1).
  { split.
    - apply Rmult_le_pos; [assumption | left; apply Rinv_0_lt_compat; assumption].
    - apply Rmult_lt_reg_r with m; [assumption |].
      unfold Rdiv; rewrite Rmult_assoc, Rinv_l by lra; lra. }
  lra.
Qed.

Module FloatFacts.
Import Float.

Lemma fdiv_fin (x y : R) : y <> 0 -> fdiv (Fin x) (Fin y) = Fin (x / y).
Proof. intros H; simpl; rewrite Reqb_false by assumption; reflexivity. Qed.

Lemma fdiv_zero_zero : fdiv (Fin 0) (Fin 0) = NaN.
Proof.
  simpl; rewrite Reqb_true by reflexivity.
  unfold inf_of_sign; rewrite !Rltb_false by lra; reflexivity.
Qed.

Lemma fsqrt_fin (x : R) : 0 <= x -> fsqrt (Fin x) = Fin (sqrt x).
Proof. intros H; simpl; rewrite Rltb_false by lra; reflexivity. Qed.

Lemma fmul_NaN_l (a : fl) : fmul NaN a = NaN.
Proof. destruct a; reflexivity. Qed.

Lemma fadd_NaN_r (a : fl) : fadd a NaN = NaN.
Proof. destruct a; reflexivity. Qed.

Lemma fadd_NaN_l (a : fl) : fadd NaN a = NaN.
Proof. destruct a; reflexivity. Qed.

(** A value strictly between two finite numbers is finite. *)
Lemma between_is_fin (a : fl) (lo hi : R) :
  fgt a (Fin lo) = true -> flt a (Fin hi) = true ->
  exists x, a = Fin x /\ lo < x < hi.
Proof.
  destruct a as [x | | |]; simpl; intros H1 H2; try discriminate.
  exists x; split; [reflexivity |].
  apply Rltb_spec in H1; apply Rltb_spec in H2; lra.
Qed.

End FloatFacts.

Module GeometryFacts.
Import Float.
Import FloatFacts.
Import Geometry.

(** *** The loop with [break] *)

Lemma collect_all (bl tr : rpt) (l : list pt) :
  forallb (in_bounds bl tr) l = true -> collect bl tr l = l.
Proof.
  induction l as [| i rest IH]; simpl; [reflexivity |].
  intros H; apply andb_prop in H; destruct H as [Hi Hrest].
  rewrite Hi, IH by assumption; reflexivity.
Qed.

Lemma collect_short (bl tr : rpt) (l : list pt) :
  forallb (in_bounds bl tr) l = false -> (length (collect bl tr l) < length l)%nat.
Proof.
  induction l as [| i rest IH]; simpl; [discriminate |].
  destruct (in_bounds bl tr i); simpl; intros H; [| lia].
  specialize (IH H); lia.
Qed.

Lemma quad_eta {P : Type} (q : quad P) : Quad (c0 q) (c1 q) (c2 q) (c3 q) = q.
Proof. destruct q; reflexivity. Qed.

(** What a stage hands on: the whole array when every corner is in bounds,
    fewer than four rows otherwise. *)
Lemma collect_rows_inside (bl tr : rpt) (q : quad pt) :
  inside bl tr q = true -> collect bl tr (rows q) = [c0 q; c1 q; c2 q; c3 q].
Proof. intros H; apply (collect_all bl tr (rows q)); exact H. Qed.

Lemma collect_rows_outside (bl tr : rpt) (q : quad pt) :
  inside bl tr q = false -> (length (collect bl tr (rows q)) < 4)%nat.
Proof. intros H; apply (collect_short bl tr (rows q)); exact H. Qed.

Lemma inside_false (bl tr : rpt) (q : quad pt) :
  inside bl tr q = false <-> some_corner_outside bl tr q.
Proof.
  unfold inside, some_corner_outside; split.
  - intros H; destruct (forallb (in_bounds bl tr) (rows q)) eqn:Hall; [discriminate |].
    clear H; induction (rows q) as [| i l IH]; [discriminate |].
    cbn [forallb] in Hall; destruct (in_bounds bl tr i) eqn:Hi.
    + destruct (IH Hall) as [j [Hj Hout]]; exists j; split; [right |]; assumption.
    + exists i; split; [left; reflexivity | assumption].
  - intros [i [Hin Hout]].
    destruct (forallb (in_bounds bl tr) (rows q)) eqn:Hall; [| reflexivity].
    rewrite forallb_forall in Hall; rewrite (Hall i Hin) in Hout; discriminate.
Qed.

(** A corner that passes the test is a finite point strictly inside the map. *)
Lemma in_bounds_finite (bl tr : rpt) (i : pt) :
  in_bounds bl tr i = true ->
  exists p : rpt, i = inj_pt p /\ fst bl < fst p < fst tr /\ snd bl < snd p < snd tr.
Proof.
  unfold in_bounds; intros H.
  apply andb_prop in H; destruct H as [H H4].
  apply andb_prop in H; destruct H as [H H3].
  apply andb_prop in H; destruct H as [H1 H2].
  destruct (between_is_fin _ _ _ H1 H2) as [x [Hx Hxb]].
  destruct (between_is_fin _ _ _ H3 H4) as [y [Hy Hyb]].
  exists (x, y); destruct i as [a b]; cbn [fst snd] in *; subst a b.
  repeat split; lra.
Qed.

(** An array whose corners all pass the test is an array of finite points. *)
Lemma inside_finite (bl tr : rpt) (q : quad pt) :
  inside bl tr q = true -> exists w : quad rpt, q = inj w.
Proof.
  unfold inside, rows; cbn [forallb]; intros H.
  apply andb_prop in H; destruct H as [H0 H].
  apply andb_prop in H; destruct H as [H1 H].
  apply andb_prop in H; destruct H as [H2 H].
  apply andb_prop in H; destruct H as [H3 _].
  destruct (in_bounds_finite _ _ _ H0) as [p0 [E0 _]].
  destruct (in_bounds_finite _ _ _ H1) as [p1 [E1 _]].
  destruct (in_bounds_finite _ _ _ H2) as [p2 [E2 _]].
  destruct (in_bounds_finite _ _ _ H3) as [p3 [E3 _]].
  exists (Quad p0 p1 p2 p3); destruct q as [q0 q1 q2 q3]; cbn [c0 c1 c2 c3] in *.
  subst; reflexivity.
Qed.

(** *** Arithmetic on finite rows *)

Lemma sum_sq_nonneg (x y : R) : 0 <= x * x + y * y.
Proof. nra. Qed.

Lemma sqrt_sum_sq_zero (x y : R) : sqrt (x * x + y * y) = 0 -> x = 0 /\ y = 0.
Proof.
  intros H; apply sqrt_eq_0 in H; [| apply sum_sq_nonneg].
  split; nra.
Qed.

Lemma norm_fin (x y : R) : norm (Fin x, Fin y) = Fin (sqrt (x * x + y * y)).
Proof.
  unfold norm; cbn [fst snd fmul fadd].
  apply fsqrt_fin, sum_sq_nonneg.
Qed.

Lemma psub_inj (a b : rpt) :
  psub (inj_pt a) (inj_pt b) = (Fin (fst a + - fst b), Fin (snd a + - snd b)).
Proof. reflexivity. Qed.

Lemma norm_sub_nonzero (c d : rpt) :
  c <> d ->
  sqrt ((fst c + - fst d) * (fst c + - fst d) + (snd c + - snd d) * (snd c + - snd d)) <> 0.
Proof.
  intros Hne H; apply sqrt_sum_sq_zero in H; destruct H as [Hx Hy].
  apply Hne; destruct c as [cx cy], d as [dx dy]; simpl in *.
  f_equal; lra.
Qed.

(** A displacement along a proper edge is finite. *)
Lemma along_fin (a b c d : rpt) (k : R) :
  c <> d ->
  exists ux uy : R,
    along (inj_pt a) (inj_pt b) (inj_pt c) (inj_pt d) (Fin k) = (Fin (ux * k), Fin (uy * k)).
Proof.
  intros Hne; unfold along; rewrite !psub_inj, norm_fin.
  unfold pdiv, pscale; cbn [fst snd].
  rewrite !fdiv_fin by (apply norm_sub_nonzero; assumption).
  eexists; eexists; reflexivity.
Qed.

(** With a change of zero, a corner with proper edges stays where it is. *)
Lemma shift_zero (p a b c d : rpt) :
  c <> d ->
  padd (inj_pt p) (along (inj_pt a) (inj_pt b) (inj_pt c) (inj_pt d) (Fin 0)) = inj_pt p.
Proof.
  intros Hne; destruct (along_fin a b 0 Hne) as [ux [uy ->]].
  unfold padd, inj_pt; cbn [fst snd fadd]; f_equal; f_equal; lra.
Qed.

(** Along an edge of length zero the displacement is NaN, whatever the change. *)
Lemma along_degenerate (a b c d : rpt) (s : fl) :
  a = b -> c = d ->
  along (inj_pt a) (inj_pt b) (inj_pt c) (inj_pt d) s = (NaN, NaN).
Proof.
  intros -> ->; unfold along; rewrite !psub_inj, norm_fin.
  replace (fst b + - fst b) with 0 by lra.
  replace (snd b + - snd b) with 0 by lra.
  replace (fst d + - fst d) with 0 by lra.
  replace (snd d + - snd d) with 0 by lra.
  replace (0 * 0 + 0 * 0) with 0 by lra.
  rewrite sqrt_0.
  unfold pdiv, pscale; cbn [fst snd].
  rewrite fdiv_zero_zero, fmul_NaN_l; reflexivity.
Qed.

Lemma padd_NaN_r (p : pt) : padd p (NaN, NaN) = (NaN, NaN).
Proof. unfold padd; cbn [fst snd]; rewrite !fadd_NaN_r; reflexivity. Qed.

Lemma padd_NaN_l (p : pt) : padd (NaN, NaN) p = (NaN, NaN).
Proof. unfold padd; cbn [fst snd]; rewrite !fadd_NaN_l; reflexivity. Qed.

Lemma in_bounds_NaN (bl tr : rpt) : in_bounds bl tr (NaN, NaN) = false.
Proof. reflexivity. Qed.

(** *** The stages of move_view_corners *)

(** The result of [move_view_corners] in terms of what each stage produces. *)
Lemma move_view_corners_cases (corners : quad rpt) (angle : R) (distance : fl)
  (altitude : R) (bl tr : rpt) (icd : option R) :
  let cur := current_direction corners in
  let a := corrected_angle corners angle icd in
  let z := zoom_stage corners altitude in
  let r := rotate_stage z a in
  let m := move_stage r distance in
  move_view_corners corners angle distance altitude bl tr icd =
  if negb (inside bl tr z) then (inj corners, cur)
  else if negb (inside bl tr r) then (z, cur)
  else if negb (inside bl tr m) then (r, pymod (cur + a) 360)
  else (m, pymod (cur + a) 360).
Proof.
  intros cur a z r m; unfold move_view_corners.
  fold cur; fold a; fold z.
  destruct (inside bl tr z) eqn:Hz; cbn [negb].
  - rewrite (collect_rows_inside bl tr z Hz), quad_eta.
    fold r.
    destruct (inside bl tr r) eqn:Hr; cbn [negb].
    + rewrite (collect_rows_inside bl tr r Hr), quad_eta.
      fold m.
      destruct (inside bl tr m) eqn:Hm; cbn [negb].
      * rewrite (collect_rows_inside bl tr m Hm), quad_eta; reflexivity.
      * pose proof (collect_rows_outside bl tr m Hm) as Hlen.
        destruct (collect bl tr (rows m)) as [| m0 [| m1 [| m2 [| m3 [| m4 l]]]]];
          try reflexivity; simpl in Hlen; lia.
    + pose proof (collect_rows_outside bl tr r Hr) as Hlen.
      destruct (collect bl tr (rows r)) as [| r0 [| r1 [| r2 [| r3 [| r4 l]]]]];
        try reflexivity; simpl in Hlen; lia.
  - pose proof (collect_rows_outside bl tr z Hz) as Hlen.
    destruct (collect bl tr (rows z)) as [| z0 [| z1 [| z2 [| z3 [| z4 l]]]]];
      try reflexivity; simpl in Hlen; lia.
Qed.

(** The window that comes back is made of finite points: it can be the
    input of the next call. *)
Lemma move_view_corners_finite (corners : quad rpt) (angle : R) (distance : fl)
  (altitude : R) (bl tr : rpt) (icd : option R) :
  exists w : quad rpt,
    fst (move_view_corners corners angle distance altitude bl tr icd) = inj w.
Proof.
  rewrite move_view_corners_cases; cbv zeta.
  destruct (inside bl tr (zoom_stage corners altitude)) eqn:Hz; cbn [negb];
    [| exists corners; reflexivity].
  destruct (inside bl tr (rotate_stage _ _)) eqn:Hr; cbn [negb];
    [| apply (inside_finite _ _ _ Hz)].
  destruct (inside bl tr (move_stage _ _)) eqn:Hm; cbn [negb fst];
    [apply (inside_finite _ _ _ Hm) | apply (inside_finite _ _ _ Hr)].
Qed.

Lemma corrected_angle_no_drift (corners : quad rpt) (angle : R) (icd : option R) :
  drifted corners icd = false -> corrected_angle corners angle icd = angle.
Proof.
  intros H; unfold corrected_angle; destruct icd as [d |]; [| reflexivity].
  rewrite H; reflexivity.
Qed.

Lemma corrected_angle_drift (corners : quad rpt) (angle d : R) :
  drifted corners (Some d) = true -> corrected_angle corners angle (Some d) = angle + d.
Proof. intros H; unfold corrected_angle; rewrite H; reflexivity. Qed.

(** The zoom stage with a change of zero. *)
Lemma change_corner_zero (corners : quad rpt) :
  ~ degenerate corners -> change_corner (inj corners) (Fin 0) = inj corners.
Proof.
  intros Hnd; unfold degenerate in Hnd.
  assert (H01 : c0 corners <> c1 corners) by tauto.
  assert (H12 : c1 corners <> c2 corners) by tauto.
  assert (H23 : c2 corners <> c3 corners) by tauto.
  assert (H30 : c3 corners <> c0 corners) by tauto.
  unfold change_corner, inj; cbn [c0 c1 c2 c3].
  rewrite !shift_zero by congruence.
  reflexivity.
Qed.

Lemma step_change_at_edge_length (corners : quad rpt) :
  step_change_of_view_zoom (inj corners) (edge_length corners) = Fin 0.
Proof.
  unfold step_change_of_view_zoom, inj; cbn [c0 c1].
  rewrite psub_inj, norm_fin; cbn [fmul fsub fadd fneg].
  rewrite !fdiv_fin by lra.
  unfold edge_length; f_equal.
  set (n := sqrt _); lra.
Qed.

Lemma zoom_stage_at_edge_length (corners : quad rpt) :
  ~ degenerate corners -> zoom_stage corners (edge_length corners) = inj corners.
Proof.
  intros Hnd; unfold zoom_stage.
  rewrite step_change_at_edge_length; apply change_corner_zero; assumption.
Qed.

(** The rotate stage with an angle of zero. *)
Lemma rotate_point_zero (m p : rpt) :
  padd (inj_pt m) (rotation_anticlock (- 0) (psub (inj_pt p) (inj_pt m))) = inj_pt p.
Proof.
  unfold rotation_anticlock.
  replace (- 0 / 180 * 3.14159) with 0 by lra.
  rewrite cos_0, sin_0, psub_inj.
  unfold padd, inj_pt; cbn [fst snd fadd fmul fneg].
  f_equal; f_equal; lra.
Qed.

Lemma pmean_inj (corners : quad rpt) : pmean (inj corners) = inj_pt (rmean corners).
Proof.
  unfold pmean, inj, padd, pdiv, rmean, inj_pt; cbn [c0 c1 c2 c3 fst snd fadd].
  rewrite !fdiv_fin by lra; reflexivity.
Qed.

Lemma rotate_stage_zero (corners : quad rpt) : rotate_stage (inj corners) 0 = inj corners.
Proof.
  unfold rotate_stage; rewrite pmean_inj.
  unfold inj; cbn [c0 c1 c2 c3].
  rewrite !rotate_point_zero; reflexivity.
Qed.

(** The move stage with a distance of zero. *)
Lemma move_stage_zero (corners : quad rpt) :
  ~ degenerate corners -> move_stage (inj corners) (Fin 0) = inj corners.
Proof.
  intros Hnd; unfold degenerate in Hnd.
  assert (H12 : c1 corners <> c2 corners) by tauto.
  assert (H30 : c3 corners <> c0 corners) by tauto.
  unfold move_stage, move_view_corner_forward, inj; cbn [c0 c1 c2 c3].
  rewrite !shift_zero by congruence.
  reflexivity.
Qed.

(** A degenerate window: the zoom stage produces a NaN corner. *)
Lemma zoom_stage_degenerate (corners : quad rpt) (altitude : R) (bl tr : rpt) :
  degenerate corners -> inside bl tr (zoom_stage corners altitude) = false.
Proof.
  intros Hd; unfold zoom_stage.
  generalize (step_change_of_view_zoom (inj corners) altitude); intros s.
  unfold inside, rows, change_corner, inj; cbn [c0 c1 c2 c3 forallb].
  destruct Hd as [H | [H | [H | H]]].
  - rewrite (along_degenerate s H (eq_sym H)), padd_NaN_r, padd_NaN_l; reflexivity.
  - rewrite (along_degenerate s H (eq_sym H)), !padd_NaN_r, in_bounds_NaN.
    apply andb_false_iff; right; reflexivity.
  - rewrite (along_degenerate s H H), padd_NaN_r, !padd_NaN_l, in_bounds_NaN.
    apply andb_false_iff; right; apply andb_false_iff; right; reflexivity.
  - rewrite (along_degenerate s (eq_sym H) H), !padd_NaN_r; reflexivity.
Qed.

(** *** The concrete windows *)

Ltac decide_tests :=
  repeat match goal with
  | |- context [Rltb ?a ?b] =>
      first [rewrite (@Rltb_true a b) by lra | rewrite (@Rltb_false a b) by lra]
  | |- context [Reqb ?a ?b] =>
      first [rewrite (@Reqb_true a b) by lra | rewrite (@Reqb_false a b) by lra]
  end.

Ltac unfold_direction :=
  unfold current_direction, get_direction, rmean, rmid, rsub;
  cbn [c0 c1 c2 c3 fst snd].

Lemma pymod_360_360 : pymod 360 360 = 0.
Proof.
  unfold pymod; replace (360 / 360) with (IZR 1) by lra.
  rewrite Int_part_IZR; lra.
Qed.

Lemma current_direction_north : current_direction north_window = 0.
Proof.
  unfold north_window; unfold_direction; decide_tests.
  replace (360 - 90 + 90) with 360 by lra.
  rewrite pymod_360_360, (pyround_IZR 0); apply pymod_small; lra.
Qed.

Lemma current_direction_south : current_direction south_window = 180.
Proof.
  unfold south_window; unfold_direction; decide_tests.
  replace (360 - 270 + 90) with 180 by lra.
  rewrite (pymod_small (x:=180) (m:=360)) by lra.
  rewrite (pyround_IZR 180); apply pymod_small; lra.
Qed.

Lemma current_direction_flat : current_direction flat_window = 0.
Proof.
  unfold flat_window; unfold_direction; decide_tests.
  replace (360 - 90 + 90) with 360 by lra.
  rewrite pymod_360_360, (pyround_IZR 0); apply pymod_small; lra.
Qed.

Lemma rpt_neq_fst (a b : rpt) : fst a <> fst b -> a <> b.
Proof. intros H E; apply H; rewrite E; reflexivity. Qed.

Lemma rpt_neq_snd (a b : rpt) : snd a <> snd b -> a <> b.
Proof. intros H E; apply H; rewrite E; reflexivity. Qed.

Ltac rpt_neq := first [apply rpt_neq_fst; simpl; lra | apply rpt_neq_snd; simpl; lra].

Lemma north_window_proper : ~ degenerate north_window.
Proof.
  unfold degenerate, north_window; cbn [c0 c1 c2 c3].
  intros [H | [H | [H | H]]]; revert H; rpt_neq.
Qed.

Lemma south_window_proper : ~ degenerate south_window.
Proof.
  unfold degenerate, south_window; cbn [c0 c1 c2 c3].
  intros [H | [H | [H | H]]]; revert H; rpt_neq.
Qed.

Lemma flat_window_degenerate : degenerate flat_window.
Proof. left; reflexivity. Qed.

Ltac unfold_inside :=
  unfold inside, rows, inj, inj_pt, in_bounds, map_botm_left, map_top_right;
  cbn [c0 c1 c2 c3 fst snd forallb fgt flt].

Lemma north_window_inside : inside map_botm_left map_top_right (inj north_window) = true.
Proof. unfold north_window; unfold_inside; decide_tests; reflexivity. Qed.

Lemma south_window_inside : inside map_botm_left map_top_right (inj south_window) = true.
Proof. unfold south_window; unfold_inside; decide_tests; reflexivity. Qed.

(** Moving the south window forward by 100 takes its first corner to
    latitude -100, below the map. *)
Lemma south_window_move_outside :
  inside map_botm_left map_top_right (move_stage (inj south_window) (Fin 100)) = false.
Proof.
  unfold inside, rows, move_stage, move_view_corner_forward; cbn [c0 forallb].
  apply andb_false_iff; left.
  unfold south_window, inj; cbn [c0 c1 c2 c3]; unfold along.
  rewrite psub_inj, psub_inj, norm_fin; cbn [fst snd].
  replace (sqrt ((2 + - 0) * (2 + - 0) + (0 + - 0) * (0 + - 0))) with 2
    by (symmetry; apply sqrt_lem_1; lra).
  unfold pdiv; cbn [fst snd]; rewrite !fdiv_fin by lra.
  unfold in_bounds, padd, pscale, inj_pt, map_botm_left, map_top_right;
    cbn [fst snd fadd fmul fgt flt].
  decide_tests; reflexivity.
Qed.

(** *** Claims on the view transform *)

(** C1 (as amended).  Each stage of [move_view_corners] is all or nothing.
    If a corner produced by the zoom stage is out of bounds, the input window
    is returned with the direction recomputed from its corners.  If a corner
    produced by the rotate stage is out of bounds, the zoomed window is
    returned with that same direction.  If a corner produced by the move stage
    is out of bounds, the rotated window is returned, and otherwise the moved
    window, in both cases with direction (recomputed direction + applied
    angle) mod 360.  The applied angle is the requested angle whenever no
    drift correction is made. *)
Theorem move_view_corners_stages (corners : quad rpt) (angle : R) (distance : fl)
  (altitude : R) (bl tr : rpt) (icd : option R) :
  let cur := current_direction corners in
  let a := corrected_angle corners angle icd in
  let z := zoom_stage corners altitude in
  let r := rotate_stage z a in
  let m := move_stage r distance in
  let out := move_view_corners corners angle distance altitude bl tr icd in
  (some_corner_outside bl tr z -> out = (inj corners, cur))
  /\ (inside bl tr z = true -> some_corner_outside bl tr r -> out = (z, cur))
  /\ (inside bl tr z = true -> inside bl tr r = true -> some_corner_outside bl tr m ->
      out = (r, pymod (cur + a) 360))
  /\ (inside bl tr z = true -> inside bl tr r = true -> inside bl tr m = true ->
      out = (m, pymod (cur + a) 360))
  /\ (drifted corners icd = false -> a = angle).
Proof.
  intros cur a z r m out; unfold out.
  rewrite move_view_corners_cases; fold cur a z r m.
  repeat split.
  - intros H; apply inside_false in H; rewrite H; reflexivity.
  - intros -> H; apply inside_false in H; rewrite H; reflexivity.
  - intros -> -> H; apply inside_false in H; rewrite H; reflexivity.
  - intros -> -> ->; reflexivity.
  - apply corrected_angle_no_drift.
Qed.

(** The south window moved by 100 with no asserted direction: the move stage
    leaves the map, the rotated window comes back with direction 180. *)
Lemma move_view_corners_stages_witness :
  move_view_corners south_window 0 (Fin 100) (edge_length south_window)
    map_botm_left map_top_right None
  = (inj south_window, pymod (180 + 0) 360).
Proof.
  pose proof (move_view_corners_stages south_window 0 (Fin 100) (edge_length south_window)
                map_botm_left map_top_right None) as H.
  cbv zeta in H; destruct H as [_ [_ [H _]]].
  rewrite (zoom_stage_at_edge_length south_window_proper) in H.
  cbn [corrected_angle] in H.
  rewrite rotate_stage_zero, current_direction_south in H.
  apply H.
  - exact south_window_inside.
  - exact south_window_inside.
  - apply inside_false; exact south_window_move_outside.
Defined.

(** C1, counterexample.  The south window (recomputed direction 180) with
    asserted direction 90 and requested angle -90: a corner of the move stage
    is out of bounds, and the direction returned is 180, which is neither
    (180 + -90) mod 360 nor (90 + -90) mod 360. *)
Lemma move_view_corners_drift_direction :
  let out := move_view_corners south_window (-90) (Fin 100) (edge_length south_window)
               map_botm_left map_top_right (Some 90) in
  some_corner_outside map_botm_left map_top_right
    (move_stage
       (rotate_stage (zoom_stage south_window (edge_length south_window))
          (corrected_angle south_window (-90) (Some 90))) (Fin 100))
  /\ snd out = 180
  /\ snd out <> pymod (current_direction south_window + -90) 360
  /\ snd out <> pymod (90 + -90) 360.
Proof.
  assert (Hd : drifted south_window (Some 90) = true).
  { unfold drifted; rewrite current_direction_south.
    apply Rltb_true; rewrite Rabs_left; lra. }
  assert (Ha : corrected_angle south_window (-90) (Some 90) = 0).
  { rewrite corrected_angle_drift by exact Hd; lra. }
  assert (Hm : inside map_botm_left map_top_right
                 (move_stage
                    (rotate_stage (zoom_stage south_window (edge_length south_window))
                       (corrected_angle south_window (-90) (Some 90))) (Fin 100)) = false).
  { rewrite Ha, (zoom_stage_at_edge_length south_window_proper), rotate_stage_zero.
    exact south_window_move_outside. }
  assert (Hout : snd (move_view_corners south_window (-90) (Fin 100) (edge_length south_window)
                        map_botm_left map_top_right (Some 90)) = 180).
  { rewrite move_view_corners_cases; cbv zeta.
    rewrite Hm, Ha, (zoom_stage_at_edge_length south_window_proper), rotate_stage_zero.
    rewrite south_window_inside; cbn [negb snd].
    rewrite current_direction_south; replace (180 + 0) with 180 by lra.
    apply pymod_small; lra. }
  cbv zeta; rewrite Hout, current_direction_south.
  split; [apply inside_false; exact Hm |].
  repeat split.
  - rewrite pymod_small; lra.
  - rewrite pymod_small; lra.
Qed.

(** C2, at a failing input.  The south window has recomputed direction 180;
    with asserted direction 190 the discrepancy is 10, the test of line 302
    holds, and line 304 adds the asserted direction itself: a requested angle
    of 0 becomes 190, not 0 + (190 - 180) = 10.  In general the angle applied
    under a drift is the requested angle plus the asserted direction, and it
    is the requested angle when the test of line 302 fails. *)
Theorem drift_correction_adds_asserted_direction :
  current_direction south_window = 180
  /\ drifted south_window (Some 190) = true
  /\ corrected_angle south_window 0 (Some 190) = 0 + 190
  /\ corrected_angle south_window 0 (Some 190)
      <> 0 + (190 - current_direction south_window)
  /\ (forall corners angle d,
        drifted corners (Some d) = true ->
        corrected_angle corners angle (Some d) = angle + d)
  /\ (forall corners angle icd,
        drifted corners icd = false -> corrected_angle corners angle icd = angle).
Proof.
  assert (Hd : drifted south_window (Some 190) = true).
  { unfold drifted; rewrite current_direction_south.
    apply Rltb_true; rewrite Rabs_pos_eq; lra. }
  rewrite corrected_angle_drift by exact Hd; rewrite current_direction_south.
  repeat split; try assumption; try lra.
  - intros corners angle d H; apply corrected_angle_drift; exact H.
  - intros corners angle icd H; apply corrected_angle_no_drift; exact H.
Qed.

(** C6, counterexample.  The first edge of [flat_window] has length zero,
    and the call returns: the input window with direction 0. *)
Lemma degenerate_window_returns :
  c0 flat_window = c1 flat_window
  /\ move_view_corners flat_window 0 (Fin 0) 100 map_botm_left map_top_right None
     = (inj flat_window, 0).
Proof.
  split; [reflexivity |].
  rewrite move_view_corners_cases; cbv zeta.
  rewrite (zoom_stage_degenerate 100 map_botm_left map_top_right flat_window_degenerate).
  cbn [negb]; rewrite current_direction_flat; reflexivity.
Qed.

(** C6 (as amended).  For every window in which two adjacent corners coincide,
    [move_view_corners] raises nothing: dividing by the zero edge length puts
    NaN in a zoomed corner, that corner fails the bounds test, and the input
    window is returned with the direction recomputed from its corners. *)
Theorem degenerate_window_is_returned (corners : quad rpt)
  (angle : R) (distance : fl) (altitude : R) (bl tr : rpt) (icd : option R) :
  degenerate corners ->
  some_corner_outside bl tr (zoom_stage corners altitude)
  /\ move_view_corners corners angle distance altitude bl tr icd
     = (inj corners, current_direction corners).
Proof.
  intros Hd.
  pose proof (zoom_stage_degenerate altitude bl tr Hd) as Hz.
  split; [apply inside_false; exact Hz |].
  rewrite move_view_corners_cases; cbv zeta; rewrite Hz; reflexivity.
Qed.

Lemma degenerate_window_is_returned_witness :
  degenerate flat_window
  /\ move_view_corners flat_window 30 (Fin 5) 100 map_botm_left map_top_right (Some 90)
     = (inj flat_window, current_direction flat_window).
Proof.
  split; [exact flat_window_degenerate |].
  apply (@degenerate_window_is_returned flat_window 30 (Fin 5) 100
           map_botm_left map_top_right (Some 90)).
  exact flat_window_degenerate.
Defined.

(** C9 (as amended).  With every float read as the real number it denotes:
    for a window with no two adjacent corners equal and every corner
    strictly inside the bounds, a call with angle 0, distance 0, the altitude
    of the current reference edge and no drift correction has a zoom change
    of zero and an applied angle of zero, and returns the input window.  On
    binary64 numbers the window can come back changed in a last bit, as the
    run in [Binary64Facts] shows. *)
Theorem identity_transform (corners : quad rpt) (bl tr : rpt) (icd : option R) :
  ~ degenerate corners ->
  inside bl tr (inj corners) = true ->
  drifted corners icd = false ->
  step_change_of_view_zoom (inj corners) (edge_length corners) = Fin 0
  /\ corrected_angle corners 0 icd = 0
  /\ fst (move_view_corners corners 0 (Fin 0) (edge_length corners) bl tr icd) = inj corners.
Proof.
  intros Hnd Hin Hdr.
  split; [apply step_change_at_edge_length |].
  split; [apply corrected_angle_no_drift; assumption |].
  rewrite move_view_corners_cases; cbv zeta.
  rewrite corrected_angle_no_drift by exact Hdr.
  rewrite (zoom_stage_at_edge_length Hnd), rotate_stage_zero, (move_stage_zero Hnd).
  rewrite Hin; reflexivity.
Qed.

Lemma identity_transform_witness :
  fst (move_view_corners north_window 0 (Fin 0) (edge_length north_window)
         map_botm_left map_top_right (Some 1)) = inj north_window.
Proof.
  apply (@identity_transform north_window map_botm_left map_top_right (Some 1)).
  - exact north_window_proper.
  - exact north_window_inside.
  - unfold drifted; rewrite current_direction_north.
    apply Rltb_false; rewrite Rabs_pos_eq; lra.
Defined.

End GeometryFacts.

Module Binary64Facts.
Import PrimFloat.
Import Binary64.
#[local] Set Warnings "-inexact-float".
Local Open Scope float_scope.

(** C9, counterexample.  On binary64 numbers, for [unit_window] with angle 0,
    distance 0 and the altitude of its reference edge: the zoom change is
    zero and the zoom stage returns the window itself, every corner of every
    stage passes the bounds test, the move stage adds nothing, but the
    rotate stage recomputes each corner as mean + (corner - mean), and the
    window that is returned has 0.09999999999999998 where the input has 0.1:
    it is not the input window.  The sign of the zero angle, 0.0 for the
    integer 0 that [rollout] passes and -0.0 for a float, makes no
    difference. *)
Lemma identity_transform_rounds :
  let w := unit_window in
  let altitude := current_view_area_edge_length w in
  let out := returned_window libm_at_zero w 0 0 altitude map_botm_left map_top_right in
  step_change_of_view_zoom w altitude = 0
  /\ zoom_stage w altitude = w
  /\ out = move_stage (rotate_stage libm_at_zero w 0) 0
  /\ out = rotate_stage libm_at_zero w 0
  /\ out = returned_window libm_at_zero w (-0) 0 altitude map_botm_left map_top_right
  /\ pmean w = (0.6000000000000001, 0.6000000000000001)
  /\ snd (Geometry.c3 w) = 0.1
  /\ snd (Geometry.c3 out) = 0.09999999999999998
  /\ (snd (Geometry.c3 out) =? snd (Geometry.c3 w)) = false
  /\ out <> w.
Proof.
  cbv zeta.
  assert (Hne : (snd (Geometry.c3 (returned_window libm_at_zero unit_window 0 0
                                     (current_view_area_edge_length unit_window)
                                     map_botm_left map_top_right))
                 =? snd (Geometry.c3 unit_window)) = false)
    by (vm_compute; reflexivity).
  repeat split; try (vm_compute; reflexivity).
  intros E; rewrite E in Hne; vm_compute in Hne; discriminate.
Qed.

End Binary64Facts.

Module OracleFacts.
Import Stdlib.Strings.String.
Import Geometry.
Import GeometryFacts.
Import Oracle.

(** *** Results of binds *)

Lemma bind_ok {A B : Type} (m : result A) (k : A -> result B) (b : B) :
  bind m k = Ok b -> exists a, m = Ok a /\ k a = Ok b.
Proof.
  destruct m as [a | e]; simpl; intros H; [| discriminate].
  exists a; split; [reflexivity | assumption].
Qed.

(** *** The clamp *)

Lemma pymax3_Rmax (x y z : R) : pymax3 x y z = Rmax (Rmax x y) z.
Proof.
  unfold pymax3, Rmax, Rltb.
  destruct (Rlt_dec x y), (Rle_dec x y); try lra;
    match goal with
    | |- (if (if ?c then _ else _) then _ else _) = (if ?d then _ else _) =>
        destruct c, d; lra
    end.
Qed.

Lemma pymax3_bounds (x y : R) :
  x <= pymax3 x y 1 /\ y <= pymax3 x y 1 /\ 1 <= pymax3 x y 1.
Proof.
  rewrite pymax3_Rmax.
  pose proof (Rmax_l (Rmax x y) 1); pose proof (Rmax_r (Rmax x y) 1).
  pose proof (Rmax_l x y); pose proof (Rmax_r x y).
  repeat split; lra.
Qed.

Lemma Rabs_div_le_1 (x m : R) : Rabs x <= m -> 1 <= m -> Rabs (x / m) <= 1.
Proof.
  intros Hx Hm.
  unfold Rdiv; rewrite Rabs_mult, (Rabs_pos_eq (/ m)).
  - apply Rmult_le_reg_r with m; [lra |].
    rewrite Rmult_assoc, Rinv_l by lra; lra.
  - left; apply Rinv_0_lt_compat; lra.
Qed.

Lemma clamp_bounded (r : R * R) :
  let m := pymax3 (Rabs (fst r)) (Rabs (snd r)) 1 in
  0 < m
  /\ clamp r = (fst r / m, snd r / m)
  /\ Rmax (Rabs (fst (clamp r))) (Rabs (snd (clamp r))) <= 1.
Proof.
  intros m.
  destruct (pymax3_bounds (Rabs (fst r)) (Rabs (snd r))) as [H1 [H2 H3]].
  fold m in H1, H2, H3.
  split; [lra |]; split; [reflexivity |].
  unfold clamp; fold m; cbn [fst snd].
  apply Rmax_lub; apply Rabs_div_le_1; assumption.
Qed.

(** *** The scan of the intersection points *)

(** The scan keeps the first point that is strictly nearer than everything
    before it; [bound] is the distance that a point has to beat. *)
Lemma closest_to_goal_scan (goal : rpt) (il : list rpt) :
  forall (bound : R) (t : pyval),
    ((forall y, In y il -> bound <= dist_to goal y)
     /\ closest_to_goal goal il bound t = t)
    \/ (exists x, closest_to_goal goal il bound t = PyNdarray x
                  /\ In x il /\ dist_to goal x < bound
                  /\ forall y, In y il -> dist_to goal x <= dist_to goal y).
Proof.
  induction il as [| p il IH]; intros bound t.
  - left; split; [intros y [] | reflexivity].
  - cbn [closest_to_goal]; fold (dist_to goal p).
    destruct (Rltb (dist_to goal p) bound) eqn:Hlt.
    + apply Rltb_spec in Hlt; right.
      destruct (IH (dist_to goal p) (PyNdarray p)) as [[Hall Hkeep] | [x [Hx [Hin [Hd Hmin]]]]].
      * exists p; rewrite Hkeep; repeat split; [left; reflexivity | assumption |].
        intros y [<- | Hy]; [lra | apply Hall; assumption].
      * exists x; rewrite Hx; repeat split; [right; assumption | lra |].
        intros y [<- | Hy]; [lra | apply Hmin; assumption].
    + assert (Hge : bound <= dist_to goal p).
      { destruct (Rlt_dec (dist_to goal p) bound) as [H | H]; [| lra].
        rewrite (Rltb_true H) in Hlt; discriminate. }
      destruct (IH bound t) as [[Hall Hkeep] | [x [Hx [Hin [Hd Hmin]]]]].
      * left; split; [| assumption].
        intros y [<- | Hy]; [assumption | apply Hall; assumption].
      * right; exists x; rewrite Hx; repeat split; [right; assumption | assumption |].
        intros y [<- | Hy]; [lra | apply Hmin; assumption].
Qed.

(** *** One pass of the loop *)

Lemma teacher_action_i_ok (S : Shapely) (fb : feedback) (cb : option nat) (s : sample)
  (o : teacher_out) :
  teacher_action_i S fb cb s = Ok o ->
  exists final,
    last_item (gt_path_corners s) = Ok final
    /\ compute_iou S (corners s) final = Ok (gt_progress o)
    /\ (terminal (ended s) (gt_progress o) = true -> action_slot o = PyNdarray (0, 0))
    /\ (terminal (ended s) (gt_progress o) = false ->
        exists il r,
          intersection_line S fb (corners s) (gt_path_corners s) (rmean final) = Ok il
          /\ basis_solve (closest_to_goal (rmean final) il 1 (PyStr "0")) (corners s) = Ok r
          /\ action_slot o = PyNdarray (clamp r)).
Proof.
  unfold teacher_action_i; intros H.
  apply bind_ok in H; destruct H as [final [Hfinal H]].
  apply bind_ok in H; destruct H as [iou [Hiou H]].
  destruct (snd (closest_scan _ _ _ _)) as [j |]; [| discriminate].
  apply bind_ok in H; destruct H as [w [Hw H]].
  exists final; split; [assumption |].
  destruct (terminal (ended s) iou) eqn:Hterm.
  - injection H as <-; cbn [gt_progress action_slot].
    split; [assumption |]; split; [reflexivity |].
    rewrite Hterm; discriminate.
  - apply bind_ok in H; destruct H as [il [Hil H]].
    apply bind_ok in H; destruct H as [r [Hr H]].
    injection H as <-; cbn [gt_progress action_slot].
    split; [assumption |]; split; [rewrite Hterm; discriminate |].
    intros _; exists il, r; repeat split; assumption.
Qed.

Lemma teacher_action_from_ok (S : Shapely) (fb : feedback) (obs : list sample) :
  forall (cb : option nat) (outs : list teacher_out),
    teacher_action_from S fb cb obs = Ok outs ->
    Forall2 (fun s o => exists cb', teacher_action_i S fb cb' s = Ok o) obs outs.
Proof.
  induction obs as [| s obs IH]; intros cb outs H.
  - injection H as <-; constructor.
  - cbn [teacher_action_from] in H.
    apply bind_ok in H; destruct H as [o [Ho H]].
    apply bind_ok in H; destruct H as [os [Hos H]].
    injection H as <-; constructor; [exists cb; assumption |].
    apply (IH _ _ Hos).
Qed.

(** *** Evaluation of square roots and roundings *)

Ltac sqrt_is v :=
  match goal with
  | |- context [sqrt ?e] =>
      replace (sqrt e) with v by (symmetry; apply sqrt_lem_1; lra)
  end.

Ltac pyround_is z :=
  match goal with
  | |- context [pyround ?e] =>
      replace (pyround e) with z by (replace e with (IZR z) by lra; symmetry; apply pyround_IZR)
  end.

(** *** Claims on compute_iou *)

(** The branches of [compute_iou], which works on the convex hulls of the
    two quadrilaterals.  It returns 0 when the hulls do not intersect, and 0
    when shapely's intersection raises a TopologicalError.  Otherwise, when
    the area of the hull of the eight vertices is not zero, it returns the
    area of the intersection divided by that area; this is 1 for two copies
    of one quadrilateral whose hull has a non-zero area that shapely reports
    for the intersection and for the hull of the doubled vertices as well. *)
Theorem compute_iou_hull_ratio (S : Shapely) (a b : quad rpt) :
  let poly1 := convex_hull S (Polygon S (rows a)) in
  let poly2 := convex_hull S (Polygon S (rows b)) in
  let union_area := area S (convex_hull S (MultiPoint S (rows a ++ rows b))) in
  (intersects S poly1 poly2 = false -> compute_iou S a b = Ok 0)
  /\ (intersects S poly1 poly2 = true ->
      intersection S poly1 poly2 = Raise TopologicalError ->
      compute_iou S a b = Ok 0)
  /\ (forall g, intersects S poly1 poly2 = true ->
      intersection S poly1 poly2 = Ok g ->
      union_area <> 0 ->
      compute_iou S a b = Ok (area S g / union_area))
  /\ (forall g, a = b ->
      intersects S poly1 poly2 = true ->
      intersection S poly1 poly2 = Ok g ->
      area S g = area S poly1 ->
      union_area = area S poly1 ->
      area S poly1 <> 0 ->
      compute_iou S a b = Ok 1).
Proof.
  intros poly1 poly2 union_area; unfold compute_iou; fold poly1 poly2 union_area.
  repeat split.
  - intros ->; reflexivity.
  - intros -> ->; reflexivity.
  - intros g -> -> Hne; cbn [negb]; unfold pydiv.
    rewrite Reqb_false by assumption; reflexivity.
  - intros g _ -> -> Hg Hu Hne; cbn [negb]; unfold pydiv.
    rewrite Reqb_false by (rewrite Hu; assumption).
    rewrite Hg, Hu; f_equal; field; assumption.
Qed.

Lemma compute_iou_hull_ratio_witness :
  compute_iou same_answers here here = Ok 1
  /\ compute_iou near_answers here goal_near = Ok 0.
Proof.
  pose proof (compute_iou_hull_ratio same_answers here here) as Hsame.
  pose proof (compute_iou_hull_ratio near_answers here goal_near) as Hdis.
  cbv zeta in Hsame, Hdis.
  destruct Hsame as [_ [_ [_ Hsame]]]; destruct Hdis as [Hdis _].
  split.
  - assert (Harea : polygon_area (rows here) = 4).
    { unfold polygon_area, here, rows; cbn [c0 c1 c2 c3 shoelace_from].
      unfold cross; cbn [fst snd]; rewrite Rabs_pos_eq; lra. }
    apply (Hsame HullsIntersection); try reflexivity;
      cbn [area same_answers answers convex_hull Polygon MultiPoint];
      rewrite Harea; lra.
  - apply Hdis; reflexivity.
Defined.

(** C3, at a failing input.  When the hulls intersect and the hull of the
    eight vertices has area 0, line 61 sets [iou = 0], but the division of
    line 63 is not in an [else] branch: it is executed all the same and
    raises, whatever shapely answers otherwise, so that no progress value is
    returned.  Two copies of [collinear] are such an input: every hull is a
    segment and every area is 0. *)
Theorem compute_iou_collinear_raises :
  (forall (S : Shapely) (a b : quad rpt) (g : geom S),
      intersects S (convex_hull S (Polygon S (rows a)))
        (convex_hull S (Polygon S (rows b))) = true ->
      intersection S (convex_hull S (Polygon S (rows a)))
        (convex_hull S (Polygon S (rows b))) = Ok g ->
      area S (convex_hull S (MultiPoint S (rows a ++ rows b))) = 0 ->
      compute_iou S a b = Raise ZeroDivisionError)
  /\ intersects collinear_answers
       (convex_hull collinear_answers (Polygon collinear_answers (rows collinear)))
       (convex_hull collinear_answers (Polygon collinear_answers (rows collinear))) = true
  /\ compute_iou collinear_answers collinear collinear = Raise ZeroDivisionError
  /\ forall v : R, compute_iou collinear_answers collinear collinear <> Ok v.
Proof.
  assert (G : forall (S : Shapely) (a b : quad rpt) (g : geom S),
             intersects S (convex_hull S (Polygon S (rows a)))
               (convex_hull S (Polygon S (rows b))) = true ->
             intersection S (convex_hull S (Polygon S (rows a)))
               (convex_hull S (Polygon S (rows b))) = Ok g ->
             area S (convex_hull S (MultiPoint S (rows a ++ rows b))) = 0 ->
             compute_iou S a b = Raise ZeroDivisionError).
  { intros S a b g Hi Hg Hu; unfold compute_iou, pydiv.
    rewrite Hi, Hg; cbn [negb]; rewrite Hu, Reqb_true by reflexivity; reflexivity. }
  assert (H : compute_iou collinear_answers collinear collinear = Raise ZeroDivisionError).
  { apply (G collinear_answers collinear collinear HullsIntersection); reflexivity. }
  split; [exact G |]; split; [reflexivity |]; split; [exact H |].
  intros v; rewrite H; discriminate.
Qed.

(** *** A run of the oracle *)

Lemma rmean_here : rmean here = (1, 1).
Proof. unfold rmean, here; cbn [c0 c1 c2 c3 fst snd]; f_equal; lra. Qed.

Lemma rmean_goal_near : rmean goal_near = (1, 2.5).
Proof. unfold rmean, goal_near; cbn [c0 c1 c2 c3 fst snd]; f_equal; lra. Qed.

Lemma rmean_goal_far : rmean goal_far = (1, 11).
Proof. unfold rmean, goal_far; cbn [c0 c1 c2 c3 fst snd]; f_equal; lra. Qed.

Ltac unfold_dist := unfold dist_to, rnorm, rsub; cbn [fst snd].

Lemma closest_scan_near :
  closest_scan (rmean here) (indexed_backward [here; goal_near]) 1000 None
  = (0, Some 0%nat).
Proof.
  unfold indexed_backward; cbn [List.length seq combine rev app closest_scan].
  rewrite rmean_here, rmean_goal_near; unfold_dist.
  sqrt_is 1.5; sqrt_is 0; decide_tests; reflexivity.
Qed.

Lemma closest_scan_far :
  closest_scan (rmean here) (indexed_backward [goal_far]) 1000 None
  = (10, Some 0%nat).
Proof.
  unfold indexed_backward; cbn [List.length seq combine rev app closest_scan].
  rewrite rmean_here, rmean_goal_far; unfold_dist.
  sqrt_is 10; decide_tests; reflexivity.
Qed.

Lemma closest_to_goal_near :
  closest_to_goal (1, 2.5) [(1, 1); (1, 2)] 1 (PyStr "0") = PyNdarray (1, 2).
Proof.
  cbn [closest_to_goal]; unfold_dist.
  sqrt_is 1.5; sqrt_is 0.5; decide_tests; reflexivity.
Qed.

Lemma closest_to_goal_far :
  closest_to_goal (1, 11) [(1, 1); (1, 2)] 1 (PyStr "0") = PyStr "0".
Proof.
  cbn [closest_to_goal]; unfold_dist.
  sqrt_is 10; sqrt_is 9; decide_tests; reflexivity.
Qed.

Lemma basis_solve_near : basis_solve (PyNdarray (1, 2)) here = Ok (1, 0).
Proof.
  unfold basis_solve; rewrite rmean_here.
  unfold rscale, rsub, rmid, here; cbn [c0 c1 c2 c3 fst snd].
  pyround_is 0%Z; pyround_is 100000%Z; pyround_is 0%Z.
  unfold solve2; rewrite minus_IZR, !mult_IZR.
  decide_tests. f_equal; f_equal; field.
Qed.

Lemma intersection_line_near :
  intersection_line near_answers student here [here; goal_near] (rmean goal_near)
  = Ok [(1, 1); (1, 2)].
Proof. reflexivity. Qed.

Lemma teacher_action_i_near :
  teacher_action_i near_answers student None near_sample
  = Ok (TeacherOut (PyNdarray (clamp (1, 0))) (PyFloat (teacher_altitude here)) 0 (Some 0%nat)).
Proof.
  unfold teacher_action_i, near_sample; cbn [gt_path_corners corners ended].
  cbn [last_item rev app bind].
  replace (compute_iou near_answers here goal_near) with (Ok (A:=R) 0) by reflexivity.
  cbn [bind]; rewrite closest_scan_near; cbn [snd item nth_error bind].
  assert (Ht : terminal false 0 = false).
  { unfold terminal; cbn [orb]; apply Rltb_false; lra. }
  rewrite Ht, intersection_line_near; cbn [bind].
  rewrite rmean_goal_near, closest_to_goal_near, basis_solve_near; reflexivity.
Qed.

Lemma teacher_action_i_far :
  teacher_action_i far_answers student None far_sample = Raise TypeError.
Proof.
  unfold teacher_action_i, far_sample; cbn [gt_path_corners corners ended].
  cbn [last_item rev app bind].
  replace (compute_iou far_answers here goal_far) with (Ok (A:=R) 0) by reflexivity.
  cbn [bind]; rewrite closest_scan_far; cbn [snd item nth_error bind].
  assert (Ht : terminal false 0 = false).
  { unfold terminal; cbn [orb]; apply Rltb_false; lra. }
  rewrite Ht.
  replace (intersection_line far_answers student here [goal_far] (rmean goal_far))
    with (Ok [(1, 1); (1, 2)]) by reflexivity.
  cbn [bind]; rewrite rmean_goal_far, closest_to_goal_far; reflexivity.
Qed.

Lemma compute_iou_same : compute_iou same_answers here here = Ok 1.
Proof.
  unfold compute_iou, pydiv; cbn [same_answers answers intersects intersection negb area
                                  convex_hull MultiPoint Polygon].
  rewrite Reqb_false by lra; f_equal; lra.
Qed.

Lemma closest_scan_same :
  closest_scan (rmean here) (indexed_backward [here]) 1000 None = (0, Some 0%nat).
Proof.
  unfold indexed_backward; cbn [List.length seq combine rev app closest_scan].
  rewrite rmean_here; unfold_dist.
  sqrt_is 0; decide_tests; reflexivity.
Qed.

Lemma teacher_action_i_same :
  teacher_action_i same_answers student None same_sample
  = Ok (TeacherOut (PyNdarray (0, 0)) (PyFloat (teacher_altitude here)) 1 (Some 0%nat)).
Proof.
  unfold teacher_action_i, same_sample; cbn [gt_path_corners corners ended].
  cbn [last_item rev app bind]; rewrite compute_iou_same.
  cbn [bind]; rewrite closest_scan_same; cbn [snd item nth_error bind].
  assert (Ht : terminal false 1 = true).
  { unfold terminal; cbn [orb]; apply Rltb_true; lra. }
  rewrite Ht; reflexivity.
Qed.

(** *** Claims on teacher_action *)

(** C4.  Whenever [teacher_action] returns, the action of every sample that
    is not judged terminal is the pair of coefficients [r] of the 2x2 solve
    divided by [m = max(|rx|, |ry|, 1)]; [m] is positive, so the action is a
    positive multiple of [r], and neither component exceeds 1 in magnitude. *)
Theorem teacher_action_clamped (S : Shapely) (fb : feedback) (obs : list sample)
  (outs : list teacher_out) :
  teacher_action S fb obs = Ok outs ->
  Forall2
    (fun s o =>
       terminal (ended s) (gt_progress o) = false ->
       exists r : R * R,
         (exists final il,
             last_item (gt_path_corners s) = Ok final
             /\ intersection_line S fb (corners s) (gt_path_corners s) (rmean final) = Ok il
             /\ basis_solve (closest_to_goal (rmean final) il 1 (PyStr "0")) (corners s)
                = Ok r)
         /\ let m := pymax3 (Rabs (fst r)) (Rabs (snd r)) 1 in
            0 < m
            /\ m = Rmax (Rmax (Rabs (fst r)) (Rabs (snd r))) 1
            /\ action_slot o = PyNdarray (fst r / m, snd r / m)
            /\ Rmax (Rabs (fst r / m)) (Rabs (snd r / m)) <= 1)
    obs outs.
Proof.
  intros H; apply teacher_action_from_ok in H.
  revert H; apply Forall2_impl; intros s o [cb Ho] Hterm.
  destruct (teacher_action_i_ok _ _ _ _ Ho) as [final [Hfinal [_ [_ Hrun]]]].
  destruct (Hrun Hterm) as [il [r [Hil [Hr Hslot]]]].
  exists r; split; [exists final, il; repeat split; assumption |].
  destruct (clamp_bounded r) as [Hpos [Hclamp Hmax]].
  cbv zeta; repeat split.
  - exact Hpos.
  - apply pymax3_Rmax.
  - rewrite Hslot, Hclamp; reflexivity.
  - rewrite Hclamp in Hmax; exact Hmax.
Qed.

Lemma teacher_action_clamped_witness :
  Forall2
    (fun s o =>
       terminal (ended s) (gt_progress o) = false ->
       exists r : R * R,
         (exists final il,
             last_item (gt_path_corners s) = Ok final
             /\ intersection_line near_answers student (corners s) (gt_path_corners s)
                  (rmean final) = Ok il
             /\ basis_solve (closest_to_goal (rmean final) il 1 (PyStr "0")) (corners s)
                = Ok r)
         /\ let m := pymax3 (Rabs (fst r)) (Rabs (snd r)) 1 in
            0 < m
            /\ m = Rmax (Rmax (Rabs (fst r)) (Rabs (snd r))) 1
            /\ action_slot o = PyNdarray (fst r / m, snd r / m)
            /\ Rmax (Rabs (fst r / m)) (Rabs (snd r / m)) <= 1)
    [near_sample]
    [TeacherOut (PyNdarray (clamp (1, 0))) (PyFloat (teacher_altitude here)) 0 (Some 0%nat)].
Proof.
  apply (@teacher_action_clamped near_answers student).
  unfold teacher_action; cbn [teacher_action_from].
  rewrite teacher_action_i_near; reflexivity.
Defined.

(** C5 (as amended).  Whenever some point of the intersection of the target
    line with the window lies at a distance below 1 from the centroid of the
    final reference window, the scan takes a point of the intersection whose
    distance to that centroid is minimal, and this is the point that
    [teacher_action] decomposes in the basis of the window. *)
Theorem target_is_closest_intersection (S : Shapely) (fb : feedback) (cb : option nat)
  (s : sample) (final : quad rpt) (il : list rpt) :
  last_item (gt_path_corners s) = Ok final ->
  intersection_line S fb (corners s) (gt_path_corners s) (rmean final) = Ok il ->
  (exists y, In y il /\ dist_to (rmean final) y < 1) ->
  exists x,
    In x il
    /\ (forall y, In y il -> dist_to (rmean final) x <= dist_to (rmean final) y)
    /\ closest_to_goal (rmean final) il 1 (PyStr "0") = PyNdarray x
    /\ forall o,
         teacher_action_i S fb cb s = Ok o ->
         terminal (ended s) (gt_progress o) = false ->
         exists r, basis_solve (PyNdarray x) (corners s) = Ok r
                   /\ action_slot o = PyNdarray (clamp r).
Proof.
  intros Hfinal Hil [y [Hy Hnear]].
  destruct (closest_to_goal_scan (rmean final) il 1 (PyStr "0"))
    as [[Hall _] | [x [Hx [Hin [_ Hmin]]]]].
  - specialize (Hall y Hy); lra.
  - exists x; repeat split; try assumption.
    intros o Ho Hterm.
    destruct (teacher_action_i_ok _ _ _ _ Ho) as [final' [Hfinal' [_ [_ Hrun]]]].
    destruct (Hrun Hterm) as [il' [r [Hil' [Hr Hslot]]]].
    rewrite Hfinal in Hfinal'; injection Hfinal' as <-.
    rewrite Hil in Hil'; injection Hil' as <-.
    rewrite Hx in Hr; exists r; split; assumption.
Qed.

Lemma target_is_closest_intersection_witness :
  exists x,
    In x [(1, 1); (1, 2)]
    /\ (forall y, In y [(1, 1); (1, 2)] ->
        dist_to (rmean goal_near) x <= dist_to (rmean goal_near) y)
    /\ closest_to_goal (rmean goal_near) [(1, 1); (1, 2)] 1 (PyStr "0") = PyNdarray x
    /\ forall o,
         teacher_action_i near_answers student None near_sample = Ok o ->
         terminal (ended near_sample) (gt_progress o) = false ->
         exists r, basis_solve (PyNdarray x) (corners near_sample) = Ok r
                   /\ action_slot o = PyNdarray (clamp r).
Proof.
  apply (@target_is_closest_intersection near_answers student None near_sample goal_near).
  - reflexivity.
  - reflexivity.
  - exists (1, 2); split; [right; left; reflexivity |].
    rewrite rmean_goal_near; unfold_dist; sqrt_is 0.5; lra.
Defined.

(** C5, counterexample.  With the goal far to the east the intersection of
    the target line with the window is not empty, both of its points are at
    distance 9 or more from the centroid of the goal, the scan takes none of
    them, and the decomposition fails on the string that is left in the
    slot. *)
Lemma intersection_point_beyond_unit_distance :
  intersection_line far_answers student (corners far_sample)
    (gt_path_corners far_sample) (rmean goal_far) = Ok [(1, 1); (1, 2)]
  /\ closest_to_goal (rmean goal_far) [(1, 1); (1, 2)] 1 (PyStr "0") = PyStr "0"
  /\ teacher_action_i far_answers student None far_sample = Raise TypeError.
Proof.
  split; [reflexivity |]; split.
  - rewrite rmean_goal_far; exact closest_to_goal_far.
  - exact teacher_action_i_far.
Qed.

(** Every action slot that [teacher_action] returns holds an array, and the
    zero array for a sample judged terminal. *)
Lemma teacher_action_slots (S : Shapely) (fb : feedback) (obs : list sample)
  (outs : list teacher_out) :
  teacher_action S fb obs = Ok outs ->
  Forall2
    (fun s o =>
       type_of (action_slot o) = TNdarray
       /\ (terminal (ended s) (gt_progress o) = true -> action_slot o = PyNdarray (0, 0)))
    obs outs.
Proof.
  intros H; apply teacher_action_from_ok in H.
  revert H; apply Forall2_impl; intros s o [cb Ho].
  destruct (teacher_action_i_ok _ _ _ _ Ho) as [final [_ [_ [Hterm Hrun]]]].
  split; [| exact Hterm].
  destruct (terminal (ended s) (gt_progress o)).
  - rewrite Hterm; reflexivity.
  - destruct Hrun as [il [r [_ [_ ->]]]]; reflexivity.
Qed.

End OracleFacts.

Module RolloutFacts.
Import Float.
Import FloatFacts.
Import Rollout.

Section Loop.

(** The parameters of the loop, as in [Rollout]. *)
Variable Window : Type.
Variable max_action_len : nat.
Variable is_test : bool.
Variable fb : Oracle.feedback.
Variable nss_w : fl.
Variable model : nat -> nat -> prediction.
Variable oracle : nat -> list bool -> list Window -> result (list Oracle.teacher_out).
Variable progress_regression : nat -> nat -> fl * fl * fl * fl.
Variable box_loss : nat -> fl.
Variable nss_loss : nat -> nat -> option fl.
Variable advance : nat -> nat -> Window -> R -> effective_action -> result (Window * R).

Local Abbreviation episode := (Rollout.episode Window).
Local Abbreviation state := (Rollout.state Window).
Local Abbreviation keeps := (@Rollout.keeps Window).
Local Abbreviation save_step := (@Rollout.save_step Window).
Local Abbreviation count_step := (@Rollout.count_step Window).
Local Abbreviation log_step := (@Rollout.log_step Window).
Local Abbreviation interact_step := (Rollout.interact_step max_action_len advance).
Local Abbreviation effective := (Rollout.effective fb).
Local Abbreviation rows_of := (Rollout.rows_of model).
Local Abbreviation add_terms := (Rollout.add_terms progress_regression).
Local Abbreviation add_regression := (Rollout.add_regression progress_regression).
Local Abbreviation step :=
  (Rollout.step max_action_len is_test fb nss_w model oracle progress_regression
     box_loss nss_loss advance).
Local Abbreviation loop :=
  (Rollout.loop max_action_len is_test fb nss_w model oracle progress_regression
     box_loss nss_loss advance).

(** *** One pass keeps what belongs to an ended sample *)

Lemma passes_keep (t : nat) (e e' : episode) (r : row) (a : effective_action * fl) :
  interact_step t (log_step (count_step e) r) r a = Ok e' -> keeps e (save_step e').
Proof.
  intros H He; revert H.
  unfold Rollout.count_step, Rollout.log_step; rewrite He; cbn [ended]; rewrite He.
  unfold Rollout.interact_step.
  destruct (fgt (snd a) (Fin 0.5) || (t =? max_action_len - 1)%nat).
  - intros H; injection H as <-.
    unfold Rollout.save_step; cbn [ended]; repeat split; reflexivity.
  - intros H; apply OracleFacts.bind_ok in H; destruct H as [[w d] [_ H]].
    injection H as <-.
    unfold Rollout.save_step; cbn [ended]; rewrite He; cbn.
    repeat split; assumption || reflexivity.
Qed.

Lemma pipeline_keeps (t : nat) (b : list episode) :
  forall (rows : list row) (effs : list (effective_action * fl)) (moved : list episode),
    List.length rows = List.length b ->
    List.length effs = List.length b ->
    mapM (fun x => interact_step t (fst (fst x)) (snd (fst x)) (snd x))
      (combine (combine (map2 log_step (map count_step b) rows) rows) effs) = Ok moved ->
    Forall2 keeps b (map save_step moved).
Proof.
  induction b as [| e b IH]; intros rows effs moved Hr He H.
  - destruct rows; [| discriminate].
    cbn in H; injection H as <-; constructor.
  - destruct rows as [| r rows]; [discriminate |].
    destruct effs as [| a effs]; [discriminate |].
    cbn [map map2 combine mapM fst snd] in H.
    apply OracleFacts.bind_ok in H; destruct H as [e' [He' H]].
    apply OracleFacts.bind_ok in H; destruct H as [moved' [Hmoved H]].
    injection H as <-; cbn [map]; constructor.
    + apply (passes_keep _ _ _ _ He').
    + apply (IH rows effs); simpl in Hr, He; try lia; exact Hmoved.
Qed.

Lemma mapM_length {A B : Type} (f : A -> result B) (l : list A) :
  forall l', mapM f l = Ok l' -> List.length l' = List.length l.
Proof.
  induction l as [| a l IH]; intros l' H.
  - injection H as <-; reflexivity.
  - cbn [mapM] in H.
    apply OracleFacts.bind_ok in H; destruct H as [b [_ H]].
    apply OracleFacts.bind_ok in H; destruct H as [bs [Hbs H]].
    injection H as <-; simpl; rewrite (IH _ Hbs); reflexivity.
Qed.

Lemma rows_of_length (t n : nat) (targets : option (list Oracle.teacher_out)) :
  List.length (rows_of t n targets) = n.
Proof. unfold Rollout.rows_of; rewrite length_map, length_seq; reflexivity. Qed.

Lemma step_keeps (t : nat) (st st' : state) :
  step t st = Ok st' -> Forall2 keeps (batch st) (batch st').
Proof.
  unfold Rollout.step; intros H.
  apply OracleFacts.bind_ok in H; destruct H as [targets [_ H]].
  apply OracleFacts.bind_ok in H; destruct H as [effs [Heffs H]].
  apply OracleFacts.bind_ok in H; destruct H as [moved [Hmoved H]].
  injection H as <-; cbn [batch].
  assert (Hlen : List.length effs = List.length (batch st)).
  { destruct fb, targets; try discriminate;
      apply mapM_length in Heffs; rewrite Heffs; apply rows_of_length. }
  apply (@pipeline_keeps t (batch st) (rows_of t (List.length (batch st)) targets) effs moved);
    [apply rows_of_length | exact Hlen | exact Hmoved].
Qed.

(** *** The loop *)

Lemma loop_length (remaining : nat) :
  forall t st, (List.length (fst (loop remaining t st)) <= remaining)%nat.
Proof.
  induction remaining as [| k IH]; intros t st; cbn [Rollout.loop]; [simpl; lia |].
  destruct (step t st) as [st' | e]; [| simpl; lia].
  destruct (all_ended st'); [simpl; lia |].
  specialize (IH (S t) st'); destruct (loop k (S t) st') as [trace e].
  simpl in *; lia.
Qed.

Lemma loop_stops_when_all_ended (remaining : nat) :
  forall t st j st',
    nth_error (fst (loop remaining t st)) j = Some st' ->
    all_ended st' = true ->
    S j = List.length (fst (loop remaining t st)).
Proof.
  induction remaining as [| k IH]; intros t st j st'; cbn [Rollout.loop].
  - destruct j; discriminate.
  - destruct (step t st) as [st1 | e]; [| destruct j; discriminate].
    destruct (all_ended st1) eqn:Hall.
    + destruct j as [| [| j]]; simpl; intros H; try discriminate; reflexivity.
    + specialize (IH (S t) st1); destruct (loop k (S t) st1) as [trace e].
      cbn [fst] in *; destruct j as [| j]; cbn [nth_error].
      * intros H; injection H as <-; congruence.
      * intros H Hend; simpl; f_equal; apply (IH j st'); assumption.
Qed.

Lemma loop_keeps (remaining : nat) :
  forall t st,
    chain (fun s s' => Forall2 keeps (batch s) (batch s')) st (fst (loop remaining t st)).
Proof.
  induction remaining as [| k IH]; intros t st; cbn [Rollout.loop]; [exact I |].
  destruct (step t st) as [st' | e] eqn:Hstep; [| exact I].
  pose proof (step_keeps _ _ Hstep) as Hk.
  destruct (all_ended st'); [split; [exact Hk | exact I] |].
  specialize (IH (S t) st'); destruct (loop k (S t) st') as [trace e].
  split; assumption.
Qed.

(** The last pass of the budget sets every flag. *)
Lemma interact_last (t : nat) (e e' : episode) (r : row) (a : effective_action * fl) :
  t = (max_action_len - 1)%nat ->
  interact_step t e r a = Ok e' -> ended (save_step e') = true.
Proof.
  intros Ht; unfold Rollout.interact_step.
  replace (t =? max_action_len - 1)%nat with true by (symmetry; apply Nat.eqb_eq; exact Ht).
  rewrite orb_true_r; intros H; injection H as <-; reflexivity.
Qed.

Lemma mapM_Forall {A B : Type} (f : A -> result B) (P : B -> Prop) (l : list A) :
  (forall a b, f a = Ok b -> P b) ->
  forall l', mapM f l = Ok l' -> Forall P l'.
Proof.
  intros Hf; induction l as [| a l IH]; intros l' H.
  - injection H as <-; constructor.
  - cbn [mapM] in H.
    apply OracleFacts.bind_ok in H; destruct H as [b [Hb H]].
    apply OracleFacts.bind_ok in H; destruct H as [bs [Hbs H]].
    injection H as <-; constructor; [apply (Hf a b Hb) | apply (IH _ Hbs)].
Qed.

Lemma step_last (t : nat) (st st' : state) :
  t = (max_action_len - 1)%nat -> step t st = Ok st' -> all_ended st' = true.
Proof.
  intros Ht; unfold Rollout.step; intros H.
  apply OracleFacts.bind_ok in H; destruct H as [targets [_ H]].
  apply OracleFacts.bind_ok in H; destruct H as [effs [_ H]].
  apply OracleFacts.bind_ok in H; destruct H as [moved [Hmoved H]].
  injection H as <-; unfold all_ended; cbn [batch].
  apply forallb_forall; intros e He; apply in_map_iff in He.
  destruct He as [e1 [<- He1]].
  assert (Hall : Forall (fun e => ended (save_step e) = true) moved).
  { revert Hmoved; apply mapM_Forall.
    intros x b Hb; revert Hb; apply interact_last; exact Ht. }
  rewrite Forall_forall in Hall; apply (Hall e1 He1).
Qed.

Lemma last_cons_default {A : Type} (l : list A) :
  forall (x d d' : A), last (x :: l) d = last (x :: l) d'.
Proof.
  induction l as [| y l IH]; intros x d d'; [reflexivity |].
  change (last (y :: l) d = last (y :: l) d'); apply IH.
Qed.

(** A loop that ends without an exception ends on a state in which every
    sample has ended. *)
Lemma loop_ends_all_ended (remaining : nat) :
  forall t st,
    (t + remaining = max_action_len)%nat ->
    (0 < remaining)%nat ->
    snd (loop remaining t st) = None ->
    all_ended (last (fst (loop remaining t st)) st) = true.
Proof.
  induction remaining as [| k IH]; intros t st Hsum Hpos; [lia |].
  cbn [Rollout.loop].
  destruct (step t st) as [st' | e] eqn:Hstep; [| discriminate].
  destruct (all_ended st') eqn:Hall; [intros _; exact Hall |].
  destruct k as [| k].
  - assert (Hl : all_ended st' = true) by (apply (@step_last t st); [lia | exact Hstep]).
    congruence.
  - specialize (IH (S t) st'); destruct (loop (S k) (S t) st') as [trace e] eqn:Hloop.
    cbn [fst snd] in *; intros He.
    assert (Hlast : all_ended (last trace st') = true) by (apply IH; [lia | lia | exact He]).
    destruct trace as [| s1 trace]; [cbn in Hlast; congruence |].
    change (all_ended (last (s1 :: trace) st) = true).
    rewrite (last_cons_default trace s1 st st'); exact Hlast.
Qed.

(** *** The rows of a step that has targets *)

Lemma rows_have_targets (t n : nat) (outs aligned : list Oracle.teacher_out) :
  align outs n = Ok aligned ->
  Forall (fun r => exists o, target r = Some o /\ In o outs)
    (rows_of t n (Some aligned)).
Proof.
  unfold align; destruct (n <=? List.length outs)%nat eqn:Hn; [| discriminate].
  intros H; injection H as <-; apply Nat.leb_le in Hn.
  apply Forall_forall; intros r Hr; unfold Rollout.rows_of in Hr.
  apply in_map_iff in Hr; destruct Hr as [i [<- Hi]]; apply in_seq in Hi.
  cbn [target]; rewrite nth_error_firstn.
  replace (i <? n)%nat with true by (symmetry; apply Nat.ltb_lt; lia).
  destruct (nth_error outs i) as [o |] eqn:Ho.
  - exists o; split; [reflexivity | apply (nth_error_In _ _ Ho)].
  - apply nth_error_None in Ho; lia.
Qed.

Lemma fold_left_agree {A B : Type} (f g : A -> B -> A) (l : list B) :
  Forall (fun b => forall a, f a b = g a b) l ->
  forall a, fold_left f l a = fold_left g l a.
Proof.
  induction 1 as [| b l Hb _ IH]; intros a; cbn [fold_left]; [reflexivity |].
  rewrite Hb; apply IH.
Qed.

(** When the guard of line 611 holds for every target, the loop of lines
    609-619 adds the terms of every row. *)
Lemma regression_of_every_row (t n : nat) (outs aligned : list Oracle.teacher_out) :
  align outs n = Ok aligned ->
  Forall (fun o => loss_guard (Oracle.action_slot o) = true) outs ->
  forall acc,
    fold_left (add_regression t) (rows_of t n (Some aligned)) acc
    = fold_left (fun a r => add_terms t a (index r)) (rows_of t n (Some aligned)) acc.
Proof.
  intros Ha Hg; apply fold_left_agree.
  pose proof (@rows_have_targets t _ _ _ Ha) as Hrows.
  rewrite Forall_forall in Hrows, Hg.
  apply Forall_forall; intros r Hr a.
  destruct (Hrows r Hr) as [o [Ho Hin]].
  unfold Rollout.add_regression; rewrite Ho, (Hg o Hin); reflexivity.
Qed.

End Loop.

(** *** Claims on the rollout *)

(** C8.  The loop of [rollout] makes at most [max_action_len] passes and
    stops after the first pass that leaves every sample ended; with a
    positive budget, a loop that is not stopped by an exception stops on
    such a pass.  Every sample starts with its flag unset; across each pass,
    a flag that is set stays set, and nothing is appended to [actions],
    [gt_actions], [gt_progress], [progress] or [path_corners] of a sample
    whose flag was set before the pass. *)
Theorem rollout_loop_bounded_and_frozen (Window : Type) (max_action_len : nat)
  (is_test : bool) (fb : Oracle.feedback) (nss_w : fl)
  (model : nat -> nat -> prediction)
  (oracle : nat -> list bool -> list Window -> result (list Oracle.teacher_out))
  (progress_regression : nat -> nat -> fl * fl * fl * fl)
  (box_loss : nat -> fl) (nss_loss : nat -> nat -> option fl)
  (advance : nat -> nat -> Window -> R -> effective_action -> result (Window * R))
  (obs : list (Window * R)) :
  let run :=
    rollout_loop max_action_len is_test fb nss_w model oracle progress_regression
      box_loss nss_loss advance obs in
  let trace := fst run in
  (List.length trace <= max_action_len)%nat
  /\ (forall j st, nth_error trace j = Some st -> all_ended st = true ->
      S j = List.length trace)
  /\ ((0 < max_action_len)%nat -> snd run = None ->
      all_ended (last trace (start_state obs)) = true)
  /\ Forall (fun e => ended e = false) (batch (start_state obs))
  /\ chain (fun s s' => Forall2 (@keeps Window) (batch s) (batch s'))
       (start_state obs) trace.
Proof.
  cbv zeta; unfold rollout_loop; repeat split.
  - apply loop_length.
  - apply loop_stops_when_all_ended.
  - intros Hpos Hnone; apply loop_ends_all_ended; [reflexivity | exact Hpos | exact Hnone].
  - unfold start_state; cbn [batch]; apply Forall_forall.
    intros e He; apply in_map_iff in He; destruct He as [o [<- _]]; reflexivity.
  - apply loop_keeps.
Qed.

(** C7, at failing inputs.  One row, a running objective of 1 before the
    step.  A NaN among the regression terms of lines 613-617 makes the
    objective NaN, and so does a NaN in the bbox and label term of line 647:
    the tests of lines 618 and 648 come after the additions and only print.
    A NaN NSS loss is printed and left out (lines 657-660).  Once the
    objective is NaN, it is NaN after every later step. *)
Theorem nan_term_enters_objective :
  let o := Oracle.TeacherOut (Oracle.PyNdarray (0, 0)) (Oracle.PyFloat 0) 1 (Some 0%nat) in
  let rows := [Row 0 (Prediction (Fin 0, Fin 0) (Fin 0) (Fin 0)) (Some o)] in
  let zeros := fun (_ _ : nat) => (Fin 0, Fin 0, Fin 0, Fin 0) in
  loss_step (Fin 1) (fun _ _ => (NaN, Fin 0, Fin 0, Fin 0)) (fun _ => Fin 0)
    (fun _ _ => None) 0 rows (Fin 1, [])
  = (NaN, [Print0; PrintBox])
  /\ loss_step (Fin 1) zeros (fun _ => NaN) (fun _ _ => None) 0 rows (Fin 1, [])
     = (NaN, [PrintBox])
  /\ loss_step (Fin 1) zeros (fun _ => Fin 0) (fun _ _ => Some NaN) 0 rows (Fin 1, [])
     = (Fin 1, [Print1])
  /\ (forall nss_w progress_regression box_loss nss_loss t rows' log,
        fst (loss_step nss_w progress_regression box_loss nss_loss t rows' (NaN, log)) = NaN).
Proof.
  cbv zeta; repeat split.
  - cbn; do 2 f_equal; lra.
  - intros nss_w pr box nss t rows' log; unfold loss_step.
    assert (Hreg : forall l acc, fst acc = NaN ->
                     fst (fold_left (add_regression pr t) l acc) = NaN).
    { induction l as [| r l IH]; intros acc Hacc; cbn [fold_left]; [exact Hacc |].
      apply IH; unfold add_regression, add_terms.
      destruct (target r) as [o |]; [| exact Hacc].
      destruct (loss_guard (Oracle.action_slot o)); [| exact Hacc].
      destruct (pr t (index r)) as [[[t1 t2] t3] t4]; cbn [fst].
      rewrite Hacc, !fadd_NaN_l; reflexivity. }
    assert (Hnss : forall l acc, fst acc = NaN ->
                     fst (fold_left (add_nss nss_w nss t) l acc) = NaN).
    { induction l as [| r l IH]; intros acc Hacc; cbn [fold_left]; [exact Hacc |].
      apply IH; unfold add_nss.
      destruct (nss t (index r)) as [v |]; [| exact Hacc].
      destruct (fne_self v); cbn [fst]; [exact Hacc |].
      rewrite Hacc, fadd_NaN_l; reflexivity. }
    apply Hnss; unfold add_box; cbn [fst].
    rewrite Hreg by reflexivity; apply fadd_NaN_l.
Qed.

(** The loop of lines 609-619 over the rows is a loop over their indices. *)
Lemma fold_left_rows (A : Type) (f : A -> nat -> A) (model : nat -> nat -> prediction)
  (t n : nat) (targets : option (list Oracle.teacher_out)) (acc : A) :
  fold_left (fun a r => f a (index r)) (rows_of model t n targets) acc
  = fold_left f (seq 0 n) acc.
Proof.
  unfold rows_of; generalize (seq 0 n) as l; intros l; revert acc.
  induction l as [| i l IH]; intros acc; [reflexivity |].
  cbn [map fold_left index]; apply IH.
Qed.

Lemma map2_length (A B C : Type) (f : A -> B -> C) (la : list A) (lb : list B) :
  List.length (map2 f la lb) = Nat.min (List.length la) (List.length lb).
Proof.
  revert lb; induction la as [| a la IH]; intros [| b lb]; cbn [map2 List.length Nat.min];
    try reflexivity.
  rewrite IH; reflexivity.
Qed.

(** Counting the pass changes neither the flags nor the windows. *)
Lemma count_step_reads (Window : Type) (b : list (episode Window)) :
  map (@ended Window) (map (@count_step Window) b) = map (@ended Window) b
  /\ map (@current_view_corners Window) (map (@count_step Window) b)
     = map (@current_view_corners Window) b.
Proof.
  rewrite !map_map; split; apply map_ext; intros [en w d n a ga gp p pc];
    unfold count_step; cbn [ended]; destruct en; reflexivity.
Qed.

(** C10.  Whenever [teacher_action] returns, every action slot holds an
    array, so that the guard of line 611 is true for every sample; the slot
    of a sample judged terminal holds the zero array.  Hence the loop of
    lines 609-619 adds the four regression terms of every index of the
    batch, those of terminal samples included; and a pass of [rollout] whose
    oracle is [teacher_action] leaves in [ml_loss] the objective before the
    pass plus the four terms of every sample, then the bbox term and the NSS
    terms. *)
Theorem loss_guard_always_true (S : Oracle.Shapely) (fb : Oracle.feedback)
  (obs : list Oracle.sample) (outs : list Oracle.teacher_out) :
  Oracle.teacher_action S fb obs = Ok outs ->
  let four_terms (progress_regression : nat -> nat -> fl * fl * fl * fl) (t : nat)
        (a : fl * list printed_line) (i : nat) :=
    let '(t1, t2, t3, t4) := progress_regression t i in
    let ml := fadd (fadd (fadd (fadd (fst a) t1) t2) t3) t4 in
    (ml, note (fne_self ml) Print0 (snd a)) in
  Forall (fun o => Oracle.type_of (Oracle.action_slot o) = Oracle.TNdarray
                   /\ loss_guard (Oracle.action_slot o) = true) outs
  /\ Forall2 (fun s o =>
               Oracle.terminal (Oracle.ended s) (Oracle.gt_progress o) = true ->
               Oracle.action_slot o = Oracle.PyNdarray (0, 0)) obs outs
  /\ (forall model progress_regression t n aligned acc,
        align outs n = Ok aligned ->
        fold_left (add_regression progress_regression t)
          (rows_of model t n (Some aligned)) acc
        = fold_left (four_terms progress_regression t) (seq 0 n) acc)
  /\ (forall max_action_len nss_w model progress_regression box_loss nss_loss advance
             gts t st st',
        obs = Supervision.samples gts (map (@ended _) (batch st))
                (map (@current_view_corners _) (batch st)) ->
        List.length gts = List.length (batch st) ->
        step max_action_len false fb nss_w model (Supervision.teacher_oracle S fb gts)
          progress_regression box_loss nss_loss advance t st = Ok st' ->
        (ml_loss st', printed st')
        = fold_left (add_nss nss_w nss_loss t)
            (rows_of model t (List.length (batch st)) (Some outs))
            (add_box box_loss t
               (fold_left (four_terms progress_regression t)
                  (seq 0 (List.length (batch st))) (ml_loss st, printed st)))).
Proof.
  intros H four_terms.
  pose proof (OracleFacts.teacher_action_slots _ _ _ H) as Hslots.
  assert (Hg : Forall (fun o => Oracle.type_of (Oracle.action_slot o) = Oracle.TNdarray
                                /\ loss_guard (Oracle.action_slot o) = true) outs).
  { clear H; induction Hslots as [| s o obs outs [Ht _] _ IH]; constructor; [| exact IH].
    split; [exact Ht |]; unfold loss_guard; rewrite Ht; reflexivity. }
  assert (Hreg : forall model progress_regression t n aligned acc,
             align outs n = Ok aligned ->
             fold_left (add_regression progress_regression t)
               (rows_of model t n (Some aligned)) acc
             = fold_left (four_terms progress_regression t) (seq 0 n) acc).
  { intros model pr t n aligned acc Ha.
    rewrite (regression_of_every_row model pr t n Ha)
      by (revert Hg; apply Forall_impl; intros o [_ Hguard]; exact Hguard).
    apply (fold_left_rows (add_terms pr t)). }
  split; [exact Hg |]; split; [| split; [exact Hreg |]].
  - revert Hslots; apply Forall2_impl; intros s o [_ Hz]; exact Hz.
  - intros mal nss_w model pr box nss adv gts t st st' Hobs Hlen Hstep.
    assert (Hn : List.length outs = List.length (batch st)).
    { rewrite <- (Forall2_length Hslots), Hobs.
      unfold Supervision.samples; rewrite map2_length, length_combine, !length_map, Hlen.
      rewrite !Nat.min_id; reflexivity. }
    assert (Ha : align outs (List.length (batch st)) = Ok outs).
    { unfold align; rewrite Hn, Nat.leb_refl, <- Hn, firstn_all; reflexivity. }
    unfold step in Hstep; cbv zeta in Hstep.
    destruct (count_step_reads (batch st)) as [He Hc].
    unfold Supervision.teacher_oracle in Hstep; rewrite He, Hc, <- Hobs, H in Hstep.
    cbn [bind] in Hstep; rewrite Ha in Hstep; cbn [bind] in Hstep.
    apply OracleFacts.bind_ok in Hstep; destruct Hstep as [effs [_ Hstep]].
    apply OracleFacts.bind_ok in Hstep; destruct Hstep as [moved [_ Hstep]].
    injection Hstep as <-; cbn [ml_loss printed].
    rewrite <- surjective_pairing; unfold loss_step.
    rewrite (Hreg model pr t _ _ _ Ha); reflexivity.
Qed.

(** One sample whose window is the goal window, so that the oracle judges it
    terminal and returns the zero action: with regression terms 1, 2, 3 and
    4 and a budget of one step, the pass returns and the objective is 10. *)
Lemma loss_guard_always_true_witness :
  let outs := [Oracle.TeacherOut (Oracle.PyNdarray (0, 0))
                 (Oracle.PyFloat (Oracle.teacher_altitude Oracle.here)) 1 (Some 0%nat)] in
  Oracle.teacher_action Oracle.same_answers Oracle.student [Oracle.same_sample] = Ok outs
  /\ Forall2 (fun s o =>
               Oracle.terminal (Oracle.ended s) (Oracle.gt_progress o) = true
               /\ loss_guard (Oracle.action_slot o) = true
               /\ Oracle.action_slot o = Oracle.PyNdarray (0, 0)) [Oracle.same_sample] outs
  /\ exists st',
       step 1 false Oracle.student (Fin 0) (fun _ _ => Prediction (Fin 0, Fin 0) (Fin 0) (Fin 0))
         (Supervision.teacher_oracle Oracle.same_answers Oracle.student [[Oracle.here]])
         (fun _ _ => (Fin 1, Fin 2, Fin 3, Fin 4)) (fun _ => Fin 0) (fun _ _ => None)
         (fun _ _ w d _ => Ok (w, d)) 0 (start_state [(Oracle.here, 0)]) = Ok st'
       /\ ml_loss st' = Fin 10
       /\ printed st' = [].
Proof.
  cbv zeta.
  assert (H : Oracle.teacher_action Oracle.same_answers Oracle.student [Oracle.same_sample]
              = Ok [Oracle.TeacherOut (Oracle.PyNdarray (0, 0))
                      (Oracle.PyFloat (Oracle.teacher_altitude Oracle.here)) 1 (Some 0%nat)]).
  { unfold Oracle.teacher_action; cbn [Oracle.teacher_action_from].
    rewrite OracleFacts.teacher_action_i_same; reflexivity. }
  destruct (loss_guard_always_true _ _ _ H) as [Hg [Hz [_ Hpass]]].
  split; [exact H |]; split.
  - constructor; [| constructor].
    assert (Ht : Oracle.terminal false 1 = true)
      by (unfold Oracle.terminal; rewrite Rltb_true by lra; reflexivity).
    split; [exact Ht |]; split; reflexivity.
  - destruct (step 1 false Oracle.student (Fin 0)
                (fun _ _ => Prediction (Fin 0, Fin 0) (Fin 0) (Fin 0))
                (Supervision.teacher_oracle Oracle.same_answers Oracle.student [[Oracle.here]])
                (fun _ _ => (Fin 1, Fin 2, Fin 3, Fin 4)) (fun _ => Fin 0) (fun _ _ => None)
                (fun _ _ w d _ => Ok (w, d)) 0 (start_state [(Oracle.here, 0)]))
      as [st' | e] eqn:Hstep.
    + exists st'; split; [reflexivity |].
      pose proof (fun E1 E2 =>
                    Hpass _ _ _ _ _ _ _ [[Oracle.here]] _ (start_state [(Oracle.here, 0)]) st'
                      E1 E2 Hstep) as Hl.
      specialize (Hl eq_refl eq_refl).
      cbn [start_state batch map List.length seq fold_left rows_of add_box add_nss
           ml_loss printed fst snd fadd index] in Hl.
      injection Hl as Hm Hp; split.
      * rewrite Hm; f_equal; lra.
      * rewrite Hp; unfold note; cbn [fne_self]; reflexivity.
    + exfalso; revert Hstep.
      unfold step, Supervision.teacher_oracle, Supervision.samples.
      cbn [start_state batch map List.length start count_step ended current_view_corners
           combine map2 fst snd].
      change (Oracle.Sample [Oracle.here] false Oracle.here) with Oracle.same_sample.
      rewrite H; cbn [bind align List.length Nat.leb firstn rows_of seq map map2 log_step
                      ended mapM effective combine interact_step fst snd Nat.sub Nat.eqb].
      unfold interact_step; cbn [Nat.sub Nat.eqb].
      rewrite Bool.orb_true_r; cbn [bind mapM]; discriminate.
Defined.

(** *** A run of the loop *)

Lemma clip01_inside (x : R) : 0 <= x <= 1 -> clip01 (Fin x) = Fin x.
Proof.
  intros [H0 H1]; unfold clip01, pymax2, pymin2; cbn [flt].
  destruct (Rlt_dec 0 x) as [Hx | Hx].
  - rewrite (Rltb_true Hx); cbn [flt].
    destruct (Rlt_dec x 1) as [Hx1 | Hx1].
    + rewrite (Rltb_true Hx1); reflexivity.
    + rewrite (Rltb_false Hx1); f_equal; lra.
  - rewrite (Rltb_false Hx); cbn [flt].
    rewrite Rltb_true by lra; f_equal; lra.
Qed.

(** With [model_run] the loop makes two of its three passes: the flag is
    set by the second pass, which still appends the action it took and no
    longer appends a window. *)
Lemma rollout_loop_run :
  map (fun st => map (fun e => (@ended nat e, List.length (actions e),
                                  List.length (path_corners e))) (batch st))
    (fst (rollout_loop 3 true Oracle.student (Fin 0) model_run
            (fun _ _ _ => Ok []) (fun _ _ => (Fin 0, Fin 0, Fin 0, Fin 0))
            (fun _ => Fin 0) (fun _ _ => None)
            (fun _ _ w d _ => Ok (S w, d)) [(0%nat, 0)]))
  = [[(false, 1%nat, 2%nat)]; [(true, 2%nat, 2%nat)]].
Proof.
  unfold rollout_loop, start_state, start, Rollout.loop, Rollout.step, model_run.
  cbn -[Rltb Rabs Rdiv IZR Rmult Rplus clip01 clamp_prediction interact_step].
  rewrite !clip01_inside by lra.
  unfold Rollout.interact_step; cbn [snd fst fgt flt].
  GeometryFacts.decide_tests.
  cbn -[Rltb Rabs Rdiv IZR Rmult Rplus clip01 clamp_prediction].
  rewrite !clip01_inside by lra.
  cbn [snd fst fgt flt].
  GeometryFacts.decide_tests.
  cbn -[Rltb Rabs Rdiv IZR Rmult Rplus clip01 clamp_prediction].
  reflexivity.
Qed.

End RolloutFacts.

(** ** Python's [%] and [round], continued *)

Lemma pymod_range (x m : R) : 0 < m -> 0 <= pymod x m < m.
Proof.
  intros Hm; unfold pymod.
  destruct (base_Int_part (x / m)) as [Hlo Hhi].
  assert (Hx : x = m * (x / m)) by (field; lra).
  set (q := IZR (Int_part (x / m))) in *.
  split; nra.
Qed.

(** [x % m] is the [r] in [0, m) that differs from [x] by a multiple of [m]. *)
Lemma pymod_is (x m r : R) (k : Z) :
  0 < m -> x = IZR k * m + r -> 0 <= r < m -> pymod x m = r.
Proof.
  intros Hm Hx Hr; unfold pymod.
  assert (Hk : k = Int_part (x / m)).
  { apply Int_part_spec.
    assert (Hq : x / m = IZR k + r / m) by (subst x; field; lra).
    rewrite Hq.
    assert (0 <= r / m < 1).
    { split; [apply Rmult_le_pos; [lra | left; apply Rinv_0_lt_compat; lra] |].
      apply Rmult_lt_reg_r with m; [lra |].
      unfold Rdiv; rewrite Rmult_assoc, Rinv_l by lra; lra. }
    lra. }
  rewrite <- Hk; lra.
Qed.



(** [round] stays on the side of an integer and within a half of its argument. *)
Lemma pyround_ge (x : R) (z : Z) : IZR z <= x -> (z <= pyround x)%Z.
Proof.
  intros H; destruct (base_Int_part x) as [Hlo Hhi].
  assert (Hz : (z <= Int_part x)%Z).
  { apply Z.lt_succ_r, lt_IZR; rewrite succ_IZR; lra. }
  unfold pyround; cbv zeta.
  destruct (Rltb _ _); [assumption |].
  destruct (Rltb _ _); [lia |].
  destruct (Z.even _); lia.
Qed.

Lemma pyround_le (x : R) (z : Z) : x <= IZR z -> (pyround x <= z)%Z.
Proof.
  intros H; destruct (base_Int_part x) as [Hlo Hhi].
  destruct (Req_dec_T x (IZR z)) as [-> | Hne].
  - rewrite pyround_IZR; lia.
  - assert (Hz : (Int_part x < z)%Z) by (apply lt_IZR; lra).
    unfold pyround; cbv zeta.
    destruct (Rltb _ _); [lia |].
    destruct (Rltb _ _); [lia |].
    destruct (Z.even _); lia.
Qed.


Lemma pyround_monotone (x y : R) : x <= y -> (pyround x <= pyround y)%Z.
Proof.
  intros Hxy.
  destruct (base_Int_part x) as [Hxlo Hxhi].
  destruct (base_Int_part y) as [Hylo Hyhi].
  assert (Hf : (Int_part x <= Int_part y)%Z).
  { apply Z.lt_succ_r, lt_IZR; rewrite succ_IZR; lra. }
  destruct (Z.eq_dec (Int_part x) (Int_part y)) as [He | Hne].
  - unfold pyround; cbv zeta; rewrite <- He.
    destruct (Rltb (x - IZR (Int_part x)) (1 / 2)) eqn:X1.
    + destruct (Rltb (y - _) _); [lia |].
      destruct (Rltb _ (y - _)); [lia |].
      destruct (Z.even _); lia.
    + assert (~ x - IZR (Int_part x) < 1 / 2)
        by (intros C; apply Rltb_spec in C; congruence).
      rewrite (@Rltb_false (y - IZR (Int_part x)) (1 / 2)) by lra.
      destruct (Rltb (1 / 2) (x - IZR (Int_part x))) eqn:X2.
      * apply Rltb_spec in X2.
        rewrite (@Rltb_true (1 / 2) (y - IZR (Int_part x))) by lra; lia.
      * destruct (Rltb (1 / 2) (y - IZR (Int_part x))); [destruct (Z.even _); lia |].
        destruct (Z.even _); lia.
  - apply Z.le_trans with (Int_part y); [| apply pyround_ge; lra].
    apply pyround_le.
    apply Rle_trans with (IZR (Int_part x + 1)); [rewrite plus_IZR; lra |].
    apply IZR_le; lia.
Qed.


(** ** get_direction and move_view_corners, continued *)

Module ViewFacts.
Import Float.
Import FloatFacts.
Import Geometry.
Import GeometryFacts.
Import Action.

(** *** Bearings *)

Lemma pymod_450 : pymod 450 360 = 90.
Proof. apply pymod_is with (k := 1%Z); lra. Qed.

Lemma pymod_180 : pymod 180 360 = 180.
Proof. apply pymod_small; lra. Qed.

Lemma pymod_270 : pymod 270 360 = 270.
Proof. apply pymod_small; lra. Qed.

(** [get_direction] is a compass bearing in degrees: a vector that points to
    a larger first coordinate (north) has direction 0, one that points to a
    larger second coordinate (east) has direction 90, south is 180 and west
    is 270, whatever the length of the vector.  The direction from a point to
    itself is 180. *)
Theorem get_direction_compass (start : rpt) (d : R) :
  0 < d ->
  get_direction start (fst start + d, snd start) = 0
  /\ get_direction start (fst start, snd start + d) = 90
  /\ get_direction start (fst start - d, snd start) = 180
  /\ get_direction start (fst start, snd start - d) = 270
  /\ get_direction start start = 180.
Proof.
  intros Hd; destruct start as [a b]; unfold get_direction, rsub; cbn [fst snd].
  replace (a + d - a) with d by lra.
  replace (a - d - a) with (- d) by lra.
  replace (b + d - b) with d by lra.
  replace (b - d - b) with (- d) by lra.
  replace (a - a) with 0 by lra.
  replace (b - b) with 0 by lra.
  decide_tests.
  replace (0 / d) with 0 by (field; lra).
  replace (0 / - d) with 0 by (field; lra).
  rewrite atan_0.
  replace (360 - 90 + 90) with 360 by lra.
  replace (360 - 0 / 1.57 * 90 + 90) with 450 by lra.
  replace (360 - 270 + 90) with 180 by lra.
  replace (360 - (0 / 1.57 * 90 + 180) + 90) with 270 by lra.
  rewrite pymod_360_360, pymod_450, pymod_180, pymod_270.
  repeat split; reflexivity.
Qed.

Lemma get_direction_compass_witness :
  get_direction (0, 0) (0 + 1, 0) = 0
  /\ get_direction (0, 0) (0, 0 + 1) = 90
  /\ get_direction (0, 0) (0 - 1, 0) = 180
  /\ get_direction (0, 0) (0, 0 - 1) = 270
  /\ get_direction (0, 0) (0, 0) = 180.
Proof. apply (@get_direction_compass (0, 0) 1); lra. Defined.





(** *** The window and the map *)


(** *** What the three stages do to a window *)









Lemma parallelogram_coords (w : quad rpt) :
  parallelogram w ->
  fst (c2 w) = fst (c1 w) - fst (c0 w) + fst (c3 w)
  /\ snd (c2 w) = snd (c1 w) - snd (c0 w) + snd (c3 w).
Proof.
  unfold parallelogram, rsub; intros H; inversion H; split; lra.
Qed.









Lemma cos2_sin2_one (t : R) : cos t * cos t + sin t * sin t = 1.
Proof. pose proof (sin2_cos2 t) as H; unfold Rsqr in H; lra. Qed.

(** The corner that the rotate stage makes of [c], for the centre [m]. *)
Lemma rotate_point_val (m c : rpt) (angle : R) :
  let t := - angle / 180 * 3.14159 in
  padd (inj_pt m) (rotation_anticlock (- angle) (psub (inj_pt c) (inj_pt m)))
  = inj_pt (fst m + (cos t * (fst c - fst m) + sin t * (snd c - snd m)),
            snd m + (- sin t * (fst c - fst m) + cos t * (snd c - snd m))).
Proof. reflexivity. Qed.

Lemma rotate_point_dist (m p q : rpt) (t : R) :
  Oracle.dist_to
    (fst m + (cos t * (fst q - fst m) + sin t * (snd q - snd m)),
     snd m + (- sin t * (fst q - fst m) + cos t * (snd q - snd m)))
    (fst m + (cos t * (fst p - fst m) + sin t * (snd p - snd m)),
     snd m + (- sin t * (fst p - fst m) + cos t * (snd p - snd m)))
  = Oracle.dist_to q p.
Proof.
  unfold Oracle.dist_to, Oracle.rnorm, rsub; cbn [fst snd]; f_equal.
  pose proof (cos2_sin2_one t) as H.
  set (c := cos t) in *; set (s := sin t) in *.
  set (dx := fst p - fst q); set (dy := snd p - snd q).
  replace (fst m + (c * (fst p - fst m) + s * (snd p - snd m))
           - (fst m + (c * (fst q - fst m) + s * (snd q - snd m))))
    with (c * dx + s * dy) by (unfold dx, dy; ring).
  replace (snd m + (- s * (fst p - fst m) + c * (snd p - snd m))
           - (snd m + (- s * (fst q - fst m) + c * (snd q - snd m))))
    with (- s * dx + c * dy) by (unfold dx, dy; ring).
  replace ((c * dx + s * dy) * (c * dx + s * dy) + (- s * dx + c * dy) * (- s * dx + c * dy))
    with ((c * c + s * s) * (dx * dx + dy * dy)) by ring.
  rewrite H; ring.
Qed.

(** The rotate stage on a window of finite corners. *)
Lemma rotate_stage_facts (w : quad rpt) (angle : R) :
  exists w' : quad rpt,
    rotate_stage (inj w) angle = inj w'
    /\ rmean w' = rmean w
    /\ (forall (i j : nat) (p q p' q' : rpt),
         nth_error (rows w) i = Some p -> nth_error (rows w) j = Some q ->
         nth_error (rows w') i = Some p' -> nth_error (rows w') j = Some q' ->
         Oracle.dist_to q' p' = Oracle.dist_to q p)
    /\ (parallelogram w -> parallelogram w').
Proof.
  unfold rotate_stage; rewrite pmean_inj.
  unfold inj at 1 2 3 4; cbn [c0 c1 c2 c3].
  rewrite !rotate_point_val; cbv zeta.
  set (t := - angle / 180 * 3.14159).
  set (m := rmean w).
  pose (rot := fun c : rpt =>
                 (fst m + (cos t * (fst c - fst m) + sin t * (snd c - snd m)),
                  snd m + (- sin t * (fst c - fst m) + cos t * (snd c - snd m)))).
  exists (Quad (rot (c0 w)) (rot (c1 w)) (rot (c2 w)) (rot (c3 w))).
  split; [reflexivity |]; split; [| split].
  - unfold rot, m, rmean; cbn [c0 c1 c2 c3 fst snd]; f_equal; field.
  - intros i j p q p' q' Hp Hq Hp' Hq'.
    destruct i as [| [| [| [| i]]]]; cbn [nth_error rows c0 c1 c2 c3] in Hp, Hp';
      try (destruct i; discriminate);
      destruct j as [| [| [| [| j]]]]; cbn [nth_error rows c0 c1 c2 c3] in Hq, Hq';
      try (destruct j; discriminate);
      inversion Hp; inversion Hq; inversion Hp'; inversion Hq'; subst p q p' q';
      apply (rotate_point_dist m).
  - intros Hp; destruct (parallelogram_coords Hp) as [Hx Hy].
    unfold parallelogram, rot, rsub; cbn [c0 c1 c2 c3 fst snd].
    rewrite Hx, Hy; f_equal; ring.
Qed.

(** The rotate stage is a rigid motion about the centre of the window: the
    centre stays where it is and the distance between any two corners is
    unchanged, whatever the angle. *)
Theorem rotate_is_rigid (w : quad rpt) (angle : R) :
  exists w' : quad rpt,
    rotate_stage (inj w) angle = inj w'
    /\ rmean w' = rmean w
    /\ forall (i j : nat) (p q p' q' : rpt),
         nth_error (rows w) i = Some p -> nth_error (rows w) j = Some q ->
         nth_error (rows w') i = Some p' -> nth_error (rows w') j = Some q' ->
         Oracle.dist_to q' p' = Oracle.dist_to q p.
Proof.
  destruct (rotate_stage_facts w angle) as [w' [E [Hm [Hd _]]]].
  exists w'; repeat split; assumption.
Qed.








(** *** A call in which every stage succeeds *)




End ViewFacts.

(** ** The bbox utilities *)

Module BoxesFacts.
Import Boxes.

Lemma map_id_on {A : Type} (f : A -> A) (l : list A) :
  (forall a, f a = a) -> map f l = l.
Proof.
  intros H; induction l as [| a l IH]; cbn [map]; [reflexivity |].
  rewrite H, IH; reflexivity.
Qed.

Lemma xyxy_of_cxcywh (bbox : list box) :
  bbox_xyxy_to_cxcywh (bbox_cxcywh_to_xyxy bbox) = bbox.
Proof.
  unfold bbox_xyxy_to_cxcywh, bbox_cxcywh_to_xyxy; rewrite map_map.
  apply map_id_on; intros [[[cx cy] w] h].
  f_equal; [f_equal; [f_equal |] |]; lra.
Qed.

Lemma cxcywh_of_xyxy (bbox : list box) :
  bbox_cxcywh_to_xyxy (bbox_xyxy_to_cxcywh bbox) = bbox.
Proof.
  unfold bbox_xyxy_to_cxcywh, bbox_cxcywh_to_xyxy; rewrite map_map.
  apply map_id_on; intros [[[x1 y1] x2] y2].
  f_equal; [f_equal; [f_equal |] |]; lra.
Qed.




(** The two conversions are inverse to each other: a box given by its
    corners, turned into centre and size and back, is the box itself, and a
    box given by centre and size, turned into corners and back, is the box
    itself (on real numbers, without the rounding of float32). *)
Theorem bbox_conversions_inverse (bbox : list box) :
  bbox_cxcywh_to_xyxy (bbox_xyxy_to_cxcywh bbox) = bbox
  /\ bbox_xyxy_to_cxcywh (bbox_cxcywh_to_xyxy bbox) = bbox.
Proof. split; [apply cxcywh_of_xyxy | apply xyxy_of_cxcywh]. Qed.


Lemma sigmoid_range (x : R) : 0 < sigmoid x < 1.
Proof.
  unfold sigmoid; pose proof (exp_pos (- x)) as He.
  split.
  - apply Rdiv_lt_0_compat; lra.
  - apply Rmult_lt_reg_r with (1 + exp (- x)); [lra |].
    unfold Rdiv; rewrite Rmult_assoc, Rinv_l by lra; lra.
Qed.

(** For finite logits, the box that the IoU loss sees has its first corner
    not below and not to the right of its second corner, and it can stick
    out of the 224 x 224 image by up to half an image on each side: its
    first corner lies in [-112, 224] and its second corner in [0, 336].  The
    bounds are closed: a float32 sigmoid is exactly 0 or 1 for a logit that
    is large enough, and then they are attained. *)
Theorem predicted_box_extent (bbox_logits : list box) :
  Forall (fun b : box =>
            let '(x1, y1, x2, y2) := b in
            x1 <= x2 /\ y1 <= y2
            /\ -112 <= x1 <= 224 /\ -112 <= y1 <= 224
            /\ 0 <= x2 <= 336 /\ 0 <= y2 <= 336)
         (bbox_pre_xyxy (bbox_pre bbox_logits)).
Proof.
  unfold bbox_pre_xyxy, times, bbox_cxcywh_to_xyxy, bbox_pre; rewrite !map_map.
  apply Forall_forall; intros b Hb; apply in_map_iff in Hb.
  destruct Hb as [[[[a c] d] e] [<- _]].
  pose proof (sigmoid_range a); pose proof (sigmoid_range c).
  pose proof (sigmoid_range d); pose proof (sigmoid_range e).
  repeat split; lra.
Qed.

End BoxesFacts.

(** ** gps_to_img_coords *)

Module PixelsFacts.
Import Float.
Import FloatFacts.
Import Geometry.
Import Pixels.

Lemma round_quotient (x r : R) :
  r <> 0 -> round_float (fdiv (Fin x) (Fin r)) = Returns (pyround (x / r)).
Proof. intros Hr; rewrite fdiv_fin by assumption; reflexivity. Qed.

Lemma gps_to_img_coords_val (gps bl tr : rpt) (lat_ratio : R) :
  lat_ratio <> 0 ->
  gps_to_img_coords gps bl tr lat_ratio
  = Returns (pyround ((snd gps - snd bl) / lat_ratio),
             pyround ((fst tr - fst gps) / lat_ratio)).
Proof.
  intros Hr; unfold gps_to_img_coords.
  rewrite !round_quotient by assumption; reflexivity.
Qed.

(** With a positive [lat_ratio], the north-west corner of the map is pixel
    (0, 0), and a point on the map gets a pixel between (0, 0) and the pixel
    of the south-east corner: the first pixel coordinate grows with the
    second gps coordinate, the second pixel coordinate grows as the first gps
    coordinate decreases. *)
Theorem gps_to_img_coords_on_map (gps bl tr : rpt) (lat_ratio : R) :
  0 < lat_ratio ->
  fst bl <= fst gps <= fst tr ->
  snd bl <= snd gps <= snd tr ->
  gps_to_img_coords (fst tr, snd bl) bl tr lat_ratio = Returns (0, 0)%Z
  /\ exists x y w h : Z,
       gps_to_img_coords gps bl tr lat_ratio = Returns (x, y)
       /\ gps_to_img_coords (fst bl, snd tr) bl tr lat_ratio = Returns (w, h)
       /\ (0 <= x <= w)%Z /\ (0 <= y <= h)%Z.
Proof.
  intros Hr Hlat Hlng.
  assert (Hinv : 0 < / lat_ratio) by (apply Rinv_0_lt_compat; assumption).
  rewrite !gps_to_img_coords_val by lra; cbn [fst snd].
  split.
  - replace ((snd bl - snd bl) / lat_ratio) with (IZR 0) by (field; lra).
    replace ((fst tr - fst tr) / lat_ratio) with (IZR 0) by (field; lra).
    rewrite pyround_IZR; reflexivity.
  - do 4 eexists; split; [reflexivity |]; split; [reflexivity |].
    repeat split.
    + apply pyround_ge; unfold Rdiv; apply Rmult_le_pos; lra.
    + apply pyround_monotone; unfold Rdiv; apply Rmult_le_compat_r; lra.
    + apply pyround_ge; unfold Rdiv; apply Rmult_le_pos; lra.
    + apply pyround_monotone; unfold Rdiv; apply Rmult_le_compat_r; lra.
Qed.

Lemma gps_to_img_coords_on_map_witness :
  gps_to_img_coords (fst (10, 10), snd (-10, -10)) (-10, -10) (10, 10) 0.5
  = Returns (0, 0)%Z
  /\ exists x y w h : Z,
       gps_to_img_coords (1, 2) (-10, -10) (10, 10) 0.5 = Returns (x, y)
       /\ gps_to_img_coords (fst (-10, -10), snd (10, 10)) (-10, -10) (10, 10) 0.5
          = Returns (w, h)
       /\ (0 <= x <= w)%Z /\ (0 <= y <= h)%Z.
Proof.
  apply (@gps_to_img_coords_on_map (1, 2) (-10, -10) (10, 10) 0.5); cbn [fst snd]; lra.
Defined.



(** With [lat_ratio] equal to zero the function never returns: the quotient
    is an infinity, which [round] refuses with an OverflowError, or NaN when
    the point is on the west edge, which [round] refuses with a ValueError. *)
Theorem gps_to_img_coords_zero_ratio (gps bl tr : rpt) :
  gps_to_img_coords gps bl tr 0
  = if Reqb (snd gps) (snd bl) then Raises (Builtin ValueError) else Raises OverflowError.
Proof.
  unfold gps_to_img_coords, fdiv.
  rewrite (@Reqb_true 0 0) by reflexivity.
  unfold inf_of_sign.
  destruct (Req_dec_T (snd gps) (snd bl)) as [E | E].
  - rewrite (Reqb_true E), E.
    rewrite !Rltb_false by lra; reflexivity.
  - rewrite (Reqb_false E).
    destruct (Rlt_dec 0 (snd gps - snd bl)) as [H | H].
    + rewrite (Rltb_true H); reflexivity.
    + rewrite (Rltb_false H), Rltb_true by lra; reflexivity.
Qed.

End PixelsFacts.

(** ** The action that moves the window *)

Module ActionFacts.
Import Float.
Import FloatFacts.
Import Geometry.
Import GeometryFacts.
Import Rollout.
Import Action.

(** *** Clipping and clamping of the prediction *)

(** The clipping of lines 598 and 600 always gives a number between 0 and 1:
    NaN and everything below 0 become 0, everything above 1 becomes 1. *)
Theorem clip01_range (a : fl) :
  exists r : R,
    clip01 a = Fin r /\ 0 <= r <= 1
    /\ (a = NaN -> r = 0) /\ (a = PInf -> r = 1) /\ (a = NInf -> r = 0)
    /\ (forall x, a = Fin x -> r = Rmin 1 (Rmax 0 x)).
Proof.
  unfold clip01, pymin2, pymax2; destruct a as [x | | |]; cbn [flt].
  - destruct (Rlt_dec 0 x) as [H0 | H0].
    + rewrite (Rltb_true H0); cbn [flt].
      destruct (Rlt_dec x 1) as [H1 | H1].
      * rewrite (Rltb_true H1); exists x.
        repeat split; try lra; try discriminate.
        intros y E; injection E as <-.
        rewrite (Rmax_right 0 x), Rmin_right by lra; reflexivity.
      * rewrite (Rltb_false H1); exists 1.
        repeat split; try lra; try discriminate.
        intros y E; injection E as <-.
        rewrite (Rmax_right 0 x), Rmin_left by lra; reflexivity.
    + rewrite (Rltb_false H0); cbn [flt]; rewrite Rltb_true by lra; exists 0.
      repeat split; try lra; try discriminate.
      intros y E; injection E as <-.
      rewrite (Rmax_left 0 x), Rmin_right by lra; reflexivity.
  - exists 1; repeat split; try lra; try discriminate; reflexivity.
  - rewrite Rltb_true by lra; exists 0; repeat split; try lra; discriminate.
  - rewrite Rltb_true by lra; exists 0; repeat split; try lra; discriminate.
Qed.

Lemma pymax2_fin (x y : R) : pymax2 (Fin x) (Fin y) = Fin (Rmax x y).
Proof.
  unfold pymax2; cbn [flt].
  destruct (Rlt_dec x y) as [H | H].
  - rewrite (Rltb_true H), Rmax_right by lra; reflexivity.
  - rewrite (Rltb_false H), Rmax_left by lra; reflexivity.
Qed.

(** The clamping of lines 588-591 on a finite prediction. *)
Lemma clamp_prediction_fin (x y : R) :
  let m := Rmax (Rmax (Rabs x) (Rabs y)) 1 in
  clamp_prediction (Fin x, Fin y) = (Fin (x / m), Fin (y / m)) /\ 1 <= m
  /\ Rabs x <= m /\ Rabs y <= m.
Proof.
  cbv zeta; unfold clamp_prediction; cbn [fst snd fabs].
  rewrite !pymax2_fin.
  set (m := Rmax (Rmax (Rabs x) (Rabs y)) 1).
  assert (Hm : 1 <= m) by apply Rmax_r.
  assert (Hx : Rabs x <= m)
    by (apply Rle_trans with (Rmax (Rabs x) (Rabs y)); [apply Rmax_l | apply Rmax_l]).
  assert (Hy : Rabs y <= m)
    by (apply Rle_trans with (Rmax (Rabs x) (Rabs y)); [apply Rmax_r | apply Rmax_l]).
  rewrite !fdiv_fin by lra.
  repeat split; assumption.
Qed.

Lemma Rabs_quotient_le_1 (x m : R) : Rabs x <= m -> 1 <= m -> -1 <= x / m <= 1.
Proof.
  intros Hx Hm.
  assert (Hinv : 0 < / m) by (apply Rinv_0_lt_compat; lra).
  assert (Hb : - m <= x <= m)
    by (unfold Rabs in Hx; destruct (Rcase_abs x); lra).
  assert (E : m * / m = 1) by (apply Rinv_r; lra).
  unfold Rdiv; split; nra.
Qed.

(** The waypoint that the student hands on lies in the square [-1, 1] x
    [-1, 1] whenever the two predicted numbers are finite; a prediction
    inside the square is handed on unchanged, and clamping twice is clamping
    once. *)
Theorem clamp_prediction_bounded (x y : R) :
  exists u v : R,
    clamp_prediction (Fin x, Fin y) = (Fin u, Fin v)
    /\ -1 <= u <= 1 /\ -1 <= v <= 1
    /\ (Rabs x <= 1 -> Rabs y <= 1 -> u = x /\ v = y)
    /\ clamp_prediction (Fin u, Fin v) = (Fin u, Fin v).
Proof.
  destruct (clamp_prediction_fin x y) as [E [Hm [Hx Hy]]]; cbv zeta in E.
  set (m := Rmax (Rmax (Rabs x) (Rabs y)) 1) in *.
  exists (x / m), (y / m).
  pose proof (@Rabs_quotient_le_1 x m Hx Hm) as Hu.
  pose proof (@Rabs_quotient_le_1 y m Hy Hm) as Hv.
  split; [exact E |]; split; [exact Hu |]; split; [exact Hv |]; split.
  - intros Hx1 Hy1.
    assert (Em : m = 1).
    { unfold m; rewrite Rmax_right; [reflexivity |].
      apply Rmax_lub; assumption. }
    rewrite Em; split; lra.
  - destruct (clamp_prediction_fin (x / m) (y / m)) as [E' _]; cbv zeta in E'.
    rewrite E'.
    assert (Em : Rmax (Rmax (Rabs (x / m)) (Rabs (y / m))) 1 = 1).
    { rewrite Rmax_right; [reflexivity |].
      apply Rmax_lub; apply Rabs_le; assumption. }
    rewrite Em; f_equal; f_equal; lra.
Qed.

(** *** Decoding the action *)

Lemma clip01_fin (a : fl) : exists r : R, clip01 a = Fin r /\ 0 <= r <= 1.
Proof.
  unfold clip01, pymin2, pymax2; destruct a as [x | | |]; cbn [flt].
  - destruct (Rlt_dec 0 x) as [H0 | H0].
    + rewrite (Rltb_true H0); cbn [flt].
      destruct (Rlt_dec x 1) as [H1 | H1].
      * rewrite (Rltb_true H1); exists x; split; [reflexivity | lra].
      * rewrite (Rltb_false H1); exists 1; split; [reflexivity | lra].
    + rewrite (Rltb_false H0); cbn [flt]; rewrite Rltb_true by lra.
      exists 0; split; [reflexivity | lra].
  - exists 1; split; [reflexivity | lra].
  - rewrite Rltb_true by lra; exists 0; split; [reflexivity | lra].
  - rewrite Rltb_true by lra; exists 0; split; [reflexivity | lra].
Qed.

Lemma a_direction_fin (u v : R) :
  exists t : R, a_direction (Fin u, Fin v) = Fin t /\ 0 <= t < 1.
Proof.
  unfold a_direction, fatan2; cbn [fst snd].
  eexists; split; [reflexivity | apply pymod_range; lra].
Qed.

Lemma round_times_360 (t : R) :
  0 <= t <= 1 ->
  exists z : Z, round_float (fmul (Fin t) (Fin 360)) = Returns z /\ (0 <= z <= 360)%Z.
Proof.
  intros Ht; cbn [fmul round_float].
  eexists; split; [reflexivity |]; split.
  - apply pyround_ge; lra.
  - apply pyround_le; lra.
Qed.

Lemma norm_in_square (u v : R) :
  -1 <= u <= 1 -> -1 <= v <= 1 -> 0 <= sqrt (u * u + v * v) <= sqrt 2.
Proof.
  intros Hu Hv; split; [apply sqrt_pos |].
  apply sqrt_le_1_alt; nra.
Qed.

(** For a finite prediction, the action of the student is decoded without an
    exception: the angle is a whole number of degrees from 0 to 360, the
    altitude a whole number from 40 to 400, and the distance is at most the
    half diagonal of a square on the reference edge, whatever the model
    predicts for the altitude; the step then returns what
    [move_view_corners] makes of them. *)
Theorem student_action_in_range (x y : R) (pred_altitude : fl)
  (current_view_corners : quad rpt) (current_direction : R) (bl tr : rpt) :
  let a_t := ModelAction (clamp_prediction (Fin x, Fin y)) (clip01 pred_altitude) in
  exists (angle altitude : Z) (distance : R),
    decode a_t current_view_corners = Returns (angle, Fin distance, altitude)
    /\ (0 <= angle <= 360)%Z
    /\ (40 <= altitude <= 400)%Z
    /\ 0 <= distance
       <= sqrt 2 / 2
          * Oracle.rnorm (rsub (c0 current_view_corners) (c1 current_view_corners))
    /\ advance current_view_corners current_direction a_t bl tr
       = Returns (move_view_corners current_view_corners (IZR angle) (Fin distance)
                    (IZR altitude) bl tr (Some current_direction)).
Proof.
  cbv zeta.
  destruct (clamp_prediction_fin x y) as [E [Hm [Hx Hy]]]; cbv zeta in E.
  set (m := Rmax (Rmax (Rabs x) (Rabs y)) 1) in *.
  pose proof (@Rabs_quotient_le_1 x m Hx Hm) as Hu.
  pose proof (@Rabs_quotient_le_1 y m Hy Hm) as Hv.
  destruct (clip01_fin pred_altitude) as [r [Er Hr]].
  destruct (a_direction_fin (x / m) (y / m)) as [t [Et Ht]].
  destruct (@round_times_360 t) as [angle [Ea Ha]]; [lra |].
  destruct (@round_times_360 r) as [alt [Eal Hal]]; [lra |].
  assert (Hdec : decode (ModelAction (clamp_prediction (Fin x, Fin y)) (clip01 pred_altitude))
                   current_view_corners
                 = Returns (angle,
                            Fin (sqrt (x / m * (x / m) + y / m * (y / m))
                                 * (Oracle.rnorm (rsub (c0 current_view_corners)
                                                       (c1 current_view_corners)) / 2)),
                            (alt + 40)%Z)).
  { unfold decode; rewrite E, Er; cbn [action_parts lift and_then fst snd].
    rewrite Et, Ea; cbn [and_then]; rewrite Eal; cbn [and_then].
    unfold a_distance; rewrite norm_fin; reflexivity. }
  exists angle, (alt + 40)%Z; eexists; split; [exact Hdec |].
  split; [exact Ha |]; split; [lia |]; split.
  - pose proof (norm_in_square Hu Hv) as Hn.
    assert (He : 0 <= Oracle.rnorm (rsub (c0 current_view_corners) (c1 current_view_corners)))
      by apply sqrt_pos.
    set (e := Oracle.rnorm _) in *; set (n := sqrt (_ + _)) in *.
    split; nra.
  - unfold advance; rewrite Hdec; reflexivity.
Qed.

(** A prediction with a NaN or an infinity among its two numbers makes the
    decoding raise a ValueError: the clamping turns it into a waypoint with a
    NaN, the direction is NaN, and [round] refuses it. *)
Theorem nonfinite_prediction_raises (p : pt) (a_altitude : fl)
  (current_view_corners : quad rpt) :
  finite (fst p) && finite (snd p) = false ->
  decode (ModelAction (clamp_prediction p) a_altitude) current_view_corners
  = Raises (Builtin ValueError).
Proof.
  intros Hp.
  assert (H : a_direction (clamp_prediction p) = NaN).
  { destruct p as [[x | | |] [y | | |]]; try discriminate Hp;
      unfold a_direction, clamp_prediction; cbn [fst snd fabs];
      rewrite ?pymax2_fin; unfold pymax2; cbn [flt fdiv];
      rewrite ?pymax2_fin; cbn [flt fdiv];
      try reflexivity.
    destruct (Rltb (Rabs x) 1); destruct (Reqb _ 0); unfold inf_of_sign;
      repeat destruct (Rltb _ _); reflexivity. }
  unfold decode; cbn [action_parts lift and_then fst snd].
  rewrite H; reflexivity.
Qed.

Lemma nonfinite_prediction_raises_witness :
  decode (ModelAction (clamp_prediction (NaN, Fin 0)) (Fin 0)) north_window
  = Raises (Builtin ValueError).
Proof.
  apply (@nonfinite_prediction_raises (NaN, Fin 0) (Fin 0) north_window); reflexivity.
Defined.


End ActionFacts.

(** ** The records of a trajectory *)

Module TrajectoryFacts.
Import Float.
Import FloatFacts.
Import Rollout.
Import RolloutFacts.
Import Trajectory.

Section Loop.

Variable Window : Type.
Variable max_action_len : nat.
Variable is_test : bool.
Variable fb : Oracle.feedback.
Variable nss_w : fl.
Variable model : nat -> nat -> prediction.
Variable oracle : nat -> list bool -> list Window -> result (list Oracle.teacher_out).
Variable progress_regression : nat -> nat -> fl * fl * fl * fl.
Variable box_loss : nat -> fl.
Variable nss_loss : nat -> nat -> option fl.
Variable advance : nat -> nat -> Window -> R -> effective_action -> result (Window * R).

Local Abbreviation episode := (Rollout.episode Window).
Local Abbreviation state := (Rollout.state Window).
Local Abbreviation save_step := (@Rollout.save_step Window).
Local Abbreviation count_step := (@Rollout.count_step Window).
Local Abbreviation log_step := (@Rollout.log_step Window).
Local Abbreviation interact_step := (Rollout.interact_step max_action_len advance).
Local Abbreviation rows_of := (Rollout.rows_of model).
Local Abbreviation step :=
  (Rollout.step max_action_len is_test fb nss_w model oracle progress_regression
     box_loss nss_loss advance).
Local Abbreviation loop :=
  (Rollout.loop max_action_len is_test fb nss_w model oracle progress_regression
     box_loss nss_loss advance).

(** *** A property of the samples that every pass hands on *)

Lemma pipeline_rel (P : episode -> episode -> Prop) (t : nat) :
  (forall e e' r a,
     row_fits is_test r ->
     interact_step t (log_step (count_step e) r) r a = Ok e' -> P e (save_step e')) ->
  forall (b : list episode) (rows : list row) (effs : list (effective_action * fl))
         (moved : list episode),
    Forall (row_fits is_test) rows ->
    List.length rows = List.length b ->
    List.length effs = List.length b ->
    mapM (fun x => interact_step t (fst (fst x)) (snd (fst x)) (snd x))
      (combine (combine (map2 log_step (map count_step b) rows) rows) effs) = Ok moved ->
    Forall2 P b (map save_step moved).
Proof.
  intros HP; induction b as [| e b IH]; intros rows effs moved Hfit Hr He H.
  - destruct rows; [| discriminate].
    cbn in H; injection H as <-; constructor.
  - destruct rows as [| r rows]; [discriminate |].
    destruct effs as [| a effs]; [discriminate |].
    cbn [map map2 combine mapM fst snd] in H.
    apply OracleFacts.bind_ok in H; destruct H as [e' [He' H]].
    apply OracleFacts.bind_ok in H; destruct H as [moved' [Hmoved H]].
    injection H as <-; cbn [map]; inversion Hfit; subst; constructor.
    + apply (HP e e' r a); assumption.
    + apply (IH rows effs); simpl in Hr, He; try lia; assumption.
Qed.

Lemma rows_without_targets (t n : nat) :
  Forall (fun r => target r = None) (rows_of t n None).
Proof.
  apply Forall_forall; intros r Hr; unfold Rollout.rows_of in Hr.
  apply in_map_iff in Hr; destruct Hr as [i [<- _]]; reflexivity.
Qed.

Lemma step_rel (P : episode -> episode -> Prop) (t : nat) (st st' : state) :
  (forall e e' r a,
     row_fits is_test r ->
     interact_step t (log_step (count_step e) r) r a = Ok e' -> P e (save_step e')) ->
  step t st = Ok st' -> Forall2 P (batch st) (batch st').
Proof.
  intros HP; unfold Rollout.step; intros H.
  apply OracleFacts.bind_ok in H; destruct H as [targets [Ht H]].
  apply OracleFacts.bind_ok in H; destruct H as [effs [Heffs H]].
  apply OracleFacts.bind_ok in H; destruct H as [moved [Hmoved H]].
  injection H as <-; cbn [batch].
  assert (Hlen : List.length effs = List.length (batch st)).
  { destruct fb, targets; try discriminate;
      apply mapM_length in Heffs; rewrite Heffs; apply rows_of_length. }
  apply (@pipeline_rel P t HP (batch st) (rows_of t (List.length (batch st)) targets)
           effs moved); [| apply rows_of_length | exact Hlen | exact Hmoved].
  destruct is_test eqn:Htest.
  - injection Ht as <-.
    eapply Forall_impl; [| apply rows_without_targets].
    intros r Hr; split; [intros _; exact Hr | discriminate].
  - apply OracleFacts.bind_ok in Ht; destruct Ht as [outs [_ Ht]].
    apply OracleFacts.bind_ok in Ht; destruct Ht as [aligned [Ha Ht]].
    injection Ht as <-.
    eapply Forall_impl; [| apply (rows_have_targets model t _ _ Ha)].
    intros r [o [Ho _]]; split; [discriminate | intros _; exists o; exact Ho].
Qed.

Lemma Forall2_Forall {A : Type} (P Q : A -> Prop) (R : A -> A -> Prop) (l l' : list A) :
  (forall a a', R a a' -> P a -> Q a') -> Forall2 R l l' -> Forall P l -> Forall Q l'.
Proof.
  intros H; induction 1 as [| a a' l l' Ha _ IH]; intros HP; [constructor |].
  inversion HP; subst; constructor; [apply (H a a'); assumption | apply IH; assumption].
Qed.

(** *** A property of the states that every pass hands on *)

Lemma loop_inv (I : nat -> state -> Prop) :
  (forall t st st', I t st -> step t st = Ok st' -> I (S t) st') ->
  forall remaining t st,
    I t st ->
    forall j st', nth_error (fst (loop remaining t st)) j = Some st' -> I (t + S j)%nat st'.
Proof.
  intros Hstep; induction remaining as [| k IH]; intros t st HI j st'; cbn [Rollout.loop].
  - destruct j; discriminate.
  - destruct (step t st) as [st1 | e] eqn:Hs; [| destruct j; discriminate].
    pose proof (Hstep _ _ _ HI Hs) as HI1.
    destruct (all_ended st1).
    + destruct j as [| [| j]]; cbn; intros H; try discriminate.
      injection H as <-; replace (t + 1)%nat with (S t) by lia; exact HI1.
    + specialize (IH (S t) st1 HI1); destruct (loop k (S t) st1) as [trace e].
      cbn [fst] in *; destruct j as [| j]; cbn [nth_error].
      * intros H; injection H as <-; replace (t + 1)%nat with (S t) by lia; exact HI1.
      * intros H; replace (t + S (S j))%nat with (S t + S j)%nat by lia.
        apply (IH j st' H).
Qed.

(** *** The lists of a record go together *)

(** What [j] passes leave of a sample. *)
Lemma pass_consistent (t j : nat) (e e' : episode) (r : row) (a : effective_action * fl) :
  row_fits is_test r ->
  interact_step t (log_step (count_step e) r) r a = Ok e' ->
  consistent is_test e /\ (lenth e <= j)%nat
  /\ (if (j =? 0)%nat then ended e = false else (1 <= lenth e)%nat) ->
  consistent is_test (save_step e') /\ (lenth (save_step e') <= S j)%nat
  /\ (1 <= lenth (save_step e'))%nat.
Proof.
  intros [Hnone Hsome] H [Hc [Hle Hpos]].
  destruct e as [en w d len acts gta gtp prog path].
  unfold consistent in Hc; cbn [lenth actions progress gt_actions gt_progress
                                 path_corners ended] in Hc, Hle, Hpos.
  destruct Hc as [H1 [H2 [H3 [H4 H5]]]].
  assert (Hj : en = true -> (1 <= len)%nat).
  { intros ->; destruct (j =? 0)%nat; [discriminate | exact Hpos]. }
  revert H; unfold Rollout.count_step, Rollout.log_step; cbn [ended].
  destruct en; cbn [ended].
  - unfold Rollout.interact_step.
    destruct (fgt (snd a) (Fin 0.5) || (t =? max_action_len - 1)%nat).
    + intros H; injection H as <-.
      unfold Rollout.save_step, consistent;
        cbn [lenth actions progress gt_actions gt_progress path_corners ended].
      specialize (Hj eq_refl); repeat split; try assumption; lia.
    + intros H; apply OracleFacts.bind_ok in H; destruct H as [[w' d'] [_ H]].
      injection H as <-.
      unfold Rollout.save_step, consistent;
        cbn [lenth actions progress gt_actions gt_progress path_corners ended].
      specialize (Hj eq_refl); repeat split; try assumption; lia.
  - cbn [lenth actions progress gt_actions gt_progress path_corners ended
         current_view_corners current_direction].
    assert (Hg : List.length
                   (match target r with
                    | Some o => gta ++ [(Oracle.action_slot o, Oracle.altitude_slot o)]
                    | None => gta
                    end)
                 = (if is_test then O else S (List.length acts))
                 /\ List.length
                      (match target r with
                       | Some o => gtp ++ [Oracle.gt_progress o]
                       | None => gtp
                       end)
                    = List.length
                        (match target r with
                         | Some o => gta ++ [(Oracle.action_slot o, Oracle.altitude_slot o)]
                         | None => gta
                         end)).
    { destruct is_test.
      - rewrite (Hnone eq_refl); split; assumption.
      - destruct (Hsome eq_refl) as [o ->].
        rewrite !length_app; cbn [List.length]; split; lia. }
    destruct Hg as [Hg1 Hg2].
    unfold Rollout.interact_step; cbn [ended current_view_corners current_direction
      lenth actions progress gt_actions gt_progress path_corners].
    destruct (fgt (snd a) (Fin 0.5) || (t =? max_action_len - 1)%nat).
    + intros H; injection H as <-.
      unfold Rollout.save_step, consistent;
        cbn [lenth actions progress gt_actions gt_progress path_corners ended].
      rewrite !length_app; cbn [List.length].
      repeat split; try assumption; try lia.
      destruct is_test; lia.
    + intros H; apply OracleFacts.bind_ok in H; destruct H as [[w' d'] [_ H]].
      injection H as <-.
      unfold Rollout.save_step, consistent;
        cbn [lenth actions progress gt_actions gt_progress path_corners ended].
      rewrite !length_app; cbn [List.length].
      repeat split; try assumption; try lia.
      destruct is_test; lia.
Qed.

Lemma loop_consistent (remaining : nat) (obs : list (Window * R)) :
  forall j st',
    nth_error (fst (loop remaining 0 (start_state obs))) j = Some st' ->
    Forall (fun e => consistent is_test e /\ (lenth e <= S j)%nat /\ (1 <= lenth e)%nat)
           (batch st').
Proof.
  intros j st' Hj.
  pose (I := fun (j : nat) (st : state) =>
               Forall (fun e => consistent is_test e /\ (lenth e <= j)%nat
                                /\ (if (j =? 0)%nat then ended e = false
                                    else (1 <= lenth e)%nat))
                      (batch st)).
  assert (HI : I (0 + S j)%nat st').
  { apply (@loop_inv I) with (remaining := remaining) (t := 0%nat) (st := start_state obs);
      [| | exact Hj].
    - intros t st st1 Hst Hs; unfold I in *.
      apply (@Forall2_Forall _ _ _ _ (batch st) (batch st1)
               (fun e e' Hee He => Hee He)
               (@step_rel
                  (fun e e' =>
                     (consistent is_test e /\ (lenth e <= t)%nat
                      /\ (if (t =? 0)%nat then ended e = false else (1 <= lenth e)%nat)) ->
                     (consistent is_test e' /\ (lenth e' <= S t)%nat
                      /\ (if (S t =? 0)%nat then ended e' = false
                          else (1 <= lenth e')%nat)))
                  t st st1
                  (fun e e' r a Hr Hi He => @pass_consistent t t e e' r a Hr Hi He)
                  Hs)
               Hst).
    - unfold I, start_state; cbn [batch].
      apply Forall_forall; intros e He; apply in_map_iff in He.
      destruct He as [o [<- _]].
      unfold start, consistent; cbn; destruct is_test; repeat split; lia. }
  unfold I in HI; cbn [Nat.add Nat.eqb] in HI.
  exact HI.
Qed.

(** *** The windows of a record *)

Lemma pass_windows (P : Window -> Prop) (t : nat) (e e' : episode) (r : row)
  (a : effective_action * fl) :
  (forall t i w d a w' d', P w -> advance t i w d a = Ok (w', d') -> P w') ->
  interact_step t (log_step (count_step e) r) r a = Ok e' ->
  windows_satisfy P e -> windows_satisfy P (save_step e').
Proof.
  intros Hadv H [Hw Hpath].
  assert (Hsame : current_view_corners (log_step (count_step e) r) = current_view_corners e
                  /\ current_direction (log_step (count_step e) r) = current_direction e
                  /\ path_corners (log_step (count_step e) r) = path_corners e).
  { destruct e as [en w d len acts gta gtp prog path].
    unfold Rollout.count_step, Rollout.log_step.
    destruct en; cbn [ended]; repeat split; reflexivity. }
  destruct Hsame as [Ew [Ed Ep]].
  revert H; unfold Rollout.interact_step.
  destruct (fgt (snd a) (Fin 0.5) || (t =? max_action_len - 1)%nat).
  - intros H; injection H as <-.
    unfold Rollout.save_step, windows_satisfy; cbn [ended current_view_corners path_corners].
    rewrite Ew, Ep; split; assumption.
  - intros H; apply OracleFacts.bind_ok in H; destruct H as [[w' d'] [Ha H]].
    injection H as <-.
    rewrite Ew in Ha; pose proof (Hadv _ _ _ _ _ _ _ Hw Ha) as Hw'.
    unfold Rollout.save_step, windows_satisfy;
      cbn [ended current_view_corners current_direction path_corners].
    destruct (ended (log_step (count_step e) r));
      cbn [current_view_corners path_corners]; rewrite Ep; split; try assumption.
    apply Forall_app; split; [assumption |].
    constructor; [exact Hw' | constructor].
Qed.

Lemma loop_windows (P : Window -> Prop) (remaining : nat) (obs : list (Window * R)) :
  (forall t i w d a w' d', P w -> advance t i w d a = Ok (w', d') -> P w') ->
  Forall (fun o => P (fst o)) obs ->
  forall j st',
    nth_error (fst (loop remaining 0 (start_state obs))) j = Some st' ->
    Forall (windows_satisfy P) (batch st').
Proof.
  intros Hadv Hobs j st' Hj.
  apply (@loop_inv (fun _ st => Forall (windows_satisfy P) (batch st)))
    with (remaining := remaining) (t := 0%nat) (st := start_state obs) (j := j);
    [| | exact Hj].
  - intros t st st1 Hst Hs.
    apply (@Forall2_Forall _ _ _ _ (batch st) (batch st1)
             (fun e e' Hee He => Hee He)
             (@step_rel (fun e e' => windows_satisfy P e -> windows_satisfy P e')
                t st st1
                (fun e e' r a _ Hi He => @pass_windows P t e e' r a Hadv Hi He)
                Hs)
             Hst).
  - unfold start_state; cbn [batch].
    apply Forall_forall; intros e He; apply in_map_iff in He.
    destruct He as [o [<- Ho]].
    rewrite Forall_forall in Hobs; specialize (Hobs o Ho).
    unfold start, windows_satisfy; cbn [current_view_corners path_corners].
    split; [exact Hobs | constructor; [exact Hobs | constructor]].
Qed.

End Loop.

(** In every state that the loop of [rollout] goes through, the record of
    every sample is consistent: [lenth] is the number of its actions, there
    is one predicted progress for each action, the ground-truth lists have
    one entry for each action (none on a test split), and [path_corners] has
    one window more than there are actions while the sample has not ended
    and as many as there are actions once it has.  The number of actions is
    at least one and at most the number of passes made. *)
Theorem records_stay_consistent (Window : Type) (max_action_len : nat)
  (is_test : bool) (fb : Oracle.feedback) (nss_w : fl)
  (model : nat -> nat -> prediction)
  (oracle : nat -> list bool -> list Window -> result (list Oracle.teacher_out))
  (progress_regression : nat -> nat -> fl * fl * fl * fl)
  (box_loss : nat -> fl) (nss_loss : nat -> nat -> option fl)
  (advance : nat -> nat -> Window -> R -> effective_action -> result (Window * R))
  (obs : list (Window * R)) :
  let trace :=
    fst (rollout_loop max_action_len is_test fb nss_w model oracle progress_regression
           box_loss nss_loss advance obs) in
  Forall (fun st =>
            Forall (fun e => consistent is_test e
                             /\ (1 <= lenth e <= List.length trace)%nat)
                   (batch st))
         trace.
Proof.
  cbv zeta; unfold rollout_loop.
  set (trace := fst (Rollout.loop _ _ _ _ _ _ _ _ _ _ _ _ _)).
  apply Forall_forall; intros st Hin.
  destruct (In_nth_error _ _ Hin) as [j Hj].
  assert (Hlt : (j < List.length trace)%nat) by (apply nth_error_Some; congruence).
  eapply Forall_impl;
    [| apply (@loop_consistent Window max_action_len is_test fb nss_w model oracle
                progress_regression box_loss nss_loss advance max_action_len obs j st Hj)].
  intros e [Hc [Hle Hpos]]; split; [exact Hc | lia].
Qed.

(** A property of windows that the move of the window keeps, and that the
    starting windows have, holds for every window that [rollout] holds or
    records in [path_corners]: a window changes only by the move. *)
Theorem windows_keep_invariant (Window : Type) (max_action_len : nat)
  (is_test : bool) (fb : Oracle.feedback) (nss_w : fl)
  (model : nat -> nat -> prediction)
  (oracle : nat -> list bool -> list Window -> result (list Oracle.teacher_out))
  (progress_regression : nat -> nat -> fl * fl * fl * fl)
  (box_loss : nat -> fl) (nss_loss : nat -> nat -> option fl)
  (advance : nat -> nat -> Window -> R -> effective_action -> result (Window * R))
  (obs : list (Window * R)) (P : Window -> Prop) :
  (forall t i w d a w' d', P w -> advance t i w d a = Ok (w', d') -> P w') ->
  Forall (fun o => P (fst o)) obs ->
  Forall (fun st => Forall (windows_satisfy P) (batch st))
         (fst (rollout_loop max_action_len is_test fb nss_w model oracle
                 progress_regression box_loss nss_loss advance obs)).
Proof.
  intros Hadv Hobs; unfold rollout_loop.
  apply Forall_forall; intros st Hin.
  destruct (In_nth_error _ _ Hin) as [j Hj].
  apply (@loop_windows Window max_action_len is_test fb nss_w model oracle
           progress_regression box_loss nss_loss advance P max_action_len obs
           Hadv Hobs j st Hj).
Qed.

(** A run in which the window is a number that each move increases: every
    window held or recorded is at least the starting one. *)
Lemma windows_keep_invariant_witness :
  Forall (fun st => Forall (windows_satisfy (fun w : nat => (1 <= w)%nat)) (batch st))
         (fst (rollout_loop 3 true Oracle.student (Fin 0) model_run
                 (fun _ _ _ => Ok []) (fun _ _ => (Fin 0, Fin 0, Fin 0, Fin 0))
                 (fun _ => Fin 0) (fun _ _ => None)
                 (fun _ _ w d _ => Ok (S w, d)) [(1%nat, 0)])).
Proof.
  apply (@windows_keep_invariant nat 3 true Oracle.student (Fin 0) model_run
           (fun _ _ _ => Ok []) (fun _ _ => (Fin 0, Fin 0, Fin 0, Fin 0))
           (fun _ => Fin 0) (fun _ _ => None)
           (fun _ _ w d _ => Ok (S w, d)) [(1%nat, 0)] (fun w : nat => (1 <= w)%nat)).
  - intros t i w d a w' d' Hw H; injection H as <- _; lia.
  - constructor; [cbn; lia | constructor].
Defined.

Lemma loop_on_test_split (Window : Type) (max_action_len : nat)
  (fb : Oracle.feedback) (nss_w nss_w' : fl)
  (model : nat -> nat -> prediction)
  (oracle oracle' : nat -> list bool -> list Window -> result (list Oracle.teacher_out))
  (progress_regression progress_regression' : nat -> nat -> fl * fl * fl * fl)
  (box_loss box_loss' : nat -> fl) (nss_loss nss_loss' : nat -> nat -> option fl)
  (advance : nat -> nat -> Window -> R -> effective_action -> result (Window * R))
  (remaining : nat) :
  forall t st,
    Rollout.loop max_action_len true fb nss_w model oracle progress_regression
      box_loss nss_loss advance remaining t st
    = Rollout.loop max_action_len true fb nss_w' model oracle' progress_regression'
        box_loss' nss_loss' advance remaining t st.
Proof.
  induction remaining as [| k IH]; intros t st; cbn [Rollout.loop]; [reflexivity |].
  change (Rollout.step max_action_len true fb nss_w' model oracle' progress_regression'
            box_loss' nss_loss' advance t st)
    with (Rollout.step max_action_len true fb nss_w model oracle progress_regression
            box_loss nss_loss advance t st).
  destruct (Rollout.step _ _ _ _ _ _ _ _ _ _ t st) as [st' | e]; [| reflexivity].
  destruct (all_ended st'); [reflexivity |].
  rewrite IH; reflexivity.
Qed.

(** On a test split [rollout] accumulates no loss and prints no NaN line,
    and the run depends neither on the oracle nor on the loss terms: the
    ground truth is never read.  With teacher feedback this makes the first
    pass raise an UnboundLocalError, because line 697 reads [target], which
    only the branch for the other splits binds. *)
Theorem test_split_reads_no_ground_truth (Window : Type) (max_action_len : nat)
  (fb : Oracle.feedback) (nss_w nss_w' : fl)
  (model : nat -> nat -> prediction)
  (oracle oracle' : nat -> list bool -> list Window -> result (list Oracle.teacher_out))
  (progress_regression progress_regression' : nat -> nat -> fl * fl * fl * fl)
  (box_loss box_loss' : nat -> fl) (nss_loss nss_loss' : nat -> nat -> option fl)
  (advance : nat -> nat -> Window -> R -> effective_action -> result (Window * R))
  (obs : list (Window * R)) :
  let run := rollout_loop max_action_len true fb nss_w model oracle progress_regression
               box_loss nss_loss advance obs in
  Forall (fun st => ml_loss st = Fin 0 /\ printed st = []) (fst run)
  /\ run = rollout_loop max_action_len true fb nss_w' model oracle' progress_regression'
             box_loss' nss_loss' advance obs
  /\ (fb = Oracle.teacher -> (0 < max_action_len)%nat -> obs <> [] ->
      run = ([], Some UnboundLocalError)).
Proof.
  cbv zeta; unfold rollout_loop; split; [| split; [apply loop_on_test_split |]].
  - apply Forall_forall; intros st Hin.
    destruct (In_nth_error _ _ Hin) as [j Hj].
    apply (@loop_inv Window max_action_len true fb nss_w model oracle progress_regression
             box_loss nss_loss advance
             (fun _ st => ml_loss st = Fin 0 /\ printed st = []))
      with (remaining := max_action_len) (t := 0%nat) (st := start_state obs) (j := j);
      [| split; reflexivity | exact Hj].
    intros t s s1 [Hl Hp] Hs; unfold Rollout.step in Hs; cbn [bind] in Hs.
    apply OracleFacts.bind_ok in Hs; destruct Hs as [effs [_ Hs]].
    apply OracleFacts.bind_ok in Hs; destruct Hs as [moved [_ Hs]].
    injection Hs as <-; cbn [ml_loss printed fst snd]; split; assumption.
  - intros -> Hpos _; destruct max_action_len as [| k]; [lia | reflexivity].
Qed.

End TrajectoryFacts.

(** ** NSS *)

Module SaliencyFacts.
Import Float.
Import FloatFacts.
Import Rollout.
Import Saliency.

Lemma pixels_positive : (0 < pixels)%nat.
Proof. unfold pixels; apply Nat.mul_pos_pos; lia. Qed.

Lemma total_shift (c : R) (row : list R) :
  total (map (Rplus c) row) = total row + INR (List.length row) * c.
Proof.
  induction row as [| x row IH]; [cbn; lra |].
  cbn [map total fold_right List.length]; fold (total (map (Rplus c) row)); fold (total row).
  rewrite IH, S_INR; lra.
Qed.

Lemma mean_shift (c : R) (row : list R) :
  row <> [] -> mean (map (Rplus c) row) = c + mean row.
Proof.
  intros Hne; unfold mean; rewrite total_shift, length_map.
  assert (0 < INR (List.length row)).
  { apply lt_0_INR; destruct row; [congruence | simpl; lia]. }
  field; lra.
Qed.

Lemma std_shift (c : R) (row : list R) :
  row <> [] -> std (map (Rplus c) row) = std row.
Proof.
  intros Hne; unfold std; rewrite mean_shift, map_map, length_map by assumption.
  f_equal; f_equal; f_equal.
  apply map_ext; intros x; ring.
Qed.

Lemma n_sal_shift (f : R -> R) (c : R) (row : list R) :
  row <> [] -> n_sal f (map (Rplus c) row) = n_sal f row.
Proof.
  intros Hne; unfold n_sal; cbv zeta.
  rewrite mean_shift, std_shift, map_map by assumption.
  apply map_ext; intros x; f_equal; f_equal; ring.
Qed.

Lemma viewed_rows_nonempty (t : list (list R)) :
  viewed t -> Forall (fun row => row <> []) t.
Proof.
  intros [_ H]; eapply Forall_impl; [| exact H].
  intros row Hlen E; rewrite E in Hlen; cbn [List.length] in Hlen.
  pose proof pixels_positive; lia.
Qed.

(** On real numbers, adding one number to every entry of the predicted
    saliency map does not change the loss: [NSS] sees the map through its
    deviation from the mean of each row only.  (On float32 tensors this
    holds up to rounding, and so only while the number added does not
    absorb the entries of the map.) *)
Theorem NSS_shift_invariant (nss_r : Z) (sal fix_ : list (list R)) (c : R) :
  viewed sal ->
  NSS nss_r (map (map (Rplus c)) sal) fix_ = NSS nss_r sal fix_.
Proof.
  intros Hv; unfold NSS.
  destruct (rescaled nss_r) as [f | e]; [| reflexivity]; cbn [bind].
  rewrite map_map.
  replace (map (fun row => n_sal f (map (Rplus c) row)) sal) with (map (n_sal f) sal);
    [reflexivity |].
  pose proof (viewed_rows_nonempty Hv) as Hne; rewrite Forall_forall in Hne.
  apply map_ext_in; intros row Hin; symmetry; apply n_sal_shift, Hne, Hin.
Qed.

Lemma viewed_peak (x : R) : viewed [peak x].
Proof.
  split; [discriminate |].
  constructor; [| constructor].
  unfold peak; cbn [List.length]; rewrite repeat_length.
  pose proof pixels_positive; lia.
Qed.

(** A map with one bright pixel and a fixation on it. *)
Lemma NSS_shift_invariant_witness :
  viewed [peak 1]
  /\ NSS 0 (map (map (Rplus 0.25)) [peak 1]) [peak 1] = NSS 0 [peak 1] [peak 1].
Proof.
  split; [apply viewed_peak |].
  apply (@NSS_shift_invariant 0%Z [peak 1] [peak 1] 0.25).
  apply viewed_peak.
Defined.

(** For an [nss_r] other than 0, 1 and -1, [NSS] raises an
    UnboundLocalError, whatever the two maps. *)
Theorem NSS_unknown_nss_r (nss_r : Z) (sal fix_ : list (list R)) :
  nss_r <> 0%Z -> nss_r <> 1%Z -> nss_r <> (-1)%Z ->
  NSS nss_r sal fix_ = Raise UnboundLocalError.
Proof.
  intros H0 H1 H2; unfold NSS, rescaled.
  apply Z.eqb_neq in H0, H1, H2; rewrite H0, H1, H2; reflexivity.
Qed.

Lemma NSS_unknown_nss_r_witness :
  NSS 2 [repeat 0.5 pixels] [repeat 0 pixels] = Raise UnboundLocalError.
Proof. apply (@NSS_unknown_nss_r 2%Z); discriminate. Defined.

(** *** The sign of the loss *)

Lemma std_nonneg (row : list R) : 0 <= std row.
Proof. apply sqrt_pos. Qed.

Lemma total_nonneg (l : list R) : Forall (fun x => 0 <= x) l -> 0 <= total l.
Proof.
  induction 1 as [| x l Hx _ IH]; [cbn; lra |].
  cbn [total fold_right]; fold (total l); lra.
Qed.

(** The products of line 266 for a row whose fixations sit on entries that
    are at least [m]. *)
Lemma products_nonneg (m s : R) (row fix_ : list R) :
  0 < s ->
  Forall2 (fun x f => 0 <= f /\ (0 < f -> m <= x)) row fix_ ->
  Forall (fun x => 0 <= x) (map2 Rmult (map (fun x => (x - m) / s) row) fix_).
Proof.
  intros Hs; induction 1 as [| x f row fix_ [Hf Hx] _ IH]; cbn [map map2]; constructor.
  - assert (Hinv : 0 < / s) by (apply Rinv_0_lt_compat; assumption).
    destruct (Rle_lt_or_eq_dec 0 f Hf) as [Hpos | <-]; [| lra].
    specialize (Hx Hpos); unfold Rdiv.
    apply Rmult_le_pos; [apply Rmult_le_pos |]; lra.
  - exact IH.
Qed.

Lemma Forall2_snd_nonneg (m : R) (row fix_ : list R) :
  Forall2 (fun x f => 0 <= f /\ (0 < f -> m <= x)) row fix_ ->
  Forall (fun f => 0 <= f) fix_.
Proof. induction 1 as [| x f row fix_ [Hf _] _ IH]; constructor; assumption. Qed.

Lemma row_score_nonneg (row fix_ : list R) :
  Forall2 (fun x f => 0 <= f /\ (0 < f -> mean row <= x)) row fix_ ->
  exists q : R, row_score (n_sal (fun z => z) row) fix_ = Fin q /\ 0 <= q.
Proof.
  intros H; unfold row_score, n_sal; cbv zeta.
  pose proof (std_nonneg row) as Hstd.
  pose proof (total_nonneg (Forall2_snd_nonneg H)) as Hfix.
  assert (Hs : 0 < std row + 0.0000001) by lra.
  pose proof (total_nonneg (products_nonneg Hs H)) as Hns.
  rewrite fdiv_fin by lra.
  eexists; split; [reflexivity |].
  unfold Rdiv; apply Rmult_le_pos; [exact Hns |].
  left; apply Rinv_0_lt_compat; lra.
Qed.

Lemma sum_of_scores (l : list fl) :
  Forall (fun a => exists q : R, a = Fin q /\ 0 <= q) l ->
  forall acc, 0 <= acc -> exists s : R, fold_left fadd l (Fin acc) = Fin s /\ 0 <= s.
Proof.
  induction 1 as [| a l [q [-> Hq]] _ IH]; intros acc Hacc; cbn [fold_left].
  - exists acc; split; [reflexivity | assumption].
  - cbn [fadd]; apply IH; lra.
Qed.

(** With [nss_r] zero, when no fixation value is negative and every entry
    that carries a fixation has a predicted saliency of at least the mean of
    its row, the loss is a number that is not positive: [NSS] rewards
    saliency above the mean at the fixations. *)
Theorem NSS_rewards_fixated_saliency (sal fix_ : list (list R)) :
  viewed sal ->
  Forall2 (fun row frow =>
             Forall2 (fun x f => 0 <= f /\ (0 < f -> mean row <= x)) row frow)
          sal fix_ ->
  exists v : R, NSS 0 sal fix_ = Ok (Fin v) /\ v <= 0.
Proof.
  intros [Hne _] H; unfold NSS; cbn [rescaled Z.eqb bind].
  assert (Hscores : Forall (fun a => exists q : R, a = Fin q /\ 0 <= q)
                      (map2 row_score (map (n_sal (fun z => z)) sal) fix_)).
  { clear Hne; induction H as [| row frow sal fix_ Hrow _ IH]; cbn [map map2];
      constructor; [apply row_score_nonneg; exact Hrow | exact IH]. }
  assert (Hlen : List.length (map2 row_score (map (n_sal (fun z => z)) sal) fix_)
                 = List.length sal).
  { clear Hne Hscores; induction H as [| row frow sal fix_ _ _ IH]; cbn [map map2 List.length];
      [reflexivity | rewrite IH; reflexivity]. }
  destruct (@sum_of_scores _ Hscores 0) as [s [Es Hs]]; [lra |].
  unfold fmean; rewrite Es, Hlen.
  assert (Hk : 0 < INR (List.length sal)).
  { apply lt_0_INR; destruct sal; [congruence | simpl; lia]. }
  rewrite fdiv_fin by lra; cbn [fneg].
  eexists; split; [reflexivity |].
  assert (0 <= s / INR (List.length sal)).
  { unfold Rdiv; apply Rmult_le_pos; [exact Hs |].
    left; apply Rinv_0_lt_compat; exact Hk. }
  lra.
Qed.

Lemma Forall2_repeat {A B : Type} (P : A -> B -> Prop) (a : A) (b : B) (n : nat) :
  P a b -> Forall2 P (repeat a n) (repeat b n).
Proof. intros H; induction n as [| n IH]; cbn [repeat]; constructor; assumption. Qed.

Lemma total_repeat_zero (n : nat) : total (repeat 0 n) = 0.
Proof.
  induction n as [| n IH]; [reflexivity |].
  cbn [repeat total fold_right]; fold (total (repeat 0 n)); rewrite IH; lra.
Qed.

Lemma mean_peak (x : R) : mean (peak x) = x / INR pixels.
Proof.
  unfold mean, peak; cbn [total fold_right List.length].
  fold (total (repeat 0 (pixels - 1))); rewrite total_repeat_zero, repeat_length.
  replace (S (pixels - 1)) with pixels by (pose proof pixels_positive; lia).
  f_equal; lra.
Qed.

(** One fixation, on the one pixel whose saliency, 1, is above the mean of
    the row, 1 / (224 * 224). *)
Lemma NSS_rewards_fixated_saliency_witness :
  viewed [peak 1]
  /\ 0 < total (peak 1)
  /\ mean (peak 1) < 1
  /\ exists v : R, NSS 0 [peak 1] [peak 1] = Ok (Fin v) /\ v <= 0.
Proof.
  assert (Hpix : 1 < INR pixels).
  { change 1 with (INR 1); apply lt_INR; unfold pixels.
    apply Nat.lt_le_trans with (2 * 1)%nat; [lia |].
    apply Nat.mul_le_mono; lia. }
  assert (Hm : mean (peak 1) < 1).
  { rewrite mean_peak; apply Rmult_lt_reg_r with (INR pixels); [lra |].
    unfold Rdiv; rewrite Rmult_assoc, Rinv_l by lra; lra. }
  split; [apply viewed_peak |]; split; [| split; [exact Hm |]].
  - unfold peak; cbn [total fold_right]; fold (total (repeat 0 (pixels - 1))).
    rewrite total_repeat_zero; lra.
  - apply (@NSS_rewards_fixated_saliency [peak 1] [peak 1]).
    + apply viewed_peak.
    + constructor; [| constructor].
      unfold peak at 2 3; constructor.
      * split; [lra | intros _; lra].
      * apply Forall2_repeat; split; [lra | intros H; lra].
Defined.

End SaliencyFacts.

(** ** save and load *)

Module CheckpointFacts.
Import Stdlib.Strings.String.
Import Checkpoint.

(** *** Dicts *)

Lemma eqb_sym_string (a b : string) : String.eqb a b = String.eqb b a.
Proof.
  destruct (String.eqb a b) eqn:E.
  - apply String.eqb_eq in E; subst; symmetry; apply String.eqb_refl.
  - destruct (String.eqb b a) eqn:E'; [| reflexivity].
    apply String.eqb_eq in E'; subst; rewrite String.eqb_refl in E; discriminate.
Qed.

Lemma get_set_item {V : Type} (d : dict V) (k k' : string) (v : V) :
  get (set_item d k v) k' = if String.eqb k k' then Some v else get d k'.
Proof.
  induction d as [| [k0 v0] d IH]; cbn [set_item get].
  - reflexivity.
  - destruct (String.eqb k0 k) eqn:E0; cbn [get].
    + apply String.eqb_eq in E0; subst k0.
      destruct (String.eqb k k'); reflexivity.
    + rewrite IH.
      destruct (String.eqb k0 k') eqn:E1; [| reflexivity].
      apply String.eqb_eq in E1; subst k0.
      rewrite eqb_sym_string, E0; reflexivity.
Qed.

Lemma has_key_cons {V : Type} (k0 : string) (v0 : V) (d : dict V) (k : string) :
  has_key ((k0, v0) :: d) k = String.eqb k k0 || has_key d k.
Proof. reflexivity. Qed.

Lemma has_key_get {V : Type} (d : dict V) (k : string) :
  has_key d k = true <-> exists v, get d k = Some v.
Proof.
  induction d as [| [k0 v0] d IH]; [split; [discriminate | intros [v H]; discriminate] |].
  rewrite has_key_cons; cbn [get]; rewrite (eqb_sym_string k k0).
  destruct (String.eqb k0 k); cbn [orb]; [| exact IH].
  split; [intros _; exists v0; reflexivity | reflexivity].
Qed.

Lemma get_none {V : Type} (d : dict V) (k : string) :
  has_key d k = false -> get d k = None.
Proof.
  intros H; destruct (get d k) as [v |] eqn:E; [| reflexivity].
  assert (has_key d k = true) by (apply has_key_get; exists v; exact E).
  congruence.
Qed.

Lemma keys_set_item {V : Type} (d : dict V) (k : string) (v : V) :
  has_key d k = true -> keys (set_item d k v) = keys d.
Proof.
  induction d as [| [k0 v0] d IH]; [discriminate |].
  rewrite has_key_cons, (eqb_sym_string k k0); cbn [set_item].
  destruct (String.eqb k0 k); cbn [orb]; [reflexivity |].
  intros H; unfold keys in *; cbn [map fst]; rewrite (IH H); reflexivity.
Qed.

Lemma has_key_keys {V W : Type} (d : dict V) (d' : dict W) (k : string) :
  keys d = keys d' -> has_key d k = has_key d' k.
Proof. unfold has_key; intros ->; reflexivity. Qed.

(** After [d.update(other)], a key has the value that [other] gives it last,
    or else the value it had. *)
Lemma get_update {V : Type} (other : dict V) :
  forall (d : dict V) (k : string),
    get (update d other) k
    = match get (rev other) k with
      | Some v => Some v
      | None => get d k
      end.
Proof.
  unfold update; induction other as [| [k0 v0] other IH]; intros d k; cbn [fold_left rev].
  - reflexivity.
  - rewrite IH; cbn [fst snd]; rewrite get_set_item.
    assert (Happ : forall (l : dict V),
               get (l ++ [(k0, v0)]) k
               = match get l k with
                 | Some v => Some v
                 | None => if String.eqb k0 k then Some v0 else None
                 end).
    { induction l as [| [k1 v1] l IHl]; cbn [app get]; [reflexivity |].
      destruct (String.eqb k1 k); [reflexivity | exact IHl]. }
    rewrite Happ; destruct (get (rev other) k); [reflexivity |].
    destruct (String.eqb k0 k); reflexivity.
Qed.

Lemma keys_update {V : Type} (other : dict V) :
  forall d : dict V,
    forallb (has_key d) (keys other) = true -> keys (update d other) = keys d.
Proof.
  unfold update; induction other as [| [k0 v0] other IH]; intros d H; cbn [fold_left].
  - reflexivity.
  - cbn [keys map fst forallb] in H; apply andb_prop in H; destruct H as [H0 H].
    cbn [fst snd]; rewrite IH; [apply keys_set_item; exact H0 |].
    apply forallb_forall; intros k Hk.
    rewrite (has_key_keys (set_item d k0 v0) d k (keys_set_item d k0 v0 H0)).
    rewrite forallb_forall in H; apply H; exact Hk.
Qed.

Lemma get_app_none {V : Type} (l l' : dict V) (k : string) :
  get l k = None -> get (l ++ l') k = get l' k.
Proof.
  induction l as [| [k1 v1] l IH]; cbn [app get]; [reflexivity |].
  destruct (String.eqb k1 k); [discriminate | exact IH].
Qed.

Lemma get_app_some {V : Type} (l l' : dict V) (k : string) (v : V) :
  get l k = Some v -> get (l ++ l') k = Some v.
Proof.
  induction l as [| [k1 v1] l IH]; cbn [app get]; [discriminate |].
  destruct (String.eqb k1 k); [intros H; exact H | exact IH].
Qed.

Lemma not_in_keys {V : Type} (d : dict V) (k : string) :
  ~ In k (keys d) -> get d k = None.
Proof.
  induction d as [| [k0 v0] d IH]; cbn [keys map fst In get]; [reflexivity |].
  intros H; destruct (String.eqb k0 k) eqn:E.
  - apply String.eqb_eq in E; tauto.
  - apply IH; tauto.
Qed.

(** In a dict, where a key occurs once, the last value of a key is its
    value. *)
Lemma get_rev {V : Type} (d : dict V) (k : string) :
  NoDup (keys d) -> get (rev d) k = get d k.
Proof.
  induction d as [| [k0 v0] d IH]; cbn [keys map fst rev get]; [reflexivity |].
  intros H; inversion H as [| ? ? Hnotin Hnd]; subst.
  destruct (String.eqb k0 k) eqn:E.
  - apply String.eqb_eq in E; subst k0.
    rewrite get_app_none; [cbn [get]; rewrite String.eqb_refl; reflexivity |].
    rewrite (IH Hnd); apply not_in_keys; exact Hnotin.
  - destruct (get (rev d) k) as [v |] eqn:Ev.
    + rewrite (get_app_some _ _ _ Ev); apply IH; exact Hnd.
    + rewrite (get_app_none _ _ _ Ev); cbn [get]; rewrite E; apply IH; exact Hnd.
Qed.

Lemma get_filter {V : Type} (p : string -> bool) (d : dict V) (k : string) :
  get (filter (fun kv : string * V => p (fst kv)) d) k = if p k then get d k else None.
Proof.
  induction d as [| [k0 v0] d IH]; cbn [filter get fst]; [destruct (p k); reflexivity |].
  destruct (p k0) eqn:E0; cbn [get]; rewrite IH.
  - destruct (String.eqb k0 k) eqn:E; [| reflexivity].
    apply String.eqb_eq in E; subst k0; rewrite E0; reflexivity.
  - destruct (String.eqb k0 k) eqn:E; [| reflexivity].
    apply String.eqb_eq in E; subst k0; rewrite E0; reflexivity.
Qed.

Lemma keys_filter_NoDup {V : Type} (p : string * V -> bool) (d : dict V) :
  NoDup (keys d) -> NoDup (keys (filter p d)).
Proof.
  induction d as [| [k0 v0] d IH]; cbn [keys map fst filter]; [intros H; exact H |].
  intros H; inversion H as [| ? ? Hnotin Hnd]; subst.
  destruct (p (k0, v0)); [| apply IH; exact Hnd].
  cbn [keys map fst]; constructor; [| apply IH; exact Hnd].
  intros Hin; apply Hnotin.
  unfold keys in *; apply in_map_iff in Hin; destruct Hin as [[k1 v1] [E Hin]].
  apply filter_In in Hin; destruct Hin as [Hin _].
  apply in_map_iff; exists (k1, v1); split; assumption.
Qed.

Lemma forallb_has_key_filter {V : Type} (state d : dict V) :
  forallb (has_key state) (keys (filter (fun kv : string * V => has_key state (fst kv)) d))
  = true.
Proof.
  apply forallb_forall; intros k Hin.
  unfold keys in Hin; apply in_map_iff in Hin; destruct Hin as [[k1 v1] [<- Hin]].
  apply filter_In in Hin; destruct Hin as [_ H]; exact H.
Qed.

Lemma same_keys_of_equal_keys {V W : Type} (a : dict V) (b : dict W) :
  keys a = keys b -> same_keys a b = true.
Proof.
  intros E; unfold same_keys, has_key; rewrite E.
  assert (H : forallb (fun k => existsb (String.eqb k) (keys b)) (keys b) = true).
  { apply forallb_forall; intros k Hk; apply existsb_exists.
    exists k; split; [exact Hk | apply String.eqb_refl]. }
  rewrite H; reflexivity.
Qed.

Lemma get_map_values {V : Type} (g : string -> V -> V) (d : dict V) (k : string) :
  get (map (fun kv : string * V => (fst kv, g (fst kv) (snd kv))) d) k
  = match get d k with
    | Some old => Some (g k old)
    | None => None
    end.
Proof.
  induction d as [| [k0 v0] d IH]; cbn [map get fst snd]; [reflexivity |].
  destruct (String.eqb k0 k) eqn:E; [| exact IH].
  apply String.eqb_eq in E; subst k0; reflexivity.
Qed.

Lemma keys_map_values {V : Type} (g : string * V -> V) (d : dict V) :
  keys (map (fun kv : string * V => (fst kv, g kv)) d) = keys d.
Proof. unfold keys; rewrite map_map; apply map_ext; intros [k v]; reflexivity. Qed.

(** *** recover_state *)

Section WithTorch.

Variable tensor : Type.
Variable optim : Type.
Variable fits : tensor -> tensor -> bool.
Variable load_optimizer : optim -> optim -> outcome optim.

Local Abbreviation recover_state := (@Checkpoint.recover_state tensor optim fits load_optimizer).
Local Abbreviation load_state_dict := (@Checkpoint.load_state_dict tensor fits).

(** The dict that lines 897-904 choose to update the state of the model with. *)
Lemma chosen_get (state sd : dict tensor) (k : string) (old : tensor) :
  NoDup (keys sd) ->
  get state k = Some old ->
  get (update state
         (if same_keys state sd then sd
          else filter (fun kv : string * tensor => has_key state (fst kv)) sd)) k
  = Some (match get sd k with
          | Some v => v
          | None => old
          end).
Proof.
  intros Hnd Hk; rewrite get_update, Hk.
  assert (Hhas : has_key state k = true) by (apply has_key_get; exists old; exact Hk).
  destruct (same_keys state sd).
  - rewrite (@get_rev _ sd k Hnd); destruct (get sd k); reflexivity.
  - rewrite (@get_rev _ _ k (@keys_filter_NoDup _ _ sd Hnd)).
    rewrite (get_filter (has_key state) sd k), Hhas.
    destruct (get sd k); reflexivity.
Qed.

Lemma chosen_keys (state sd : dict tensor) :
  keys (update state
          (if same_keys state sd then sd
           else filter (fun kv : string * tensor => has_key state (fst kv)) sd))
  = keys state.
Proof.
  apply keys_update.
  destruct (same_keys state sd) eqn:E; [| apply forallb_has_key_filter].
  unfold same_keys in E; apply andb_prop in E; destruct E as [_ E]; exact E.
Qed.

Lemma recover_state_returns (resume_optimizer : bool) (states : dict (entry tensor optim))
  (name : string) (p p' : part tensor optim) :
  recover_state resume_optimizer states name p = Returns p' ->
  exists e,
    get states name = Some e
    /\ weights p'
       = map (fun kv : string * tensor =>
                (fst kv,
                 match get (update (weights p)
                              (if same_keys (weights p) (state_dict e) then state_dict e
                               else filter (fun kv : string * tensor =>
                                              has_key (weights p) (fst kv))
                                           (state_dict e)))
                           (fst kv) with
                 | Some v => v
                 | None => snd kv
                 end))
             (weights p).
Proof.
  unfold Checkpoint.recover_state, getitem.
  destruct (get states name) as [e |]; [| discriminate]; cbn [and_then].
  unfold Checkpoint.load_state_dict.
  destruct (_ && _); [| discriminate]; cbn [and_then].
  destruct (if resume_optimizer then _ else _) as [o | err]; [| discriminate].
  cbn [and_then]; intros H; injection H as <-.
  exists e; split; reflexivity.
Qed.

(** *** A checkpoint of the same architecture *)

Lemma same_architecture_keys (b a : part tensor optim) :
  same_architecture fits b a -> keys (weights b) = keys (weights a).
Proof.
  intros [_ H]; unfold keys.
  induction H as [| kb ka b' a' [E _] _ IH]; cbn [map]; [reflexivity |].
  rewrite E, IH; reflexivity.
Qed.

Lemma get_of_item {V : Type} (d : dict V) (k : string) (v : V) :
  NoDup (keys d) -> In (k, v) d -> get d k = Some v.
Proof.
  induction d as [| [k0 v0] d IH]; cbn [keys map fst In get]; [intros _ [] |].
  intros H [E | Hin]; inversion H as [| ? ? Hnotin Hnd]; subst.
  - injection E as -> ->; rewrite String.eqb_refl; reflexivity.
  - destruct (String.eqb k0 k) eqn:E0; [| apply IH; assumption].
    apply String.eqb_eq in E0; subst k0; exfalso; apply Hnotin.
    apply in_map_iff; exists (k, v); split; [reflexivity | exact Hin].
Qed.

Lemma takes_all (state' b a : dict tensor) :
  Forall2 (fun kb ka => fst kb = fst ka /\ fits (snd kb) (snd ka) = true) b a ->
  (forall k v, In (k, v) a -> get state' k = Some v) ->
  forallb (fun kv : string * tensor =>
             match get state' (fst kv) with
             | Some v => fits (snd kv) v
             | None => true
             end) b = true
  /\ map (fun kv : string * tensor =>
            (fst kv, match get state' (fst kv) with
                     | Some v => v
                     | None => snd kv
                     end)) b = a.
Proof.
  induction 1 as [| kb [k v] b' a' [E Hf] _ IH]; intros Hget; cbn [forallb map];
    [split; reflexivity |].
  cbn [fst snd] in E, Hf.
  destruct IH as [IH1 IH2]; [intros k' v' Hin; apply Hget; right; exact Hin |].
  rewrite E, (Hget k v (or_introl eq_refl)), Hf, IH1, IH2; split; reflexivity.
Qed.

Lemma recover_same_architecture (resume_optimizer : bool)
  (states : dict (entry tensor optim)) (name : string) (ep : Z)
  (b a : part tensor optim) :
  same_architecture fits b a ->
  get states name = Some (Entry ep (weights a) (optimizer_state a)) ->
  load_optimizer (optimizer_state b) (optimizer_state a) = Returns (optimizer_state a) ->
  recover_state resume_optimizer states name b
  = Returns (Part (weights a)
               (if resume_optimizer then optimizer_state a else optimizer_state b)).
Proof.
  intros Harch Hget Hopt.
  pose proof (same_architecture_keys Harch) as Hkeys.
  destruct Harch as [Hnd Hall].
  unfold Checkpoint.recover_state, getitem; rewrite Hget; cbn [and_then state_dict optimizer].
  rewrite (same_keys_of_equal_keys _ _ Hkeys).
  assert (Hstate : forall k v, In (k, v) (weights a) ->
                     get (update (weights b) (weights a)) k = Some v).
  { intros k v Hin; rewrite get_update, (@get_rev _ (weights a) k Hnd).
    rewrite (@get_of_item _ (weights a) k v Hnd Hin); reflexivity. }
  destruct (@takes_all _ _ _ Hall Hstate) as [Hfits Hmap].
  assert (Hk : keys (update (weights b) (weights a)) = keys (weights b)).
  { apply keys_update; rewrite <- Hkeys.
    apply forallb_forall; intros k Hk; apply existsb_exists.
    exists k; split; [exact Hk | apply String.eqb_refl]. }
  unfold Checkpoint.load_state_dict.
  rewrite (same_keys_of_equal_keys _ _ (eq_sym Hk)), Hfits, Hmap; cbn [andb and_then].
  destruct resume_optimizer; [rewrite Hopt |]; reflexivity.
Qed.

End WithTorch.

(** When [load] has recovered a model from a checkpoint, the model has the
    parameters it had, by name and in the same order; a parameter that the
    checkpoint has too carries the tensor of the checkpoint, a parameter that
    the checkpoint lacks keeps its tensor, and what the checkpoint has for
    other names is dropped. *)
Theorem recover_state_merges (tensor optim : Type) (fits : tensor -> tensor -> bool)
  (load_optimizer : optim -> optim -> outcome optim) (resume_optimizer : bool)
  (states : dict (entry tensor optim)) (name : string) (e : entry tensor optim)
  (p p' : part tensor optim) :
  get states name = Some e ->
  NoDup (keys (state_dict e)) ->
  recover_state fits load_optimizer resume_optimizer states name p = Returns p' ->
  keys (weights p') = keys (weights p)
  /\ forall k : string,
       get (weights p') k
       = match get (weights p) k with
         | Some old => Some (match get (state_dict e) k with
                             | Some v => v
                             | None => old
                             end)
         | None => None
         end.
Proof.
  intros He Hnd H.
  destruct (@recover_state_returns _ _ _ _ _ _ _ _ _ H) as [e' [He' Hw]].
  rewrite He in He'; injection He' as <-.
  rewrite Hw; split.
  - apply (keys_map_values
             (fun kv : string * tensor =>
                match get (update (weights p) _) (fst kv) with
                | Some v => v
                | None => snd kv
                end)).
  - intros k.
    rewrite (get_map_values
               (fun k old => match get (update (weights p) _) k with
                             | Some v => v
                             | None => old
                             end)).
    destruct (get (weights p) k) as [old |] eqn:Hk; [| reflexivity].
    rewrite (@chosen_get _ (weights p) (state_dict e) k old Hnd Hk); reflexivity.
Qed.

Lemma recover_state_merges_witness :
  keys (weights (Part [("fc.weight"%string, 31%nat); ("head.weight"%string, 5%nat)] 0%nat))
  = keys (weights wider)
  /\ forall k : string,
       get (weights (Part [("fc.weight"%string, 31%nat); ("head.weight"%string, 5%nat)]
                       0%nat)) k
       = match get (weights wider) k with
         | Some old =>
             Some (match get (state_dict
                                (Entry 7 [("fc.weight"%string, 31%nat);
                                          ("old.weight"%string, 32%nat)] 3%nat)) k with
                   | Some v => v
                   | None => old
                   end)
         | None => None
         end.
Proof.
  apply (@recover_state_merges nat nat any_fits takes_any false other_states
           "vln_model"%string
           (Entry 7 [("fc.weight"%string, 31%nat); ("old.weight"%string, 32%nat)] 3%nat)
           wider
           (Part [("fc.weight"%string, 31%nat); ("head.weight"%string, 5%nat)] 0%nat)).
  - reflexivity.
  - cbn [state_dict keys map fst].
    constructor; [intros [H | []]; discriminate H | constructor; [intros [] | constructor]].
  - reflexivity.
Defined.

(** After [save], [load] from the same path into an agent of the same
    architecture gives every model the tensors of the agent that was saved,
    gives every optimizer the saved state when [resume_optimizer] is set and
    leaves it alone otherwise, and returns the epoch that was given to
    [save]; for a file system that reads back what was written and
    optimizers that take the saved states. *)
Theorem load_after_save (tensor optim : Type) (fits : tensor -> tensor -> bool)
  (load_optimizer : optim -> optim -> outcome optim)
  (files : Type) (makedirs : files -> string -> outcome files)
  (torch_save : files -> string -> dict (entry tensor optim) -> outcome files)
  (torch_load : files -> string -> outcome (dict (entry tensor optim)))
  (resume_optimizer : bool) (a b : agent tensor optim) (epoch : Z) (path : string)
  (f f' : files) :
  (forall g p states g', torch_save g p states = Returns g' ->
                         torch_load g' p = Returns states) ->
  (forall o o', load_optimizer o o' = Returns o') ->
  same_architecture fits (lang_model b) (lang_model a) ->
  same_architecture fits (vision_model b) (vision_model a) ->
  same_architecture fits (vln_model b) (vln_model a) ->
  save makedirs torch_save a epoch path f = Returns f' ->
  load fits load_optimizer torch_load resume_optimizer b path f'
  = Returns
      (Agent
         (Part (weights (lang_model a))
            (if resume_optimizer then optimizer_state (lang_model a)
             else optimizer_state (lang_model b)))
         (Part (weights (vision_model a))
            (if resume_optimizer then optimizer_state (vision_model a)
             else optimizer_state (vision_model b)))
         (Part (weights (vln_model a))
            (if resume_optimizer then optimizer_state (vln_model a)
             else optimizer_state (vln_model b))),
       epoch).
Proof.
  intros Hfs Hopt Hlang Hvision Hvln Hsave.
  unfold save in Hsave.
  destruct (makedirs f (os_path_split_head path)) as [f0 | e]; [| discriminate].
  cbn [and_then] in Hsave; apply Hfs in Hsave.
  unfold load; rewrite Hsave; cbn [and_then].
  rewrite (@recover_same_architecture _ _ fits load_optimizer resume_optimizer
             (saved_states a epoch) "lang_model" (epoch + 1) (lang_model b) (lang_model a)
             Hlang eq_refl (Hopt _ _)).
  cbn [and_then].
  rewrite (@recover_same_architecture _ _ fits load_optimizer resume_optimizer
             (saved_states a epoch) "vision_model" (epoch + 1) (vision_model b)
             (vision_model a) Hvision eq_refl (Hopt _ _)).
  cbn [and_then].
  rewrite (@recover_same_architecture _ _ fits load_optimizer resume_optimizer
             (saved_states a epoch) "vln_model" (epoch + 1) (vln_model b) (vln_model a)
             Hvln eq_refl (Hopt _ _)).
  cbn [and_then]; unfold getitem.
  change (get (saved_states a epoch) "vln_model")
    with (Some (Entry (epoch + 1) (weights (vln_model a)) (optimizer_state (vln_model a)))).
  cbn [and_then Checkpoint.epoch].
  f_equal; f_equal; lia.
Qed.

Lemma load_after_save_witness :
  load any_fits takes_any disk_load true fresh "ckpt/m.pt"
    [("ckpt/m.pt"%string, saved_states trained 4)]
  = Returns
      (Agent
         (Part (weights (lang_model trained))
            (if true then optimizer_state (lang_model trained)
             else optimizer_state (lang_model fresh)))
         (Part (weights (vision_model trained))
            (if true then optimizer_state (vision_model trained)
             else optimizer_state (vision_model fresh)))
         (Part (weights (vln_model trained))
            (if true then optimizer_state (vln_model trained)
             else optimizer_state (vln_model fresh))),
       4%Z).
Proof.
  apply (@load_after_save nat nat any_fits takes_any disk disk_makedirs disk_save disk_load
           true trained fresh 4 "ckpt/m.pt" []
           [("ckpt/m.pt"%string, saved_states trained 4)]).
  - intros g p states g' H; unfold disk_save in H; injection H as <-.
    unfold disk_load; rewrite get_set_item, String.eqb_refl; reflexivity.
  - reflexivity.
  - split; [constructor; [intros [] | constructor] |].
    repeat constructor.
  - split; [constructor; [intros [H | []]; discriminate H |
                          constructor; [intros [] | constructor]] |].
    repeat constructor.
  - split; [constructor; [intros [] | constructor] |].
    repeat constructor.
  - reflexivity.
Defined.

(** *** A path without a directory *)

Lemma drop_while_all {A : Type} (p : A -> bool) (l : list A) :
  forallb p l = true -> drop_while p l = [].
Proof.
  induction l as [| x l IH]; cbn [forallb drop_while]; [reflexivity |].
  intros H; apply andb_prop in H; destruct H as [Hx Hl]; rewrite Hx; apply IH, Hl.
Qed.

Lemma split_head_no_slash (path : string) :
  no_slash path = true -> os_path_split_head path = String.EmptyString.
Proof.
  unfold no_slash, os_path_split_head; intros H; cbv zeta.
  assert (Hh : drop_while (fun c => negb (is_slash c)) (rev (list_ascii_of_string path))
               = []).
  { apply drop_while_all, forallb_forall; intros c Hc; apply in_rev in Hc.
    rewrite forallb_forall in H; apply H, Hc. }
  rewrite Hh; reflexivity.
Qed.

(** For a path with no slash in it, [save] asks [os.makedirs] for the
    directory with the empty name; when that raises, as it does for a file
    system that has no such directory, [save] raises the same exception and
    nothing is written. *)
Theorem save_needs_directory (tensor optim files : Type)
  (makedirs : files -> string -> outcome files)
  (torch_save : files -> string -> dict (entry tensor optim) -> outcome files)
  (a : agent tensor optim) (epoch : Z) (path : string) (f : files) (e : error) :
  no_slash path = true ->
  makedirs f String.EmptyString = Raises e ->
  save makedirs torch_save a epoch path f = Raises e.
Proof.
  intros Hpath Hdir; unfold save.
  rewrite (split_head_no_slash path Hpath), Hdir; reflexivity.
Qed.

Lemma save_needs_directory_witness :
  save disk_makedirs disk_save trained 4 "model.pt" [] = Raises FileNotFoundError.
Proof.
  apply (@save_needs_directory nat nat disk disk_makedirs disk_save trained 4
           "model.pt" [] FileNotFoundError); reflexivity.
Defined.

End CheckpointFacts.

(** ** The reference window that gives the teacher's altitude *)

Module ScanFacts.
Import Geometry.
Import GeometryFacts.
Import Oracle.
Import OracleFacts.

(** The scan of lines 377-383 over the windows in the order [l]: either no
    window beats the bound by the margin, or the index kept is that of a
    window that is strictly nearer than every window scanned before it and
    nearer, up to the margin, than every window scanned after it. *)
Lemma closest_scan_split (current_pos : rpt) (l : list (nat * quad rpt)) :
  forall (min_dis : R) (c : option nat),
    (closest_scan current_pos l min_dis c = (min_dis, c)
     /\ forall j w, In (j, w) l -> min_dis <= rnorm (rsub (rmean w) current_pos) + 0.00001)
    \/ (exists l1 j w l2,
          l = l1 ++ (j, w) :: l2
          /\ closest_scan current_pos l min_dis c
             = (rnorm (rsub (rmean w) current_pos), Some j)
          /\ rnorm (rsub (rmean w) current_pos) + 0.00001 < min_dis
          /\ (forall j' w', In (j', w') l1 ->
                rnorm (rsub (rmean w) current_pos) < rnorm (rsub (rmean w') current_pos))
          /\ (forall j' w', In (j', w') l2 ->
                rnorm (rsub (rmean w) current_pos)
                <= rnorm (rsub (rmean w') current_pos) + 0.00001)).
Proof.
  induction l as [| [j0 w0] l IH]; intros min_dis c.
  - left; split; [reflexivity | intros j w []].
  - cbn [closest_scan].
    set (d0 := rnorm (rsub (rmean w0) current_pos)).
    destruct (Rltb (d0 + 0.00001) min_dis) eqn:Hlt.
    + apply Rltb_spec in Hlt; right.
      destruct (IH d0 (Some j0))
        as [[Hkeep Hall] | [l1 [j [w [l2 [El [Hres [Hd [H1 H2]]]]]]]]].
      * exists [], j0, w0, l; fold d0.
        repeat split; [exact Hkeep | exact Hlt | intros j' w' [] | exact Hall].
      * exists ((j0, w0) :: l1), j, w, l2.
        repeat split; [rewrite El; reflexivity | exact Hres | lra | | exact H2].
        intros j' w' [E | Hin]; [injection E as <- <-; fold d0; lra | apply (H1 j' w' Hin)].
    + assert (Hge : min_dis <= d0 + 0.00001).
      { destruct (Rlt_dec (d0 + 0.00001) min_dis) as [H | H]; [| lra].
        rewrite (Rltb_true H) in Hlt; discriminate. }
      destruct (IH min_dis c)
        as [[Hkeep Hall] | [l1 [j [w [l2 [El [Hres [Hd [H1 H2]]]]]]]]].
      * left; split; [exact Hkeep |].
        intros j w [E | Hin]; [injection E as <- <-; exact Hge | apply (Hall j w Hin)].
      * right; exists ((j0, w0) :: l1), j, w, l2.
        repeat split; [rewrite El; reflexivity | exact Hres | exact Hd | | exact H2].
        intros j' w' [E | Hin]; [injection E as <- <-; fold d0; lra | apply (H1 j' w' Hin)].
Qed.

(** The windows with their indices. *)
Lemma combine_seq_In {A : Type} (l : list A) :
  forall (a j : nat) (w : A),
    In (j, w) (combine (seq a (List.length l)) l)
    <-> (a <= j)%nat /\ nth_error l (j - a) = Some w.
Proof.
  induction l as [| x l IH]; intros a j w; cbn [List.length seq combine In].
  - split; [intros [] | intros [_ H]; destruct (j - a)%nat; discriminate].
  - rewrite IH; split.
    + intros [E | [Hle Hn]].
      * injection E as <- <-; split; [lia |].
        replace (a - a)%nat with 0%nat by lia; reflexivity.
      * split; [lia |].
        replace (j - a)%nat with (S (j - S a)) by lia; exact Hn.
    + intros [Hle Hn].
      destruct (Nat.eq_dec a j) as [<- | Hne].
      * left; replace (a - a)%nat with 0%nat in Hn by lia.
        injection Hn as <-; reflexivity.
      * right; split; [lia |].
        replace (j - a)%nat with (S (j - S a)) in Hn by lia; exact Hn.
Qed.

Lemma combine_seq_split {A : Type} (l : list A) :
  forall (a : nat) (p q : list (nat * A)) (j : nat) (w : A),
    combine (seq a (List.length l)) l = p ++ (j, w) :: q ->
    (forall j' w', In (j', w') p -> (j' < j)%nat)
    /\ (forall j' w', In (j', w') q -> (j < j')%nat).
Proof.
  induction l as [| x l IH]; intros a p q j w; cbn [List.length seq combine].
  - destruct p; discriminate.
  - destruct p as [| y p]; cbn [app]; intros E.
    + assert (Ea : a = j) by congruence.
      assert (Eq : combine (seq (S a) (List.length l)) l = q) by congruence.
      split; [intros j' w' [] |].
      intros j' w' Hin; rewrite <- Eq in Hin.
      apply combine_seq_In in Hin; lia.
    + assert (Ey : y = (a, x)) by congruence.
      assert (E1 : combine (seq (S a) (List.length l)) l = p ++ (j, w) :: q) by congruence.
      destruct (IH (S a) p q j w E1) as [Hp Hq]; split; [| exact Hq].
      intros j' w' [E' | Hin]; [| apply (Hp j' w' Hin)].
      assert (Ej : j' = a) by congruence.
      assert (Hin : In (j, w) (combine (seq (S a) (List.length l)) l))
        by (rewrite E1; apply in_or_app; right; left; reflexivity).
      apply combine_seq_In in Hin; lia.
Qed.

Lemma indexed_backward_In (gt : list (quad rpt)) (j : nat) (w : quad rpt) :
  In (j, w) (indexed_backward gt) <-> nth_error gt j = Some w.
Proof.
  unfold indexed_backward; rewrite <- in_rev, combine_seq_In.
  replace (j - 0)%nat with j by lia.
  split; [intros [_ H]; exact H | intros H; split; [lia | exact H]].
Qed.

Lemma indexed_backward_split (gt : list (quad rpt)) (l1 l2 : list (nat * quad rpt))
  (j : nat) (w : quad rpt) :
  indexed_backward gt = l1 ++ (j, w) :: l2 ->
  (forall j' w', In (j', w') l1 -> (j < j')%nat)
  /\ (forall j' w', In (j', w') l2 -> (j' < j)%nat).
Proof.
  unfold indexed_backward; intros E.
  assert (E' : combine (seq 0 (List.length gt)) gt = rev l2 ++ (j, w) :: rev l1).
  { rewrite <- (rev_involutive (combine _ _)), E, rev_app_distr; cbn [rev].
    rewrite <- app_assoc; reflexivity. }
  destruct (combine_seq_split _ _ _ _ _ _ E') as [Hp Hq]; split.
  - intros j' w' Hin; apply (Hq j' w'), in_rev; rewrite rev_involutive; exact Hin.
  - intros j' w' Hin; apply (Hp j' w'), in_rev; rewrite rev_involutive; exact Hin.
Qed.

(** For a sample that has a reference window less than 1000 away, by the
    margin of line 381: the altitude that [teacher_action] returns is that
    of a reference window which is nearer to the current window, centre to
    centre, than every other reference window up to the margin 0.00001, and
    strictly nearer than every reference window that comes later on the
    path. *)
Theorem teacher_altitude_from_closest (S : Shapely) (fb : feedback) (cb : option nat)
  (s : sample) (o : teacher_out) (near : quad rpt) :
  teacher_action_i S fb cb s = Ok o ->
  In near (gt_path_corners s) ->
  rnorm (rsub (rmean near) (rmean (corners s))) + 0.00001 < 1000 ->
  exists (j : nat) (w : quad rpt),
    nth_error (gt_path_corners s) j = Some w
    /\ closest_after o = Some j
    /\ altitude_slot o = PyFloat (teacher_altitude w)
    /\ forall j' w',
         nth_error (gt_path_corners s) j' = Some w' ->
         rnorm (rsub (rmean w) (rmean (corners s)))
         <= rnorm (rsub (rmean w') (rmean (corners s))) + 0.00001
         /\ ((j < j')%nat ->
             rnorm (rsub (rmean w) (rmean (corners s)))
             < rnorm (rsub (rmean w') (rmean (corners s)))).
Proof.
  intros H Hin Hnear; unfold teacher_action_i in H.
  apply bind_ok in H; destruct H as [final [_ H]].
  apply bind_ok in H; destruct H as [iou [_ H]].
  destruct (In_nth_error _ _ Hin) as [jn Hjn].
  apply indexed_backward_In in Hjn.
  destruct (closest_scan_split (rmean (corners s)) (indexed_backward (gt_path_corners s))
              1000 cb)
    as [[_ Hall] | [l1 [j [w [l2 [El [Hres [Hd [H1 H2]]]]]]]]].
  - specialize (Hall jn near Hjn); lra.
  - rewrite Hres in H; cbn [snd] in H.
    assert (Hj : nth_error (gt_path_corners s) j = Some w).
    { apply indexed_backward_In; rewrite El; apply in_or_app; right; left; reflexivity. }
    unfold item in H; rewrite Hj in H; cbn [bind] in H.
    destruct (indexed_backward_split _ _ _ _ _ El) as [Hlater Hearlier].
    exists j, w; split; [exact Hj |].
    assert (Hslots : closest_after o = Some j /\ altitude_slot o = PyFloat (teacher_altitude w)).
    { destruct (terminal (ended s) iou).
      - injection H as <-; split; reflexivity.
      - apply bind_ok in H; destruct H as [il [_ H]].
        apply bind_ok in H; destruct H as [r [_ H]].
        injection H as <-; split; reflexivity. }
    destruct Hslots as [Hc Ha]; split; [exact Hc |]; split; [exact Ha |].
    intros j' w' Hj'.
    apply indexed_backward_In in Hj'; rewrite El in Hj'.
    apply in_app_or in Hj'; destruct Hj' as [Hin1 | [E | Hin2]].
    + specialize (H1 j' w' Hin1); split; [lra | intros _; exact H1].
    + injection E as <- <-; split; [lra | lia].
    + specialize (H2 j' w' Hin2); split; [exact H2 |].
      intros Hlt; specialize (Hearlier j' w' Hin2); lia.
Qed.

Lemma teacher_altitude_from_closest_witness :
  exists (j : nat) (w : quad rpt),
    nth_error (gt_path_corners near_sample) j = Some w
    /\ closest_after
         (TeacherOut (PyNdarray (clamp (1, 0))) (PyFloat (teacher_altitude here)) 0
            (Some 0%nat)) = Some j
    /\ altitude_slot
         (TeacherOut (PyNdarray (clamp (1, 0))) (PyFloat (teacher_altitude here)) 0
            (Some 0%nat)) = PyFloat (teacher_altitude w)
    /\ forall j' w',
         nth_error (gt_path_corners near_sample) j' = Some w' ->
         rnorm (rsub (rmean w) (rmean (corners near_sample)))
         <= rnorm (rsub (rmean w') (rmean (corners near_sample))) + 0.00001
         /\ ((j < j')%nat ->
             rnorm (rsub (rmean w) (rmean (corners near_sample)))
             < rnorm (rsub (rmean w') (rmean (corners near_sample)))).
Proof.
  apply (@teacher_altitude_from_closest near_answers student None near_sample
           (TeacherOut (PyNdarray (clamp (1, 0))) (PyFloat (teacher_altitude here)) 0
              (Some 0%nat))
           here).
  - exact teacher_action_i_near.
  - left; reflexivity.
  - cbn [near_sample corners]; rewrite rmean_here; unfold rnorm, rsub; cbn [fst snd].
    replace (sqrt ((1 - 1) * (1 - 1) + (1 - 1) * (1 - 1))) with 0
      by (symmetry; apply sqrt_lem_1; lra).
    lra.
Defined.

End ScanFacts.
